(** * Universal_proxy: a shallow embedding of [src/proxy/universal_proxy.js]

    The module wraps a JavaScript value in a [Proxy] whose traps forward
    every structural operation to [Reflect], call optional user hooks and
    write one line per operation to a log sink.

    The embedding keeps the shape of the source:
    - JavaScript values are an inductive type; a wrapper built by
      [createProxy] or [createFunctionProxy] is a value that remembers its
      target and the path string its handler closes over;
    - the JavaScript runtime ([Reflect.*], [JSON.stringify], [ToString] of
      objects, [console]) is a record of state transformers over an
      arbitrary world [W]: every theorem holds for every runtime;
    - the hooks in the options object are state transformers as well;
    - a trap is a computation in a small monad of state, exceptions and a
      trace: the trace lists, in order, the calls this activation of the trap
      makes to the runtime, to the hooks and to the sink.  Trap activations
      that the runtime itself starts while it serves one of these calls (a
      getter reading through the wrapper, [JSON.stringify] walking a wrapper)
      belong to the runtime's side of the interface and to their own
      traces;
    - what the engine does around a trap is part of the embedding where it
      decides what the caller of a wrapper sees: after the [get] trap has
      returned, the proxy's [[Get]] checks the value against the target's
      own property, and throws when an invariant of proxies is broken. *)

From Stdlib Require Import String Ascii List ZArith Bool DecimalString
  Permutation.
Import ListNotations.
Open Scope string_scope.
Set Warnings "-register-all".

(** ** Values *)

(** A property key is a string or a symbol.  A symbol has an identity and an
    optional description. *)
Inductive key : Type :=
| KStr (s : string)
| KSym (id : nat) (description : option string).

(** JavaScript values.  A number is kept as its canonical rendering
    (Number::toString), the only thing the source asks of a number besides
    its truthiness.  [VObj] and [VFun] are references to ordinary objects
    and functions of the wrapped environment, [VArr] is an array with its
    elements, [VProxy] is the result of [createProxy] and [VFunProxy] the
    result of [createFunctionProxy]. *)
Inductive value : Type :=
| VUndefined
| VNull
| VBool (b : bool)
| VNum (repr : string)
| VBigInt (z : Z)
| VStr (s : string)
| VSym (id : nat) (description : option string)
| VObj (l : nat)
| VFun (l : nat)
| VArr (elems : list value)
| VProxy (target : value) (path : string)
| VFunProxy (target : value) (path : string).

Inductive type_tag : Type :=
| TUndefined | TObject | TBoolean | TNumber | TBigint | TString | TSymbol
| TFunction.

Definition type_tag_eqb (a b : type_tag) : bool :=
  match a, b with
  | TUndefined, TUndefined | TObject, TObject | TBoolean, TBoolean
  | TNumber, TNumber | TBigint, TBigint | TString, TString
  | TSymbol, TSymbol | TFunction, TFunction => true
  | _, _ => false
  end.

(** IsCallable: a proxy is callable exactly when its target is. *)
Fixpoint callable (v : value) : bool :=
  match v with
  | VFun _ => true
  | VProxy t _ | VFunProxy t _ => callable t
  | _ => false
  end.

(** The [typeof] operator. *)
Definition typeof (v : value) : type_tag :=
  match v with
  | VUndefined => TUndefined
  | VNull => TObject
  | VBool _ => TBoolean
  | VNum _ => TNumber
  | VBigInt _ => TBigint
  | VStr _ => TString
  | VSym _ _ => TSymbol
  | VObj _ | VArr _ => TObject
  | VFun _ => TFunction
  | VProxy _ _ | VFunProxy _ _ => if callable v then TFunction else TObject
  end.

(** ToBoolean. *)
Definition truthy (v : value) : bool :=
  match v with
  | VUndefined | VNull => false
  | VBool b => b
  | VNum r => negb (String.eqb r "0" || String.eqb r "NaN")
  | VBigInt z => negb (Z.eqb z 0)
  | VStr s => negb (String.eqb s "")
  | _ => true
  end.

(** [v == null]. *)
Definition nullish (v : value) : bool :=
  match v with
  | VUndefined | VNull => true
  | _ => false
  end.

(** [a ?? b]. *)
Definition coalesce (a b : value) : value := if nullish a then b else a.

(** Type(v) is Object: what [new Proxy] accepts as a target. *)
Definition is_object (v : value) : bool :=
  match v with
  | VObj _ | VFun _ | VArr _ | VProxy _ _ | VFunProxy _ _ => true
  | _ => false
  end.

(** A value that carries no reference at all. *)
Definition is_primitive (v : value) : bool := negb (is_object v).

(** A wrapper made by this module. *)
Definition is_wrapped (v : value) : bool :=
  match v with
  | VProxy _ _ | VFunProxy _ _ => true
  | _ => false
  end.

(** ** Strings *)

(** [hay.includes(needle)]. *)
Fixpoint includes (needle hay : string) : bool :=
  String.prefix needle hay ||
  match hay with
  | EmptyString => false
  | String _ rest => includes needle rest
  end.

(** [Array.prototype.join] on strings. *)
Fixpoint join (sep : string) (parts : list string) : string :=
  match parts with
  | [] => ""
  | [p] => p
  | p :: rest => p ++ sep ++ join sep rest
  end.

Definition decimal (z : Z) : string := NilZero.string_of_int (Z.to_int z).

Definition description_text (d : option string) : string :=
  match d with
  | Some s => s
  | None => ""
  end.

(** [String(prop)] for a property key: never throws, also for a symbol. *)
Definition String_key (prop : key) : string :=
  match prop with
  | KStr s => s
  | KSym _ d => "Symbol(" ++ description_text d ++ ")"
  end.

(** [typeof prop === 'symbol' ? prop.description ?? '[Symbol]' : prop]. *)
Definition propStr (prop : key) : string :=
  match prop with
  | KSym _ (Some d) => d
  | KSym _ None => "[Symbol]"
  | KStr s => s
  end.

(** A template substitution of a boolean. *)
Definition bool_text (b : bool) : string := if b then "true" else "false".

(** A template substitution of what [safeStringify] returns: a string, or
    [undefined] when [JSON.stringify] yields no text. *)
Definition text_of (s : option string) : string :=
  match s with
  | Some t => t
  | None => "undefined"
  end.

Definition key_eqb (a b : key) : bool :=
  match a, b with
  | KStr s, KStr s' => String.eqb s s'
  | KSym i _, KSym i' _ => Nat.eqb i i'
  | _, _ => false
  end.

(** [Set.prototype.has] on the set of watched keys. *)
Definition Set_has (s : list key) (prop : key) : bool :=
  existsb (key_eqb prop) s.

(** ** The log lines: the template literals of the traps *)

Definition get_line (path : string) (prop : key) (s : option string) : string :=
  "調用者 => [" ++ path ++ "] 獲取屬性 => [" ++ propStr prop
  ++ "], 結果 => [" ++ text_of s ++ "]".

Definition set_line (path : string) (prop : key) (s : option string) : string :=
  "調用者 => [" ++ path ++ "] 設置屬性 => [" ++ propStr prop
  ++ "], 值為 => [" ++ text_of s ++ "]".

Definition has_line (path : string) (prop : key) (result : bool) : string :=
  "調用者 => [" ++ path ++ "] in 操作符檢查屬性 => [" ++ propStr prop
  ++ "], 結果 => [" ++ bool_text result ++ "]".

Definition delete_line (path : string) (prop : key) (result : bool) : string :=
  "調用者 => [" ++ path ++ "] 刪除屬性 => [" ++ propStr prop
  ++ "], 結果 => [" ++ bool_text result ++ "]".

Definition define_line (path : string) (prop : key) (s : option string)
    (result : bool) : string :=
  "調用者 => [" ++ path ++ "] 定義屬性 => [" ++ propStr prop
  ++ "] 描述 => [" ++ text_of s ++ "], 結果 => [" ++ bool_text result ++ "]".

Definition getPrototypeOf_line (path : string) (s : option string) : string :=
  "調用者 => [" ++ path ++ "] 獲取原型 => [], 結果 => [" ++ text_of s ++ "]".

Definition setPrototypeOf_line (path : string) (s : option string) : string :=
  "調用者 => [" ++ path ++ "] 設置原型 => [" ++ text_of s ++ "]".

Definition preventExtensions_line (path : string) : string :=
  "調用者 => [" ++ path ++ "] 防止物件擴展 => []".

Definition isExtensible_line (path : string) (result : bool) : string :=
  "調用者 => [" ++ path ++ "] 檢查物件是否可擴展 => [], 結果 => ["
  ++ bool_text result ++ "]".

(** The first field of every line: the actor and its path. *)
Definition actor (path : string) : string := "調用者 => [" ++ path ++ "] ".

(** [detail] is the text between the brackets after 傳參. *)
Definition apply_line (path n detail : string) (s : option string) : string :=
  "調用者 => [" ++ path ++ "] 調用函數 => [" ++ n ++ "], 傳參 => ["
  ++ detail ++ "], 結果 => [" ++ text_of s ++ "]".

Definition construct_line (path n : string) (a s : option string) : string :=
  "調用者 => [" ++ path ++ "] 構造物件 => [" ++ n ++ "], 傳參 => ["
  ++ text_of a ++ "], 結果 => [" ++ text_of s ++ "]".

(** ** Outcomes, actions and the monad *)

Inductive exn : Type :=
| TypeError (msg : string)
| Thrown (v : value).

Inductive outcome (A : Type) : Type :=
| Ok (a : A)
| Throw (e : exn).
Arguments Ok {A} a.
Arguments Throw {A} e.

Inductive hook_id : Type :=
| BeforeGet | AfterGet | BeforeSet | AfterSet | BeforeApply | AfterApply.

(** One call made by a trap activation. *)
Inductive action : Type :=
| ARealGet (t : value) (prop : key) (receiver : value)
| ARealSet (t : value) (prop : key) (v receiver : value)
| ARealHas (t : value) (prop : key)
| ARealDelete (t : value) (prop : key)
| ARealDefine (t : value) (prop : key) (attributes : value)
| ARealGetPrototypeOf (t : value)
| ARealSetPrototypeOf (t proto : value)
| ARealPreventExtensions (t : value)
| ARealIsExtensible (t : value)
| ARealApply (target thisArg args : value)
| ARealConstruct (target args newTarget : value)
| AHook (h : hook_id) (path : string) (prop : option key) (arg : option value)
| AMember (o : value) (prop : key)
| AStringify (v : value)
| AToString (v : value)
| ALog (line : string).

(** The steps the specification names. *)
Inductive step : Type := SPre | SReal | SPost | SLog.

Definition step_of (a : action) : option step :=
  match a with
  | AHook BeforeGet _ _ _ | AHook BeforeSet _ _ _ | AHook BeforeApply _ _ _ =>
      Some SPre
  | AHook AfterGet _ _ _ | AHook AfterSet _ _ _ | AHook AfterApply _ _ _ =>
      Some SPost
  | ALog _ => Some SLog
  | AMember _ _ | AStringify _ | AToString _ => None
  | _ => Some SReal
  end.

Fixpoint steps (tr : list action) : list step :=
  match tr with
  | [] => []
  | a :: rest =>
      match step_of a with
      | Some s => s :: steps rest
      | None => steps rest
      end
  end.

Definition is_hook (a : action) : bool :=
  match a with
  | AHook _ _ _ _ => true
  | _ => false
  end.

(** Hooks, member reads of the module's own code, renderings and the sink:
    everything a trap does besides the real operation. *)
Definition auxiliary (a : action) : bool :=
  match a with
  | AHook _ _ _ _ | AMember _ _ | AStringify _ | AToString _ | ALog _ => true
  | _ => false
  end.

(** The step a hook contributes when it is configured. *)
Definition when_set {A : Type} (hook : option A) (s : step) : list step :=
  match hook with
  | Some _ => [s]
  | None => []
  end.

(** A real read whose receiver is a wrapper made by [createProxy]: the read
    was started by that wrapper's [get] trap. *)
Definition through_object_wrapper (a : action) : bool :=
  match a with
  | ARealGet _ _ (VProxy _ _) => true
  | ARealGet _ _ _ => false
  | _ => true
  end.

(** The operations a trace performs on a target. *)
Definition real_operations (tr : list action) : list action :=
  filter (fun a => negb (auxiliary a)) tr.

(** The lines a trace sends to the sink. *)
Fixpoint log_lines (tr : list action) : list string :=
  match tr with
  | [] => []
  | ALog line :: rest => line :: log_lines rest
  | _ :: rest => log_lines rest
  end.

Section Monad.
Context {W : Type}.

(** A runtime or hook call: it may change the world and may throw. *)
Definition op (A : Type) : Type := W -> outcome A * W.

(** A trap computation: outcome, final world, calls made. *)
Definition M (A : Type) : Type := W -> outcome A * W * list action.

Definition ret {A} (a : A) : M A := fun w => (Ok a, w, []).

Definition throw {A} (e : exn) : M A := fun w => (Throw e, w, []).

Definition bind {A B} (m : M A) (f : A -> M B) : M B :=
  fun w =>
    match m w with
    | (Ok a, w1, t1) =>
        match f a w1 with
        | (o, w2, t2) => (o, w2, (t1 ++ t2)%list)
        end
    | (Throw e, w1, t1) => (Throw e, w1, t1)
    end.

(** Make one call and record it. *)
Definition perform {A} (a : action) (f : op A) : M A :=
  fun w => match f w with (o, w1) => (o, w1, [a]) end.
End Monad.
Arguments op W A : clear implicits.
Arguments M W A : clear implicits.

Notation "x <- m ;; k" := (bind m (fun x => k))
  (at level 100, m at next level, right associativity).
Notation "m ;;; k" := (bind m (fun _ => k))
  (at level 100, right associativity).

Definition result_of {W A} (r : outcome A * W * list action) : outcome A :=
  fst (fst r).
Definition world_of {W A} (r : outcome A * W * list action) : W :=
  snd (fst r).
Definition trace_of {W A} (r : outcome A * W * list action) : list action :=
  snd r.

(** ** The runtime and the options *)

(** The JavaScript runtime the module runs on.  [Reflect_get t k r] is
    [t.[[Get]](k, r)], which is also what a member read [o.k] performs on an
    object [o].  [console] gives the method of the global console stored
    under a name, if that property holds one. *)
Record Platform (W : Type) : Type := {
  Reflect_get : value -> key -> value -> op W value;
  Reflect_set : value -> key -> value -> value -> op W bool;
  Reflect_has : value -> key -> op W bool;
  Reflect_deleteProperty : value -> key -> op W bool;
  Reflect_defineProperty : value -> key -> value -> op W bool;
  Reflect_getPrototypeOf : value -> op W value;
  Reflect_setPrototypeOf : value -> value -> op W bool;
  Reflect_preventExtensions : value -> op W bool;
  Reflect_isExtensible : value -> op W bool;
  Reflect_apply : value -> value -> value -> op W value;
  Reflect_construct : value -> value -> value -> op W value;
  JSON_stringify : value -> op W (option string);
  ToString_object : value -> op W string;
  console : string -> option (string -> op W value)
}.
Arguments Reflect_get {W}.
Arguments Reflect_set {W}.
Arguments Reflect_has {W}.
Arguments Reflect_deleteProperty {W}.
Arguments Reflect_defineProperty {W}.
Arguments Reflect_getPrototypeOf {W}.
Arguments Reflect_setPrototypeOf {W}.
Arguments Reflect_preventExtensions {W}.
Arguments Reflect_isExtensible {W}.
Arguments Reflect_apply {W}.
Arguments Reflect_construct {W}.
Arguments JSON_stringify {W}.
Arguments ToString_object {W}.
Arguments console {W}.

(** A property descriptor, as far as the invariants of a proxy look at
    it. *)
Inductive descriptor : Type :=
| DataProperty (v : value) (writable configurable : bool)
| AccessorProperty (getter : value) (configurable : bool).

(** What the engine asks of a target on its own, outside the traps:
    [t.[[GetOwnProperty]](k)]. *)
Record Engine (W : Type) : Type := {
  GetOwnProperty : value -> key -> op W (option descriptor)
}.
Arguments GetOwnProperty {W}.

(** SameValue.  A reference is the same as itself; an array and a wrapper,
    which carry no identity of their own here, are compared by what they
    hold, and the two zeros, which have one rendering, are one number. *)
Fixpoint SameValue (a b : value) : bool :=
  match a, b with
  | VUndefined, VUndefined | VNull, VNull => true
  | VBool x, VBool y => Bool.eqb x y
  | VNum x, VNum y => String.eqb x y
  | VBigInt x, VBigInt y => Z.eqb x y
  | VStr x, VStr y => String.eqb x y
  | VSym i _, VSym j _ => Nat.eqb i j
  | VObj l, VObj l' | VFun l, VFun l' => Nat.eqb l l'
  | VArr xs, VArr ys =>
      (fix all2 (xs ys : list value) {struct xs} : bool :=
         match xs, ys with
         | [], [] => true
         | x :: xs', y :: ys' => SameValue x y && all2 xs' ys'
         | _, _ => false
         end) xs ys
  | VProxy t p, VProxy t' p' | VFunProxy t p, VFunProxy t' p' =>
      SameValue t t' && String.eqb p p'
  | _, _ => false
  end.

(** [options.logLevel]: the name of a console method, or a sink function. *)
Inductive log_level (W : Type) : Type :=
| LevelName (name : string)
| LevelFn (f : string -> op W value).
Arguments LevelName {W}.
Arguments LevelFn {W}.

(** [this.options] after the constructor has merged the caller's options
    over the defaults and turned an array of watched keys into a [Set]. *)
Record options (W : Type) : Type := {
  logLevel : log_level W;
  watchedProps : option (list key);
  contextName : string;
  type : string;
  bindThis : bool;
  beforeGet : option (string -> key -> op W value);
  afterGet : option (string -> key -> value -> op W value);
  beforeSet : option (string -> key -> value -> op W value);
  afterSet : option (string -> key -> value -> op W value);
  beforeApply : option (string -> value -> op W value);
  afterApply : option (string -> value -> op W value)
}.
Arguments logLevel {W}.
Arguments watchedProps {W}.
Arguments contextName {W}.
Arguments type {W}.
Arguments bindThis {W}.
Arguments beforeGet {W}.
Arguments afterGet {W}.
Arguments beforeSet {W}.
Arguments afterSet {W}.
Arguments beforeApply {W}.
Arguments afterApply {W}.

(** The defaults of the constructor. *)
Definition default_options (W : Type) : options W :=
  {| logLevel := LevelName "info";
     watchedProps := None;
     contextName := "obj";
     type := "object";
     bindThis := false;
     beforeGet := None;
     afterGet := None;
     beforeSet := None;
     afterSet := None;
     beforeApply := None;
     afterApply := None |}.

(** ** The class *)

Section Universal_proxy.
Context {W : Type}.
Variable P : Platform W.
Variable E : Engine W.
Variable self : options W.

(** [hook?.(...)]: an absent hook is not called and gives [undefined]. *)
Definition optional_call (h : hook_id) (path : string) (prop : option key)
    (arg : option value) (f : option (op W value)) : M W value :=
  match f with
  | Some g => perform (AHook h path prop arg) g
  | None => ret VUndefined
  end.

(** [self.options.beforeGet?.(path, prop)] and its five siblings. *)
Definition call_beforeGet (path : string) (prop : key) : M W value :=
  optional_call BeforeGet path (Some prop) None
    (option_map (fun h => h path prop) (beforeGet self)).

Definition call_afterGet (path : string) (prop : key) (v : value)
    : M W value :=
  optional_call AfterGet path (Some prop) (Some v)
    (option_map (fun h => h path prop v) (afterGet self)).

Definition call_beforeSet (path : string) (prop : key) (v : value)
    : M W value :=
  optional_call BeforeSet path (Some prop) (Some v)
    (option_map (fun h => h path prop v) (beforeSet self)).

Definition call_afterSet (path : string) (prop : key) (v : value)
    : M W value :=
  optional_call AfterSet path (Some prop) (Some v)
    (option_map (fun h => h path prop v) (afterSet self)).

Definition call_beforeApply (path : string) (args : value) : M W value :=
  optional_call BeforeApply path None (Some args)
    (option_map (fun h => h path args) (beforeApply self)).

Definition call_afterApply (path : string) (result : value) : M W value :=
  optional_call AfterApply path None (Some result)
    (option_map (fun h => h path result) (afterApply self)).

(** A member read [o.k] or [o[k]] made by the module's own code. *)
Definition member (o : value) (prop : key) : M W value :=
  perform (AMember o prop) (Reflect_get P o prop o).

(** [finalArgs[0]]. *)
Definition first_of (args : value) : M W value :=
  match args with
  | VArr [] => ret VUndefined
  | VArr (x :: _) => ret x
  | _ => member args (KStr "0")
  end.

(** ToString, as a template substitution applies it. *)
Definition ToString (v : value) : M W string :=
  match v with
  | VUndefined => ret "undefined"
  | VNull => ret "null"
  | VBool b => ret (bool_text b)
  | VNum r => ret r
  | VBigInt z => ret (decimal z)
  | VStr s => ret s
  | VSym _ _ =>
      throw (TypeError "Cannot convert a Symbol value to a string")
  | _ => perform (AToString v) (ToString_object P v)
  end.

(** [String(value)]: like ToString, but a symbol gives its descriptive
    string. *)
Definition String_ (v : value) : M W string :=
  match v with
  | VSym _ d => ret ("Symbol(" ++ description_text d ++ ")")
  | _ => ToString v
  end.

(** [safeStringify(value)] *)
Definition safeStringify (value : value) : M W (option string) :=
  if nullish value then
    s <- String_ value ;; ret (Some s)
  else if type_tag_eqb (typeof value) TObject then
    perform (AStringify value) (JSON_stringify P value)
  else
    s <- String_ value ;; ret (Some s).

(** [log(...messages)] *)
Definition log (messages : list string) : M W unit :=
  let level := logLevel self in
  let line := join " " messages in
  match level with
  | LevelFn f => perform (ALog line) (f line) ;;; ret tt
  | LevelName name =>
      match console P name with
      | Some f => perform (ALog line) (f line) ;;; ret tt
      | None =>
          match console P "log" with
          | Some f => perform (ALog line) (f line) ;;; ret tt
          | None => throw (TypeError "console.log is not a function")
          end
      end
  end.

(** [new Proxy(target, handler)]: the handlers of this module are
    determined by the kind of wrapper and the path. *)
Definition new_Proxy (wrapper : value -> string -> value) (target : value)
    (path : string) : M W value :=
  if is_object target then ret (wrapper target path)
  else throw (TypeError "Cannot create proxy with a non-object as target or handler").

(** [createProxy(target, path)] *)
Definition createProxy (target : value) (path : string) : M W value :=
  new_Proxy VProxy target path.

(** [createFunctionProxy(fn, path)] *)
Definition createFunctionProxy (fn : value) (path : string) : M W value :=
  new_Proxy VFunProxy fn path.

(** [self.options.watchedProps && !self.options.watchedProps.has(prop)] *)
Definition not_watched (prop : key) : bool :=
  match watchedProps self with
  | Some s => negb (Set_has s prop)
  | None => false
  end.

(** *** The handler installed by [createProxy] *)

Definition get_trap (path : string) (t : value) (prop : key)
    (receiver : value) : M W value :=
  if not_watched prop then
    perform (ARealGet t prop receiver) (Reflect_get P t prop receiver)
  else if includes "console" path then
    perform (ARealGet t prop receiver) (Reflect_get P t prop receiver)
  else
    let fullPath := path ++ "." ++ String_key prop in
    call_beforeGet path prop ;;;
    value <- perform (ARealGet t prop receiver)
               (Reflect_get P t prop receiver) ;;
    value <- (if truthy value && type_tag_eqb (typeof value) TObject then
                createProxy value fullPath
              else if type_tag_eqb (typeof value) TFunction then
                createFunctionProxy value fullPath
              else ret value) ;;
    hooked <- call_afterGet path prop value ;;
    let finalValue := coalesce hooked value in
    s <- safeStringify finalValue ;;
    log [get_line path prop s] ;;;
    ret finalValue.

Definition set_trap (path : string) (t : value) (prop : key)
    (value receiver : value) : M W bool :=
  hooked <- call_beforeSet path prop value ;;
  let newValue := coalesce hooked value in
  success <- perform (ARealSet t prop newValue receiver)
               (Reflect_set P t prop newValue receiver) ;;
  call_afterSet path prop newValue ;;;
  s <- safeStringify newValue ;;
  log [set_line path prop s] ;;;
  ret success.

Definition has_trap (path : string) (t : value) (prop : key) : M W bool :=
  result <- perform (ARealHas t prop) (Reflect_has P t prop) ;;
  log [has_line path prop result] ;;;
  ret result.

Definition deleteProperty_trap (path : string) (t : value) (prop : key)
    : M W bool :=
  result <- perform (ARealDelete t prop) (Reflect_deleteProperty P t prop) ;;
  log [delete_line path prop result] ;;;
  ret result.

Definition defineProperty_trap (path : string) (t : value) (prop : key)
    (attributes : value) : M W bool :=
  result <- perform (ARealDefine t prop attributes)
              (Reflect_defineProperty P t prop attributes) ;;
  s <- safeStringify attributes ;;
  log [define_line path prop s result] ;;;
  ret result.

Definition getPrototypeOf_trap (path : string) (t : value) : M W value :=
  result <- perform (ARealGetPrototypeOf t) (Reflect_getPrototypeOf P t) ;;
  s <- safeStringify result ;;
  log [getPrototypeOf_line path s] ;;;
  ret result.

Definition setPrototypeOf_trap (path : string) (t proto : value) : M W bool :=
  s <- safeStringify proto ;;
  log [setPrototypeOf_line path s] ;;;
  perform (ARealSetPrototypeOf t proto) (Reflect_setPrototypeOf P t proto).

Definition preventExtensions_trap (path : string) (t : value) : M W bool :=
  log [preventExtensions_line path] ;;;
  perform (ARealPreventExtensions t) (Reflect_preventExtensions P t).

Definition isExtensible_trap (path : string) (t : value) : M W bool :=
  result <- perform (ARealIsExtensible t) (Reflect_isExtensible P t) ;;
  log [isExtensible_line path result] ;;;
  ret result.

(** The value the [get] trap hands to the after-read hook when the real
    read gave [x]: lines 119-123 of the source. *)
Definition wrapped_read (path : string) (prop : key) (x : value) : value :=
  let fullPath := path ++ "." ++ String_key prop in
  if truthy x && type_tag_eqb (typeof x) TObject then VProxy x fullPath
  else if type_tag_eqb (typeof x) TFunction then VFunProxy x fullPath
  else x.

(** *** The handler installed by [createFunctionProxy]

    The engine passes the wrapper's target as the trap's first argument,
    so [target] and the captured [fn] are the same value. *)

Definition is_addEventListener (name : value) : bool :=
  match name with
  | VStr s => String.eqb s "addEventListener"
  | _ => false
  end.

Definition apply_trap (path : string) (fn thisArg args : value)
    : M W value :=
  let target := fn in
  let thisArg := if bindThis self then target else thisArg in
  hooked <- call_beforeApply path args ;;
  let finalArgs := coalesce hooked args in
  result <- perform (ARealApply target thisArg finalArgs)
              (Reflect_apply P target thisArg finalArgs) ;;
  hooked <- call_afterApply path result ;;
  let result := coalesce hooked result in
  name <- member fn (KStr "name") ;;
  if is_addEventListener name then
    name <- member fn (KStr "name") ;;
    n <- ToString name ;;
    first <- first_of finalArgs ;;
    a <- ToString first ;;
    s <- safeStringify result ;;
    log [apply_line path n a s] ;;;
    ret result
  else
    name <- member fn (KStr "name") ;;
    n <- ToString name ;;
    a <- safeStringify finalArgs ;;
    s <- safeStringify result ;;
    log [apply_line path n (text_of a) s] ;;;
    ret result.

Definition construct_trap (path : string) (target args newTarget : value)
    : M W value :=
  let finalArgs := args in
  result <- perform (ARealConstruct target finalArgs newTarget)
              (Reflect_construct P target finalArgs newTarget) ;;
  name <- member target (KStr "name") ;;
  n <- ToString name ;;
  a <- safeStringify finalArgs ;;
  s <- safeStringify result ;;
  log [construct_line path n a s] ;;;
  ret result.

(** *** The constructor *)

Definition Universal_proxy (target : value) : M W value :=
  let startPath := contextName self in
  if String.eqb (type self) "method"
     && type_tag_eqb (typeof target) TFunction then
    createFunctionProxy target startPath
  else
    createProxy target startPath.

(** *** What the observer's operations do with a value *)

(** A step of the engine: it may change the world and may throw, and it is
    no call of a trap, so it leaves no entry in the trace. *)
Definition by_engine {A} (f : op W A) : M W A :=
  fun w => match f w with (o, w1) => (o, w1, []) end.

(** The end of a proxy's [[Get]], after the trap has returned
    [trapResult]: the engine asks the target for its own property of that
    key.  If that is a data property that is neither configurable nor
    writable, the trap must have reported its value; if it is an accessor
    that is not configurable and has no getter, the trap must have reported
    [undefined].  Otherwise the engine throws a [TypeError]. *)
Definition Get_invariants (t : value) (prop : key) (trapResult : value)
    : op W unit :=
  fun w =>
    match GetOwnProperty E t prop w with
    | (Throw e, w1) => (Throw e, w1)
    | (Ok None, w1) => (Ok tt, w1)
    | (Ok (Some (DataProperty v writable configurable)), w1) =>
        if negb configurable && negb writable
           && negb (SameValue trapResult v)
        then (Throw (TypeError "'get' on proxy: property is a read-only and non-configurable data property on the proxy target but the proxy did not return its actual value"), w1)
        else (Ok tt, w1)
    | (Ok (Some (AccessorProperty getter configurable)), w1) =>
        if negb configurable && SameValue getter VUndefined
           && negb (SameValue trapResult VUndefined)
        then (Throw (TypeError "'get' on proxy: property is a non-configurable accessor property on the proxy target and does not have a getter function, but the trap did not return 'undefined'"), w1)
        else (Ok tt, w1)
    end.

(** A read [w[prop]].  On a wrapper made by [createProxy] the engine runs
    the [get] trap with the wrapper as receiver and then checks the
    invariants of [[Get]] on what the trap returned.  The handler of
    [createFunctionProxy] has no [get] trap, so the engine forwards the
    read to the target.  Any other value is read directly. *)
Definition read (w : value) (prop : key) : M W value :=
  match w with
  | VProxy t path =>
      trapResult <- get_trap path t prop w ;;
      by_engine (Get_invariants t prop trapResult) ;;;
      ret trapResult
  | VFunProxy t _ => perform (ARealGet t prop w) (Reflect_get P t prop w)
  | _ => perform (ARealGet w prop w) (Reflect_get P w prop w)
  end.

(** A call [w.apply(thisArg, args)]: only the handler of
    [createFunctionProxy] has an [apply] trap. *)
Definition invoke (w thisArg args : value) : M W value :=
  match w with
  | VFunProxy t path => apply_trap path t thisArg args
  | VProxy t _ => perform (ARealApply t thisArg args)
                    (Reflect_apply P t thisArg args)
  | _ => perform (ARealApply w thisArg args) (Reflect_apply P w thisArg args)
  end.

(** [new w(...args)]. *)
Definition instantiate (w args : value) : M W value :=
  match w with
  | VFunProxy t path => construct_trap path t args w
  | VProxy t _ => perform (ARealConstruct t args w)
                    (Reflect_construct P t args w)
  | _ => perform (ARealConstruct w args w) (Reflect_construct P w args w)
  end.

(** [w.k1.k2...]: a chain of reads. *)
Fixpoint read_chain (w : value) (props : list key) : M W value :=
  match props with
  | [] => ret w
  | prop :: rest => v <- read w prop ;; read_chain v rest
  end.

(** The path of the wrapper reached from [path] through [props]. *)
Fixpoint extend_path (path : string) (props : list key) : string :=
  match props with
  | [] => path
  | prop :: rest => extend_path (path ++ "." ++ String_key prop) rest
  end.
End Universal_proxy.

(** A trace that sends one line to the sink, with [path] in the actor
    field. *)
Definition one_line_at (path : string) (tr : list action) : Prop :=
  exists line, log_lines tr = [line] /\ String.prefix (actor path) line = true.

(** ** A small runtime to run the traps on

    Objects with data properties, functions that return a fixed value, a
    structural serializer that rejects cycles and big integers, and a console
    that appends to a list.  An operation on a wrapper, and the serialization
    of a wrapper, act on its target: the trap activations a real engine would
    start for them, each with a trace and a log line of its own, are not
    replayed here. *)
Module Env.

Record object : Type := {
  properties : list (string * value);
  proto : value;
  extensible : bool;
  name : option string;
  returns : value
}.

Record world : Type := {
  heap : list (nat * object);
  printed : list string
}.

Fixpoint address (v : value) : option nat :=
  match v with
  | VObj l | VFun l => Some l
  | VProxy t _ | VFunProxy t _ => address t
  | _ => None
  end.

Fixpoint find_object (h : list (nat * object)) (l : nat) : option object :=
  match h with
  | [] => None
  | (l', o) :: rest => if Nat.eqb l l' then Some o else find_object rest l
  end.

Fixpoint store_object (h : list (nat * object)) (l : nat) (o : object)
    : list (nat * object) :=
  match h with
  | [] => [(l, o)]
  | (l', o') :: rest =>
      if Nat.eqb l l' then (l, o) :: rest
      else (l', o') :: store_object rest l o
  end.

Fixpoint find_property (ps : list (string * value)) (k : string)
    : option value :=
  match ps with
  | [] => None
  | (k', v) :: rest => if String.eqb k k' then Some v else find_property rest k
  end.

Fixpoint store_property (ps : list (string * value)) (k : string)
    (v : value) : list (string * value) :=
  match ps with
  | [] => [(k, v)]
  | (k', v') :: rest =>
      if String.eqb k k' then (k, v) :: rest
      else (k', v') :: store_property rest k v
  end.

Definition has_property (ps : list (string * value)) (k : string) : bool :=
  match find_property ps k with
  | Some _ => true
  | None => false
  end.

Definition remove_property (ps : list (string * value)) (k : string)
    : list (string * value) :=
  filter (fun p => negb (String.eqb k (fst p))) ps.

Definition with_properties (o : object) (ps : list (string * value))
    : object :=
  {| properties := ps; proto := proto o; extensible := extensible o;
     name := name o; returns := returns o |}.

Definition with_heap (w : world) (h : list (nat * object)) : world :=
  {| heap := h; printed := printed w |}.

Definition not_an_object {A} (w : world) : outcome A * world :=
  (Throw (TypeError "target is not an object"), w).

(** Run [f] on the object a value refers to. *)
Definition on_object {A} (t : value)
    (f : nat -> object -> world -> outcome A * world) : op world A :=
  fun w =>
    match address t with
    | Some l =>
        match find_object (heap w) l with
        | Some o => f l o w
        | None => not_an_object w
        end
    | None => not_an_object w
    end.

Definition get (t : value) (prop : key) (receiver : value)
    : op world value :=
  on_object t (fun _ o w =>
    match prop with
    | KStr "name" =>
        match name o with
        | Some n => (Ok (VStr n), w)
        | None => (Ok (match find_property (properties o) "name" with
                       | Some v => v
                       | None => VUndefined
                       end), w)
        end
    | KStr k => (Ok (match find_property (properties o) k with
                     | Some v => v
                     | None => VUndefined
                     end), w)
    | KSym _ _ => (Ok VUndefined, w)
    end).

Definition set (t : value) (prop : key) (v receiver : value)
    : op world bool :=
  on_object t (fun l o w =>
    match prop with
    | KStr k =>
        if extensible o || has_property (properties o) k then
          (Ok true,
           with_heap w (store_object (heap w) l
             (with_properties o (store_property (properties o) k v))))
        else (Ok false, w)
    | KSym _ _ => (Ok false, w)
    end).

Definition has (t : value) (prop : key) : op world bool :=
  on_object t (fun _ o w =>
    match prop with
    | KStr k => (Ok (has_property (properties o) k), w)
    | KSym _ _ => (Ok false, w)
    end).

Definition deleteProperty (t : value) (prop : key) : op world bool :=
  on_object t (fun l o w =>
    match prop with
    | KStr k =>
        (Ok true,
         with_heap w (store_object (heap w) l
           (with_properties o (remove_property (properties o) k))))
    | KSym _ _ => (Ok true, w)
    end).

(** Only the [value] field of a descriptor is honoured. *)
Definition defineProperty (t : value) (prop : key) (attributes : value)
    : op world bool :=
  fun w =>
    match get attributes (KStr "value") attributes w with
    | (Ok v, w1) => set t prop v t w1
    | (Throw e, w1) => (Throw e, w1)
    end.

Definition getPrototypeOf (t : value) : op world value :=
  on_object t (fun _ o w => (Ok (proto o), w)).

Definition setPrototypeOf (t p : value) : op world bool :=
  on_object t (fun l o w =>
    if extensible o then
      (Ok true,
       with_heap w (store_object (heap w) l
         {| properties := properties o; proto := p;
            extensible := extensible o; name := name o;
            returns := returns o |}))
    else (Ok false, w)).

Definition preventExtensions (t : value) : op world bool :=
  on_object t (fun l o w =>
    (Ok true,
     with_heap w (store_object (heap w) l
       {| properties := properties o; proto := proto o;
          extensible := false; name := name o; returns := returns o |}))).

Definition isExtensible (t : value) : op world bool :=
  on_object t (fun _ o w => (Ok (extensible o), w)).

Definition call (target thisArg args : value) : op world value :=
  if callable target then on_object target (fun _ o w => (Ok (returns o), w))
  else fun w => (Throw (TypeError "target is not a function"), w).

Definition construct (target args newTarget : value) : op world value :=
  call target VUndefined args.

Definition quote : string := String (ascii_of_nat 34) EmptyString.

Definition quoted (s : string) : string := quote ++ s ++ quote.

(** [JSON.stringify]: [stack] holds the objects being serialized. *)
Fixpoint serialize (fuel : nat) (h : list (nat * object)) (stack : list nat)
    (v : value) : outcome (option string) :=
  match fuel with
  | O => Throw (TypeError "Maximum call stack size exceeded")
  | S fuel' =>
      match v with
      | VUndefined | VSym _ _ | VFun _ | VFunProxy _ _ => Ok None
      | VNull => Ok (Some "null")
      | VBool b => Ok (Some (bool_text b))
      | VNum r => Ok (Some r)
      | VStr s => Ok (Some (quoted s))
      | VBigInt _ => Throw (TypeError "Do not know how to serialize a BigInt")
      | VProxy t _ => serialize fuel' h stack t
      | VArr elems =>
          (fix items (l : list value) (acc : list string) {struct l} :=
             match l with
             | [] => Ok (Some ("[" ++ join "," (rev acc) ++ "]"))
             | x :: rest =>
                 match serialize fuel' h stack x with
                 | Ok (Some s) => items rest (s :: acc)
                 | Ok None => items rest ("null" :: acc)
                 | Throw e => Throw e
                 end
             end) elems []
      | VObj l =>
          if existsb (Nat.eqb l) stack then
            Throw (TypeError "Converting circular structure to JSON")
          else
            match find_object h l with
            | None => Ok (Some "{}")
            | Some o =>
                (fix fields (ps : list (string * value)) (acc : list string)
                   {struct ps} :=
                   match ps with
                   | [] => Ok (Some ("{" ++ join "," (rev acc) ++ "}"))
                   | (k, x) :: rest =>
                       match serialize fuel' h (l :: stack) x with
                       | Ok (Some s) =>
                           fields rest ((quoted k ++ ":" ++ s) :: acc)
                       | Ok None => fields rest acc
                       | Throw e => Throw e
                       end
                   end) (properties o) []
            end
      end
  end.

Definition stringify (v : value) : op world (option string) :=
  fun w => (serialize (S (S (length (heap w)))) (heap w) [] v, w).

Definition toString (v : value) : op world string :=
  fun w => (Ok (if callable v then "function () { [native code] }"
                else "[object Object]"), w).

Definition print (line : string) : op world value :=
  fun w => (Ok VUndefined,
            {| heap := heap w; printed := (printed w ++ [line])%list |}).

Definition console_method (method : string) : option (string -> op world value) :=
  if existsb (String.eqb method) ["log"; "info"; "warn"; "error"; "debug"]
  then Some print else None.

(** Every property of this heap is a data property that is writable and
    configurable; the name of a function is configurable and not
    writable. *)
Definition own_property (t : value) (prop : key)
    : op world (option descriptor) :=
  on_object t (fun _ o w =>
    match prop with
    | KStr "name" =>
        match name o with
        | Some n => (Ok (Some (DataProperty (VStr n) false true)), w)
        | None =>
            (Ok (option_map (fun v => DataProperty v true true)
                   (find_property (properties o) "name")), w)
        end
    | KStr k =>
        (Ok (option_map (fun v => DataProperty v true true)
               (find_property (properties o) k)), w)
    | KSym _ _ => (Ok None, w)
    end).

Definition engine : Engine world := {| GetOwnProperty := own_property |}.

Definition runtime : Platform world :=
  {| Reflect_get := get;
     Reflect_set := set;
     Reflect_has := has;
     Reflect_deleteProperty := deleteProperty;
     Reflect_defineProperty := defineProperty;
     Reflect_getPrototypeOf := getPrototypeOf;
     Reflect_setPrototypeOf := setPrototypeOf;
     Reflect_preventExtensions := preventExtensions;
     Reflect_isExtensible := isExtensible;
     Reflect_apply := call;
     Reflect_construct := construct;
     JSON_stringify := stringify;
     ToString_object := toString;
     console := console_method |}.

Definition plain (ps : list (string * value)) : object :=
  {| properties := ps; proto := VNull; extensible := true; name := None;
     returns := VUndefined |}.

Definition function (n : string) (r : value) : object :=
  {| properties := []; proto := VNull; extensible := true; name := Some n;
     returns := r |}.

(** A browser-like environment: [env] is object 1. *)
Definition env : value := VObj 1.
Definition navigator : value := VObj 2.

Definition browser : world :=
  {| heap :=
       [ (1, plain [("navigator", VObj 2); ("console", VObj 3);
                    ("self", VObj 1); ("addEventListener", VFun 4);
                    ("createElement", VFun 5); ("Image", VFun 7);
                    ("consoleData", VObj 9); ("performance", VObj 10)]);
         (2, plain [("userAgent", VStr "Mozilla/5.0");
                    ("platform", VStr "Linux"); ("language", VStr "en-US")]);
         (3, plain [("log", VFun 6)]);
         (4, function "addEventListener" VUndefined);
         (5, function "createElement" (VObj 8));
         (6, function "log" VUndefined);
         (7, function "Image" (VObj 8));
         (8, plain [("tagName", VStr "IMG")]);
         (9, plain [("entries", VObj 8)]);
         (10, plain [("timeOrigin", VBigInt 1700000000000)]) ];
     printed := [] |}.

Definition options_for (root : string) : options world :=
  {| logLevel := LevelName "info";
     watchedProps := None;
     contextName := root;
     type := "object";
     bindThis := false;
     beforeGet := None; afterGet := None;
     beforeSet := None; afterSet := None;
     beforeApply := None; afterApply := None |}.

Definition watching (root : string) (props : list key) : options world :=
  {| logLevel := LevelName "info";
     watchedProps := Some props;
     contextName := root;
     type := "object";
     bindThis := false;
     beforeGet := None; afterGet := None;
     beforeSet := None; afterSet := None;
     beforeApply := None; afterApply := None |}.

Definition binding (root : string) : options world :=
  {| logLevel := LevelName "info";
     watchedProps := None;
     contextName := root;
     type := "method";
     bindThis := true;
     beforeGet := None; afterGet := None;
     beforeSet := None; afterSet := None;
     beforeApply := None; afterApply := None |}.

(** The runs the examples look at. *)

Definition watching_userAgent : options world :=
  watching "env" [KStr "userAgent"].

(** [env.console.log], the second read. *)
Definition read_console_log : outcome value * world * list action :=
  get_trap runtime (options_for "env") "env.console" (VObj 3) (KStr "log")
    (VProxy (VObj 3) "env.console") browser.

(** [new Universal_proxy(env, {contextName: 'env'}).navigator.language] *)
Definition read_navigator_language : outcome value * world * list action :=
  (spy <- Universal_proxy (options_for "env") env ;;
   read_chain runtime engine (options_for "env") spy
     [KStr "navigator"; KStr "language"]) browser.

(** [createElement.call(receiver, 'img')] with [bindThis] set. *)
Definition bound_call : outcome value * world * list action :=
  apply_trap runtime (binding "createElement") "createElement" (VFun 5)
    navigator (VArr [VStr "img"]) browser.

(** [env.addEventListener('click', listener)]. *)
Definition listen_click : outcome value * world * list action :=
  apply_trap runtime (options_for "env") "env.addEventListener" (VFun 4)
    (VProxy env "env") (VArr [VStr "click"; VFun 6]) browser.

(** [new env.Image()] *)
Definition new_image : outcome value * world * list action :=
  construct_trap runtime (options_for "env") "env.Image" (VFun 7) (VArr [])
    (VFunProxy (VFun 7) "env.Image") browser.

(** [env.createElement('img')] *)
Definition create_element : outcome value * world * list action :=
  apply_trap runtime (options_for "env") "env.createElement" (VFun 5)
    (VProxy env "env") (VArr [VStr "img"]) browser.

(** [Object.setPrototypeOf(wrapper, null)]. *)
Definition clear_prototype : outcome bool * world * list action :=
  setPrototypeOf_trap runtime (options_for "env") "env.navigator" navigator
    VNull browser.

End Env.

(** ** A runtime in which nothing throws

    Every object is empty and frozen, every function returns [undefined],
    and the console discards its lines. *)
Module Still.

Definition give {A : Type} (a : A) : op unit A := fun w => (Ok a, w).

Definition runtime : Platform unit :=
  {| Reflect_get := fun _ _ _ => give VUndefined;
     Reflect_set := fun _ _ _ _ => give false;
     Reflect_has := fun _ _ => give false;
     Reflect_deleteProperty := fun _ _ => give true;
     Reflect_defineProperty := fun _ _ _ => give false;
     Reflect_getPrototypeOf := fun _ => give VNull;
     Reflect_setPrototypeOf := fun _ _ => give false;
     Reflect_preventExtensions := fun _ => give true;
     Reflect_isExtensible := fun _ => give false;
     Reflect_apply := fun _ _ _ => give VUndefined;
     Reflect_construct := fun _ _ _ => give (VObj 0);
     JSON_stringify := fun _ => give (Some "{}");
     ToString_object := fun _ => give "[object Object]";
     console := fun _ => Some (fun _ => give VUndefined) |}.

End Still.

(** ** More vocabulary for traces and options *)

Definition hook_id_eqb (a b : hook_id) : bool :=
  match a, b with
  | BeforeGet, BeforeGet | AfterGet, AfterGet | BeforeSet, BeforeSet
  | AfterSet, AfterSet | BeforeApply, BeforeApply | AfterApply, AfterApply =>
      true
  | _, _ => false
  end.

(** A call that is not a hook call, or a call of one of the hooks in
    [allowed]. *)
Definition only_hooks (allowed : list hook_id) (a : action) : bool :=
  match a with
  | AHook h _ _ _ => existsb (hook_id_eqb h) allowed
  | _ => true
  end.

(** The renderings and the sink. *)
Definition is_rendering (a : action) : bool :=
  match a with
  | AStringify _ | AToString _ | ALog _ => true
  | _ => false
  end.

(** The member reads of the module's own code: [fn.name], [target.name]
    and [finalArgs[0]]. *)
Definition is_member (a : action) : bool :=
  match a with
  | AMember _ _ => true
  | _ => false
  end.

Definition member_reads (tr : list action) : list action :=
  filter is_member tr.

Definition is_stringify (a : action) : bool :=
  match a with
  | AStringify _ => true
  | _ => false
  end.

(** The options with another [logLevel]. *)
Definition at_level {W : Type} (level : log_level W) (self : options W)
    : options W :=
  {| logLevel := level;
     watchedProps := watchedProps self;
     contextName := contextName self;
     type := type self;
     bindThis := bindThis self;
     beforeGet := beforeGet self; afterGet := afterGet self;
     beforeSet := beforeSet self; afterSet := afterSet self;
     beforeApply := beforeApply self; afterApply := afterApply self |}.

(** ** More cases for the browser-like environment

    Options and runtimes in which a hook refuses or replaces a value, the
    sink is a function, the console lacks a method or the target is gone. *)
Module Cases.

Definition refused : exn := Thrown (VStr "refused").

Definition refuse {A : Type} : op Env.world A := fun w => (Throw refused, w).

(** Every before-hook refuses. *)
Definition vetoing : options Env.world :=
  {| logLevel := LevelName "info";
     watchedProps := None;
     contextName := "env";
     type := "object";
     bindThis := false;
     beforeGet := Some (fun _ _ => refuse); afterGet := None;
     beforeSet := Some (fun _ _ _ => refuse); afterSet := None;
     beforeApply := Some (fun _ _ => refuse); afterApply := None |}.

(** The before-write hook replaces every value by [masked]; the after-write
    hook returns a value nobody looks at. *)
Definition masking : options Env.world :=
  {| logLevel := LevelName "info";
     watchedProps := None;
     contextName := "env";
     type := "object";
     bindThis := false;
     beforeGet := None; afterGet := None;
     beforeSet := Some (fun _ _ _ w => (Ok (VStr "masked"), w));
     afterSet := Some (fun _ _ _ w => (Ok (VBool false), w));
     beforeApply := None; afterApply := None |}.

(** A sink function that throws. *)
Definition sink_down : options Env.world :=
  at_level (LevelFn (fun _ => refuse)) (Env.options_for "env").

(** A sink function that keeps the line and returns a value. *)
Definition collecting : options Env.world :=
  at_level (LevelFn (fun line w => (Ok (VNum "1"), snd (Env.print line w))))
    (Env.options_for "env").

(** A level the console has no method for. *)
Definition verbose : options Env.world :=
  at_level (LevelName "verbose") (Env.options_for "env").

(** The runtime of [Env] with a console that has no method at all. *)
Definition mute : Platform Env.world :=
  {| Reflect_get := Env.get;
     Reflect_set := Env.set;
     Reflect_has := Env.has;
     Reflect_deleteProperty := Env.deleteProperty;
     Reflect_defineProperty := Env.defineProperty;
     Reflect_getPrototypeOf := Env.getPrototypeOf;
     Reflect_setPrototypeOf := Env.setPrototypeOf;
     Reflect_preventExtensions := Env.preventExtensions;
     Reflect_isExtensible := Env.isExtensible;
     Reflect_apply := Env.call;
     Reflect_construct := Env.construct;
     JSON_stringify := Env.stringify;
     ToString_object := Env.toString;
     console := fun _ => None |}.

(** A reference the heap does not hold, like a revoked proxy: every
    operation on it throws. *)
Definition gone : value := VObj 99.

(** The runtime in which nothing throws, with every function named
    [addEventListener]. *)
Definition listening : Platform unit :=
  {| Reflect_get := fun _ k _ =>
       Still.give (match k with
                   | KStr "name" => VStr "addEventListener"
                   | _ => VUndefined
                   end);
     Reflect_set := fun _ _ _ _ => Still.give false;
     Reflect_has := fun _ _ => Still.give false;
     Reflect_deleteProperty := fun _ _ => Still.give true;
     Reflect_defineProperty := fun _ _ _ => Still.give false;
     Reflect_getPrototypeOf := fun _ => Still.give VNull;
     Reflect_setPrototypeOf := fun _ _ => Still.give false;
     Reflect_preventExtensions := fun _ => Still.give true;
     Reflect_isExtensible := fun _ => Still.give false;
     Reflect_apply := fun _ _ _ => Still.give VUndefined;
     Reflect_construct := fun _ _ _ => Still.give (VObj 0);
     JSON_stringify := fun _ => Still.give (Some "{}");
     ToString_object := fun _ => Still.give "[object Object]";
     console := fun _ => Some (fun _ => Still.give VUndefined) |}.

(** The receiver of the examples: the wrapper of [navigator]. *)
Definition spy : value := VProxy Env.navigator "env.navigator".

(** [spy.platform = 'x'] with the masking hooks. *)
Definition masked_write : outcome bool * Env.world * list action :=
  set_trap Env.runtime masking "env.navigator" Env.navigator
    (KStr "platform") (VStr "x") spy Env.browser.

(** [spy.origin = performance], an object that holds a big integer. *)
Definition write_big : outcome bool * Env.world * list action :=
  set_trap Env.runtime (Env.options_for "env") "env.navigator" Env.navigator
    (KStr "origin") (VObj 10) spy Env.browser.

(** The world after that write. *)
Definition written : Env.world :=
  snd (Env.set Env.navigator (KStr "origin") (VObj 10) spy Env.browser).

(** The world after a line went to the console. *)
Definition printed_line (line : string) : Env.world :=
  snd (Env.print line Env.browser).

(** ['userAgent' in spy] *)
Definition has_userAgent : outcome bool * Env.world * list action :=
  has_trap Env.runtime (Env.options_for "env") "env.navigator" Env.navigator
    (KStr "userAgent") Env.browser.

(** [env.navigator], read through the wrapper of [env]. *)
Definition read_navigator : outcome value * Env.world * list action :=
  get_trap Env.runtime (Env.options_for "env") "env" Env.env
    (KStr "navigator") (VProxy Env.env "env") Env.browser.

(** [env.navigator], read on the wrapper of [env]: the trap, then the
    engine's check. *)
Definition read_navigator_through : outcome value * Env.world * list action :=
  read Env.runtime Env.engine (Env.options_for "env") (VProxy Env.env "env")
    (KStr "navigator") Env.browser.

(** A heap three objects deep: [env.screen.orientation.type]. *)
Definition nested : Env.world :=
  {| Env.heap :=
       [ (1, Env.plain [("screen", VObj 2)]);
         (2, Env.plain [("orientation", VObj 3); ("width", VNum "1920")]);
         (3, Env.plain [("type", VStr "landscape-primary")]) ];
     Env.printed := [] |}.

(** [env.screen.orientation], two reads on the wrapper of [env]. *)
Definition read_screen_orientation
    : outcome value * Env.world * list action :=
  read_chain Env.runtime Env.engine (Env.options_for "env")
    (VProxy Env.env "env") [KStr "screen"; KStr "orientation"] nested.

(** The engine of the same heap once every object in it has been frozen:
    every property is a data property, neither writable nor
    configurable. *)
Definition frozen_property (t : value) (prop : key)
    : op Env.world (option descriptor) :=
  Env.on_object t (fun _ o w =>
    match prop with
    | KStr k =>
        (Ok (option_map (fun v => DataProperty v false false)
               (Env.find_property (Env.properties o) k)), w)
    | KSym _ _ => (Ok None, w)
    end).

Definition frozen : Engine Env.world := {| GetOwnProperty := frozen_property |}.

(** [env.navigator] and [navigator.language], read on wrappers of the
    frozen objects. *)
Definition read_frozen_navigator : outcome value * Env.world * list action :=
  read Env.runtime frozen (Env.options_for "env") (VProxy Env.env "env")
    (KStr "navigator") Env.browser.

Definition read_frozen_language : outcome value * Env.world * list action :=
  read Env.runtime frozen (Env.options_for "env") spy (KStr "language")
    Env.browser.

End Cases.

(** * Properties *)

(** ** Strings and traces *)

Lemma append_assoc (a b c : string) : (a ++ b) ++ c = a ++ (b ++ c).
Proof. induction a as [|ch a IH]; simpl; [reflexivity | now rewrite IH]. Qed.

Lemma prefix_append (a b : string) : String.prefix a (a ++ b) = true.
Proof.
  induction a as [|ch a IH]; simpl.
  - now destruct b.
  - destruct (ascii_dec ch ch) as [_|ne]; [exact IH | now elim ne].
Qed.

Lemma prefix_weaken (n a b : string) :
  String.prefix n a = true -> String.prefix n (a ++ b) = true.
Proof.
  revert a; induction n as [|ch n IH]; intros a H.
  - now destruct (a ++ b).
  - destruct a as [|ch' a]; simpl in *; [discriminate|].
    destruct (ascii_dec ch ch'); [now apply IH | discriminate].
Qed.

Lemma includes_weaken (n a b : string) :
  includes n a = true -> includes n (a ++ b) = true.
Proof.
  induction a as [|ch a IH]; intros H.
  - simpl in H. rewrite orb_false_r in H.
    destruct n; [|discriminate]. destruct b; reflexivity.
  - simpl in H. apply orb_true_iff in H. destruct H as [H|H].
    + change (String ch a ++ b) with (String ch (a ++ b)).
      cbn [includes]. apply orb_true_iff. left.
      exact (prefix_weaken n (String ch a) b H).
    + change (String ch a ++ b) with (String ch (a ++ b)).
      cbn [includes]. apply orb_true_iff. right. now apply IH.
Qed.

(** A path that is free of a word has only prefixes free of it. *)
Lemma includes_prefix_free (n a b : string) :
  includes n (a ++ b) = false -> includes n a = false.
Proof.
  intros H. destruct (includes n a) eqn:E; [|reflexivity].
  now rewrite (includes_weaken n a b E) in H.
Qed.

Lemma extend_path_prefix (path : string) (props : list key) :
  exists suffix, extend_path path props = path ++ suffix.
Proof.
  revert path; induction props as [|k props IH]; intros path;
    cbn [extend_path].
  - exists "". induction path; simpl; congruence.
  - destruct (IH (path ++ "." ++ String_key k)) as [s Hs].
    exists (("." ++ String_key k) ++ s). rewrite Hs.
    now rewrite append_assoc.
Qed.

Lemma steps_app (a b : list action) : steps (a ++ b) = (steps a ++ steps b)%list.
Proof.
  induction a as [|x a IH]; simpl; [reflexivity|].
  destruct (step_of x); simpl; now rewrite IH.
Qed.

Lemma log_lines_app (a b : list action) :
  log_lines (a ++ b) = (log_lines a ++ log_lines b)%list.
Proof.
  induction a as [|x a IH]; simpl; [reflexivity|].
  destruct x; simpl; now rewrite IH.
Qed.

(** ** The monad *)

Section Laws.
Context {W : Type}.

Lemma bind_ok {A B} (m : M W A) (f : A -> M W B) w b w' tr :
  bind m f w = (Ok b, w', tr) ->
  exists a w1 t1 t2,
    m w = (Ok a, w1, t1) /\ f a w1 = (Ok b, w', t2) /\ tr = (t1 ++ t2)%list.
Proof.
  unfold bind. destruct (m w) as [[[a|e] w1] t1]; [|discriminate].
  destruct (f a w1) as [[o w2] t2] eqn:E. intros H. inversion H; subst.
  now exists a, w1, t1, t2.
Qed.

Lemma bind_run {A B} (m : M W A) (f : A -> M W B) w a w1 t1 :
  m w = (Ok a, w1, t1) ->
  bind m f w =
    (result_of (f a w1), world_of (f a w1), (t1 ++ trace_of (f a w1))%list).
Proof.
  intros H. unfold bind. rewrite H. now destruct (f a w1) as [[o w2] t2].
Qed.

Lemma bind_throw {A B} (m : M W A) (f : A -> M W B) w e w1 t1 :
  m w = (Throw e, w1, t1) -> bind m f w = (Throw e, w1, t1).
Proof. intros H. unfold bind. now rewrite H. Qed.

Lemma bind_result_ok {A B} (m : M W A) (f : A -> M W B) w a w1 t1 :
  m w = (Ok a, w1, t1) -> result_of (bind m f w) = result_of (f a w1).
Proof. intros H. now rewrite (bind_run _ _ _ _ _ _ H). Qed.

Lemma bind_result_throw {A B} (m : M W A) (f : A -> M W B) w e w1 t1 :
  m w = (Throw e, w1, t1) -> result_of (bind m f w) = Throw e.
Proof. intros H. now rewrite (bind_throw _ _ _ _ _ _ H). Qed.

Lemma ret_ok {A} (a b : A) (w w' : W) tr :
  ret a w = (Ok b, w', tr) -> b = a /\ w' = w /\ tr = [].
Proof. unfold ret. intros H. now inversion H. Qed.

Lemma perform_ok {A} (x : action) (f : op W A) w a w' tr :
  perform x f w = (Ok a, w', tr) -> f w = (Ok a, w') /\ tr = [x].
Proof.
  unfold perform. destruct (f w) as [o w1]. intros H. now inversion H.
Qed.

Lemma perform_trace {A} (x : action) (f : op W A) w :
  trace_of (perform x f w) = [x].
Proof. unfold perform. now destruct (f w). Qed.
End Laws.

(** Take a successful run of a sequence apart. *)
Tactic Notation "split_run" hyp(H) "as" ident(H1) ident(H2) :=
  let a := fresh "x" in
  let w1 := fresh "w" in
  let t1 := fresh "tr" in
  let t2 := fresh "tr" in
  let E := fresh "E" in
  apply bind_ok in H; destruct H as (a & w1 & t1 & t2 & H1 & H2 & E);
  subst.

Ltac end_run H :=
  let E1 := fresh in
  let E2 := fresh in
  let E3 := fresh in
  apply ret_ok in H; destruct H as (E1 & E2 & E3); subst.

Section Building_blocks.
Context {W : Type}.
Variable P : Platform W.
Variable self : options W.

Lemma optional_call_ok h path prop arg (f : option (op W value)) w v w' tr :
  optional_call h path prop arg f w = (Ok v, w', tr) ->
  match f with
  | Some g => g w = (Ok v, w') /\ tr = [AHook h path prop arg]
  | None => v = VUndefined /\ w' = w /\ tr = []
  end.
Proof.
  destruct f as [g|]; simpl; intros H.
  - now apply perform_ok in H.
  - now apply ret_ok in H.
Qed.

(** The runtime's help in rendering a value is not a step of the trap. *)
Lemma ToString_quiet v (w : W) :
  steps (trace_of (ToString P v w)) = [] /\
  log_lines (trace_of (ToString P v w)) = [] /\
  existsb is_hook (trace_of (ToString P v w)) = false.
Proof.
  destruct v; simpl; try (repeat split; reflexivity);
    unfold perform; destruct (ToString_object P _ w); repeat split; reflexivity.
Qed.

Lemma String_quiet v (w : W) :
  steps (trace_of (String_ P v w)) = [] /\
  log_lines (trace_of (String_ P v w)) = [] /\
  existsb is_hook (trace_of (String_ P v w)) = false.
Proof.
  destruct v; try apply ToString_quiet. repeat split; reflexivity.
Qed.

Lemma safeStringify_quiet v (w : W) :
  steps (trace_of (safeStringify P v w)) = [] /\
  log_lines (trace_of (safeStringify P v w)) = [] /\
  existsb is_hook (trace_of (safeStringify P v w)) = false.
Proof.
  unfold safeStringify.
  assert (Q : forall u,
    steps (trace_of ((s <- String_ P u ;; ret (Some s)) w)) = [] /\
    log_lines (trace_of ((s <- String_ P u ;; ret (Some s)) w)) = [] /\
    existsb is_hook (trace_of ((s <- String_ P u ;; ret (Some s)) w)) = false).
  { intros u. pose proof (String_quiet u w) as Hq. unfold bind.
    destruct (String_ P u w) as [[[s|e] w1] t1]; simpl in *;
      [rewrite app_nil_r|]; exact Hq. }
  destruct (nullish v); [apply Q|].
  destruct (type_tag_eqb (typeof v) TObject); [|apply Q].
  unfold perform. destruct (JSON_stringify P v w). repeat split; reflexivity.
Qed.

Lemma member_quiet o prop (w : W) :
  steps (trace_of (member P o prop w)) = [] /\
  log_lines (trace_of (member P o prop w)) = [] /\
  existsb is_hook (trace_of (member P o prop w)) = false.
Proof.
  unfold member, perform. destruct (Reflect_get P o prop o w).
  repeat split; reflexivity.
Qed.

Lemma first_of_quiet args (w : W) :
  steps (trace_of (first_of P args w)) = [] /\
  log_lines (trace_of (first_of P args w)) = [] /\
  existsb is_hook (trace_of (first_of P args w)) = false.
Proof.
  destruct args; try apply member_quiet.
  destruct elems; repeat split; reflexivity.
Qed.

(** A successful [log] is one call of the sink with the joined line. *)
Lemma log_ok messages (w : W) u w' tr :
  log P self messages w = (Ok u, w', tr) -> tr = [ALog (join " " messages)].
Proof.
  unfold log.
  assert (Q : forall f : string -> op W value,
    (perform (ALog (join " " messages)) (f (join " " messages)) ;;; ret tt) w
      = (Ok u, w', tr) -> tr = [ALog (join " " messages)]).
  { intros f H. split_run H as Sink Rest. apply perform_ok in Sink.
    end_run Rest. now destruct Sink as [_ ->]. }
  destruct (logLevel self) as [name|f]; [|apply Q].
  destruct (console P name) as [f|]; [apply Q|].
  destruct (console P "log") as [f|]; [apply Q|]. discriminate.
Qed.
End Building_blocks.

(** ** Calls that are not operations on the target *)

Section Auxiliary.
Context {W : Type}.
Variable P : Platform W.
Variable self : options W.

Lemma bind_trace {A B} (m : M W A) (f : A -> M W B) (w : W) :
  trace_of (bind m f w) =
    (trace_of (m w) ++
     match m w with
     | (Ok a, w1, _) => trace_of (f a w1)
     | (Throw _, _, _) => []
     end)%list.
Proof.
  unfold bind. destruct (m w) as [[[a|e] w1] t1]; simpl.
  - now destruct (f a w1) as [[o w2] t2].
  - now rewrite app_nil_r.
Qed.

Lemma bind_all (Q : action -> bool) {A B} (m : M W A) (f : A -> M W B)
    (w : W) :
  forallb Q (trace_of (m w)) = true ->
  (forall a w1, forallb Q (trace_of (f a w1)) = true) ->
  forallb Q (trace_of (bind m f w)) = true.
Proof.
  intros Hm Hf. rewrite bind_trace, forallb_app, Hm. simpl.
  destruct (m w) as [[[a|e] w1] t1]; [apply Hf | reflexivity].
Qed.

Lemma perform_all (Q : action -> bool) {A} (a : action) (f : op W A) w :
  Q a = true -> forallb Q (trace_of (perform a f w)) = true.
Proof. intros H. rewrite perform_trace. simpl. now rewrite H. Qed.

Lemma optional_call_aux h path prop arg (f : option (op W value)) w :
  forallb auxiliary (trace_of (optional_call h path prop arg f w)) = true.
Proof. destruct f; simpl; [now apply perform_all | reflexivity]. Qed.

Lemma member_aux o prop (w : W) :
  forallb auxiliary (trace_of (member P o prop w)) = true.
Proof. now apply perform_all. Qed.

Lemma first_of_aux args (w : W) :
  forallb auxiliary (trace_of (first_of P args w)) = true.
Proof.
  destruct args; try apply member_aux. destruct elems; reflexivity.
Qed.

Lemma ToString_aux v (w : W) :
  forallb auxiliary (trace_of (ToString P v w)) = true.
Proof. destruct v; simpl; try reflexivity; now apply perform_all. Qed.

Lemma String_aux v (w : W) :
  forallb auxiliary (trace_of (String_ P v w)) = true.
Proof. destruct v; try apply ToString_aux. reflexivity. Qed.

Lemma safeStringify_aux v (w : W) :
  forallb auxiliary (trace_of (safeStringify P v w)) = true.
Proof.
  unfold safeStringify.
  destruct (nullish v);
    [|destruct (type_tag_eqb (typeof v) TObject); [now apply perform_all|]];
    (apply bind_all; [apply String_aux | reflexivity]).
Qed.

Lemma log_aux messages (w : W) :
  forallb auxiliary (trace_of (log P self messages w)) = true.
Proof.
  unfold log.
  destruct (logLevel self) as [name|f];
    [destruct (console P name);
      [|destruct (console P "log"); [|reflexivity]]|];
    (apply bind_all; [now apply perform_all | reflexivity]).
Qed.
End Auxiliary.

(** ** Running a trap forward *)

Section Forward.
Context {W : Type}.

Lemma bind_ret {A B} (a : A) (f : A -> M W B) (w : W) :
  bind (ret a) f w = f a w.
Proof. unfold bind, ret. now destruct (f a w) as [[o w2] t2]. Qed.

Lemma perform_run {A} (x : action) (g : op W A) (w : W) o w1 :
  g w = (o, w1) -> perform x g w = (o, w1, [x]).
Proof. intros H. unfold perform. now rewrite H. Qed.

Lemma lines_of_run {A} (m : M W A) (w : W) o w' tr :
  log_lines (trace_of (m w)) = [] -> m w = (o, w', tr) -> log_lines tr = [].
Proof. intros H E. now rewrite E in H. Qed.

Lemma optional_call_lines h path prop arg (f : option (op W value)) (w : W) :
  log_lines (trace_of (optional_call h path prop arg f w)) = [].
Proof.
  destruct f; simpl; [|reflexivity]. now rewrite perform_trace.
Qed.
End Forward.

(** Replace the first part of a sequence by its known run. *)
Ltac run H :=
  rewrite (bind_run _ _ _ _ _ _ H);
  cbn [result_of world_of trace_of fst snd].

(** ** The serializer *)

(** C4: [safeStringify] gives the literal text of a nullish value; hands an
    object to [JSON.stringify] and returns or throws exactly what that call
    returns or throws, so a value that cannot be serialized never yields a
    placeholder; and renders every other primitive, big integers and symbols
    included, with the plain string coercion, without throwing. *)
Theorem safeStringify_by_kind :
  forall (W : Type) (P : Platform W) (v : value) (w : W),
    (v = VNull -> safeStringify P v w = (Ok (Some "null"), w, [])) /\
    (v = VUndefined -> safeStringify P v w = (Ok (Some "undefined"), w, [])) /\
    (nullish v = false -> typeof v = TObject ->
       safeStringify P v w =
         (fst (JSON_stringify P v w), snd (JSON_stringify P v w),
          [AStringify v]) /\
       (forall e w1, JSON_stringify P v w = (Throw e, w1) ->
          result_of (safeStringify P v w) = Throw e)) /\
    (nullish v = false -> is_primitive v = true ->
       exists s, String_ P v w = (Ok s, w, []) /\
                 safeStringify P v w = (Ok (Some s), w, [])) /\
    (forall z, v = VBigInt z ->
       safeStringify P v w = (Ok (Some (decimal z)), w, [])) /\
    (forall id d, v = VSym id d ->
       safeStringify P v w =
         (Ok (Some ("Symbol(" ++ description_text d ++ ")")), w, [])).
Proof.
  intros W P v w. repeat split.
  - intros ->. reflexivity.
  - intros ->. reflexivity.
  - unfold safeStringify. rewrite H, H0. simpl. unfold perform.
    now destruct (JSON_stringify P v w).
  - intros e w1 E. unfold safeStringify. rewrite H, H0. simpl.
    unfold perform. now rewrite E.
  - intros Hn Hp. unfold safeStringify. rewrite Hn.
    destruct v; try discriminate; simpl;
      eexists; split; reflexivity.
  - intros z ->. reflexivity.
  - intros id d ->. reflexivity.
Qed.

(** ** The exempt paths *)

(** C10: the exemption of the read trap is a substring test on the whole
    path.  At every path in which the letters [console] occur anywhere, a
    read is exactly one [Reflect.get]: no hook, no log line, and the value
    comes back as the runtime gave it. *)
Theorem console_substring_read_is_raw :
  forall (W : Type) (P : Platform W) (self : options W) (path : string)
         (t : value) (prop : key) (receiver : value) (w : W),
    includes "console" path = true ->
    get_trap P self path t prop receiver w =
      (fst (Reflect_get P t prop receiver w),
       snd (Reflect_get P t prop receiver w),
       [ARealGet t prop receiver]).
Proof.
  intros W P self path t prop receiver w H. unfold get_trap. rewrite H.
  destruct (not_watched self prop); unfold perform;
    now destruct (Reflect_get P t prop receiver w).
Qed.

(** ** The read trap *)

Lemma truthy_object_is_object (x : value) :
  truthy x && type_tag_eqb (typeof x) TObject = true -> is_object x = true.
Proof. destruct x; simpl; try reflexivity; try discriminate; now rewrite andb_false_r. Qed.

Lemma function_is_object (x : value) :
  type_tag_eqb (typeof x) TFunction = true -> is_object x = true.
Proof. destruct x; simpl; try reflexivity; discriminate. Qed.

(** What the read trap wraps is an object, what it leaves alone is not. *)
Lemma wrapped_read_cases (path : string) (prop : key) (x : value) :
  (is_object x = true /\
   (wrapped_read path prop x = VProxy x (path ++ "." ++ String_key prop) \/
    wrapped_read path prop x = VFunProxy x (path ++ "." ++ String_key prop)))
  \/ (is_primitive x = true /\ wrapped_read path prop x = x).
Proof.
  unfold wrapped_read, is_primitive.
  destruct (truthy x && type_tag_eqb (typeof x) TObject) eqn:E1.
  - left. split; [now apply truthy_object_is_object | now left].
  - destruct (type_tag_eqb (typeof x) TFunction) eqn:E2.
    + left. split; [now apply function_is_object | now right].
    + right. split; [|reflexivity].
      destruct x; simpl in *; try reflexivity; try discriminate;
        destruct (callable x); simpl in *; discriminate.
Qed.

(** The constructor wraps an object at the path [contextName]; a function
    gets the function wrapper only in [method] mode. *)
Lemma Universal_proxy_start {W : Type} (self : options W) (target : value)
    (w : W) :
  is_object target = true ->
  Universal_proxy self target w =
    (Ok (if String.eqb (type self) "method"
            && type_tag_eqb (typeof target) TFunction
         then VFunProxy target (contextName self)
         else VProxy target (contextName self)), w, []).
Proof.
  intros H. unfold Universal_proxy, createFunctionProxy, createProxy, new_Proxy.
  rewrite H. now destruct (String.eqb (type self) "method"
                           && type_tag_eqb (typeof target) TFunction).
Qed.

Section Get.
Context {W : Type}.
Variable P : Platform W.
Variable self : options W.

(** The wrapping step of the read trap cannot fail. *)
Lemma wrapping_step path prop x (w : W) :
  (if truthy x && type_tag_eqb (typeof x) TObject then
     createProxy x (path ++ "." ++ String_key prop)
   else if type_tag_eqb (typeof x) TFunction then
     createFunctionProxy x (path ++ "." ++ String_key prop)
   else ret x) w = (Ok (wrapped_read path prop x), w, []).
Proof.
  unfold wrapped_read, createProxy, createFunctionProxy, new_Proxy.
  destruct (truthy x && type_tag_eqb (typeof x) TObject) eqn:E1.
  - now rewrite (truthy_object_is_object x E1).
  - destruct (type_tag_eqb (typeof x) TFunction) eqn:E2; [|reflexivity].
    now rewrite (function_is_object x E2).
Qed.

(** A read trap that returns has gone through every step once. *)
Lemma get_trap_run path t prop receiver (w : W) v w' tr :
  not_watched self prop = false ->
  includes "console" path = false ->
  get_trap P self path t prop receiver w = (Ok v, w', tr) ->
  exists u w0 t0 x w1 hooked w2 t2 s w3 t3,
    call_beforeGet self path prop w = (Ok u, w0, t0) /\
    Reflect_get P t prop receiver w0 = (Ok x, w1) /\
    call_afterGet self path prop (wrapped_read path prop x) w1
      = (Ok hooked, w2, t2) /\
    v = coalesce hooked (wrapped_read path prop x) /\
    safeStringify P v w2 = (Ok s, w3, t3) /\
    tr = (t0 ++ [ARealGet t prop receiver] ++ t2 ++ t3
          ++ [ALog (get_line path prop s)])%list.
Proof.
  intros Hw Hc H. unfold get_trap in H. rewrite Hw, Hc in H.
  split_run H as Before H. split_run H as Real H.
  apply perform_ok in Real. destruct Real as [Hget ->].
  split_run H as Wrap H. rewrite wrapping_step in Wrap.
  inversion Wrap; subst.
  split_run H as After H. split_run H as Ser H. split_run H as Log H.
  end_run H. apply log_ok in Log. subst.
  do 11 eexists.
  split; [exact Before|]. split; [exact Hget|]. split; [exact After|].
  split; [reflexivity|]. split; [exact Ser|].
  simpl. now rewrite ?app_nil_r.
Qed.
End Get.

Lemma real_operations_app (a b : list action) :
  real_operations (a ++ b) = (real_operations a ++ real_operations b)%list.
Proof. apply filter_app. Qed.

Lemma real_operations_aux (l : list action) :
  forallb auxiliary l = true -> real_operations l = [].
Proof.
  induction l as [|a l IH]; simpl; [reflexivity|].
  intros H. apply andb_true_iff in H. destruct H as [Ha Hl].
  unfold real_operations in *. simpl. rewrite Ha. simpl. now apply IH.
Qed.

Lemma aux_of_run {W A} (m : M W A) (w : W) o w' tr :
  forallb auxiliary (trace_of (m w)) = true -> m w = (o, w', tr) ->
  forallb auxiliary tr = true.
Proof. intros H E. now rewrite E in H. Qed.

(** ** Transitive wrapping *)

Section Chains.
Context {W : Type}.
Variable P : Platform W.
Variable E : Engine W.
Variable self : options W.

(** Without an after-read hook an instrumented read returns what the
    wrapping step made. *)
Lemma get_trap_plain path t prop receiver (w : W) v w' tr :
  afterGet self = None ->
  not_watched self prop = false ->
  includes "console" path = false ->
  get_trap P self path t prop receiver w = (Ok v, w', tr) ->
  exists x, v = wrapped_read path prop x.
Proof.
  intros Hn Hw Hc H.
  destruct (get_trap_run P self path t prop receiver w v w' tr Hw Hc H)
    as (u & w0 & t0 & x & w1 & hooked & w2 & t2 & s & w3 & t3
        & Hb & Hg & Ha & Hv & Hs & Htr).
  exists x. unfold call_afterGet in Ha. rewrite Hn in Ha.
  inversion Ha; subst. reflexivity.
Qed.

Lemma by_engine_ok {A} (f : op W A) (w : W) a w' tr :
  by_engine f w = (Ok a, w', tr) -> f w = (Ok a, w') /\ tr = [].
Proof.
  unfold by_engine. destruct (f w) as [o w1]. intros H. now inversion H.
Qed.

Lemma by_engine_run {A} (f : op W A) (w : W) o w' :
  f w = (o, w') -> by_engine f w = (o, w', []).
Proof. intros H. unfold by_engine. now rewrite H. Qed.

(** A read on a wrapper made by [createProxy] returns exactly when its trap
    returns and the engine accepts the value; the value and the calls are
    the trap's. *)
Lemma read_runs t path prop (w : W) v w' tr :
  read P E self (VProxy t path) prop w = (Ok v, w', tr) <->
  exists w1,
    get_trap P self path t prop (VProxy t path) w = (Ok v, w1, tr) /\
    Get_invariants E t prop v w1 = (Ok tt, w').
Proof.
  cbn [read]. split.
  - intros H. split_run H as Trap H. split_run H as Check H. end_run H.
    apply by_engine_ok in Check. destruct Check as [Check ->].
    match goal with u : unit |- _ => destruct u end.
    eexists. split; [|exact Check].
    now rewrite !app_nil_r.
  - intros (w1 & Ht & Hc). run Ht. run (by_engine_run _ _ _ _ Hc).
    now rewrite !app_nil_r.
Qed.

(** When the trap throws, the read throws the same; when the engine rejects
    the value, the read throws what the engine throws. *)
Lemma read_throws t path prop (w : W) :
  (forall e w1 tr,
     get_trap P self path t prop (VProxy t path) w = (Throw e, w1, tr) ->
     read P E self (VProxy t path) prop w = (Throw e, w1, tr)) /\
  (forall v w1 tr e w2,
     get_trap P self path t prop (VProxy t path) w = (Ok v, w1, tr) ->
     Get_invariants E t prop v w1 = (Throw e, w2) ->
     read P E self (VProxy t path) prop w = (Throw e, w2, tr)).
Proof.
  cbn [read]. split.
  - intros e w1 tr H. exact (bind_throw _ _ _ _ _ _ H).
  - intros v w1 tr e w2 Ht Hc. run Ht.
    rewrite (bind_throw _ _ _ _ _ _ (by_engine_run _ _ _ _ Hc)).
    now rewrite app_nil_r.
Qed.

(** A read on anything but a [createProxy] wrapper shows in the trace. *)
Lemma read_outside_wrapper v prop (w : W) o w' tr :
  (forall t path, v <> VProxy t path) ->
  read P E self v prop w = (o, w', tr) ->
  forallb through_object_wrapper tr = false.
Proof.
  intros Hv H.
  assert (Q : exists t, tr = [ARealGet t prop v]).
  { destruct v; cbn [read] in H; try (now elim (Hv v path));
      unfold perform in H;
      match type of H with
      | (match ?c with _ => _ end) = _ => destruct c
      end; inversion H; eexists; reflexivity. }
  destruct Q as [t ->]. destruct v; try reflexivity. now elim (Hv v path).
Qed.
End Chains.

(** Along a chain of instrumented reads on object wrappers every value is a
    primitive or a wrapper at the dot-joined path. *)
Lemma read_chain_wrapped :
  forall (W : Type) (P : Platform W) (E : Engine W) (self : options W)
         (props : list key) (path : string) (t : value) (w : W) (v : value)
         (w' : W) (tr : list action),
    afterGet self = None ->
    (forall k, In k props -> not_watched self k = false) ->
    includes "console" (extend_path path props) = false ->
    read_chain P E self (VProxy t path) props w = (Ok v, w', tr) ->
    forallb through_object_wrapper tr = true ->
    is_primitive v = true \/
    (exists x, v = VProxy x (extend_path path props)) \/
    (exists x, v = VFunProxy x (extend_path path props)).
Proof.
  intros W P E self props.
  induction props as [|k rest IH]; intros path t w v w' tr Hn Hw Hc H Hthrough.
  - apply ret_ok in H. destruct H as (-> & _ & _). right. left. now exists t.
  - cbn [read_chain] in H. split_run H as First Rest.
    rewrite forallb_app in Hthrough. apply andb_true_iff in Hthrough.
    destruct Hthrough as [_ Hthrough].
    apply read_runs in First. destruct First as (w1 & First & _).
    assert (Hk : not_watched self k = false) by (apply Hw; now left).
    assert (Hp : includes "console" path = false).
    { destruct (extend_path_prefix path (k :: rest)) as [sfx Q].
      rewrite Q in Hc. exact (includes_prefix_free _ _ _ Hc). }
    destruct (get_trap_plain P self path t k _ w _ _ _ Hn Hk Hp First)
      as [y ->].
    cbn [extend_path].
    destruct (wrapped_read_cases path k y) as [[_ [Q|Q]]|[Hprim Q]];
      rewrite Q in *.
    + eapply IH; try eassumption.
      intros k' Hin. apply Hw. now right.
    + destruct rest as [|k' rest'].
      * apply ret_ok in Rest. destruct Rest as (-> & _ & _).
        right. right. now exists y.
      * cbn [read_chain] in Rest. unfold bind in Rest.
        destruct (read P E self _ k' _) as [[o w2] t1] eqn:R.
        apply read_outside_wrapper in R; [|discriminate].
        destruct o.
        -- destruct (read_chain _ _ _ _ _ _) as [[? ?] ?].
           inversion Rest; subst.
           rewrite forallb_app, R in Hthrough. discriminate.
        -- inversion Rest.
    + destruct rest as [|k' rest'].
      * apply ret_ok in Rest. destruct Rest as (-> & _ & _). now left.
      * cbn [read_chain] in Rest. unfold bind in Rest.
        destruct (read P E self y k' _) as [[o w2] t1] eqn:R.
        apply read_outside_wrapper in R;
          [|intros ? ? ->; discriminate].
        destruct o.
        -- destruct (read_chain _ _ _ _ _ _) as [[? ?] ?].
           inversion Rest; subst.
           rewrite forallb_app, R in Hthrough. discriminate.
        -- inversion Rest.
Qed.

(** A wrapper is never the value it wraps. *)
Lemma wrapper_is_not_its_target (x : value) (path : string) :
  SameValue (VProxy x path) x = false /\
  SameValue (VFunProxy x path) x = false.
Proof.
  revert path.
  induction x as [| | | | | | | | | | t IH p | t IH p]; intros q; split;
    try reflexivity.
  - change (SameValue (VProxy t p) t && String.eqb q p = false).
    now rewrite (proj1 (IH p)).
  - change (SameValue (VFunProxy t p) t && String.eqb q p = false).
    now rewrite (proj2 (IH p)).
Qed.

(** What the read trap makes of an object or a function is not that
    value. *)
Lemma wrapped_read_differs (path : string) (prop : key) (x : value) :
  is_object x = true -> SameValue (wrapped_read path prop x) x = false.
Proof.
  intros H.
  destruct (wrapped_read_cases path prop x) as [[_ [Q|Q]]|[Hp _]].
  - rewrite Q. apply wrapper_is_not_its_target.
  - rewrite Q. apply wrapper_is_not_its_target.
  - unfold is_primitive in Hp. rewrite H in Hp. discriminate.
Qed.

(** ** The shape of every trap *)

Lemma actor_prefix (path rest : string) :
  String.prefix (actor path) ("調用者 => [" ++ path ++ "] " ++ rest) = true.
Proof.
  unfold actor.
  replace ("調用者 => [" ++ path ++ "] " ++ rest)
    with (("調用者 => [" ++ path ++ "] ") ++ rest).
  - apply prefix_append.
  - now rewrite !append_assoc.
Qed.

Lemma line_prefixes (path : string) :
  (forall prop s, String.prefix (actor path) (get_line path prop s) = true) /\
  (forall prop s, String.prefix (actor path) (set_line path prop s) = true) /\
  (forall prop b, String.prefix (actor path) (has_line path prop b) = true) /\
  (forall prop b, String.prefix (actor path) (delete_line path prop b) = true) /\
  (forall prop s b,
     String.prefix (actor path) (define_line path prop s b) = true) /\
  (forall s, String.prefix (actor path) (getPrototypeOf_line path s) = true) /\
  (forall s, String.prefix (actor path) (setPrototypeOf_line path s) = true) /\
  String.prefix (actor path) (preventExtensions_line path) = true /\
  (forall b, String.prefix (actor path) (isExtensible_line path b) = true) /\
  (forall n d s, String.prefix (actor path) (apply_line path n d s) = true) /\
  (forall n a s, String.prefix (actor path) (construct_line path n a s) = true).
Proof.
  repeat split; intros;
    unfold get_line, set_line, has_line, delete_line, define_line,
      getPrototypeOf_line, setPrototypeOf_line, preventExtensions_line,
      isExtensible_line, apply_line, construct_line;
    match goal with
    | |- String.prefix _ (_ ++ _ ++ String "]" (String " " ?r) ++ ?q) = true =>
        exact (actor_prefix path (r ++ q))
    | |- String.prefix _ (_ ++ _ ++ String "]" (String " " ?r)) = true =>
        exact (actor_prefix path r)
    end.
Qed.

Section Runs.
Context {W : Type}.
Variable P : Platform W.
Variable self : options W.

Lemma optional_call_steps {A} h path prop arg (hook : option A)
    (g : A -> op W value) (w : W) v w' tr :
  optional_call h path prop arg (option_map g hook) w = (Ok v, w', tr) ->
  steps tr = match step_of (AHook h path prop arg) with
             | Some s => when_set hook s
             | None => []
             end /\
  log_lines tr = [].
Proof.
  intros H. apply optional_call_ok in H. destruct hook as [f|]; simpl in H.
  - destruct H as [_ ->]. now destruct h.
  - destruct H as (_ & _ & ->). now destruct h.
Qed.

Lemma quiet_run {A} (m : M W A) (w : W) o w' tr :
  steps (trace_of (m w)) = [] /\ log_lines (trace_of (m w)) = [] /\
  existsb is_hook (trace_of (m w)) = false ->
  m w = (o, w', tr) ->
  steps tr = [] /\ log_lines tr = [].
Proof. intros (Hs & Hl & _) E. rewrite E in Hs, Hl. now split. Qed.
End Runs.

(** Take a successful run of a trap apart, keeping for each part what it
    contributes to the steps and to the log. *)
Ltac hook_run H :=
  let Hs := fresh "Hsteps" in
  let Hl := fresh "Hlines" in
  apply optional_call_steps in H; destruct H as [Hs Hl]; simpl in Hs.

Ltac crunch :=
  repeat match goal with
  | H : bind _ _ _ = (Ok _, _, _) |- _ =>
      let A := fresh "Part" in
      let B := fresh "Rest" in
      split_run H as A B
  | H : ret _ _ = (Ok _, _, _) |- _ => end_run H
  | H : perform _ _ _ = (Ok _, _, _) |- _ =>
      apply perform_ok in H; destruct H as [H ->]
  | H : log _ _ _ _ = (Ok _, _, _) |- _ => apply log_ok in H; subst
  | H : call_beforeGet _ _ _ _ = (Ok _, _, _) |- _ =>
      unfold call_beforeGet in H; hook_run H
  | H : call_afterGet _ _ _ _ _ = (Ok _, _, _) |- _ =>
      unfold call_afterGet in H; hook_run H
  | H : call_beforeSet _ _ _ _ _ = (Ok _, _, _) |- _ =>
      unfold call_beforeSet in H; hook_run H
  | H : call_afterSet _ _ _ _ _ = (Ok _, _, _) |- _ =>
      unfold call_afterSet in H; hook_run H
  | H : call_beforeApply _ _ _ _ = (Ok _, _, _) |- _ =>
      unfold call_beforeApply in H; hook_run H
  | H : call_afterApply _ _ _ _ = (Ok _, _, _) |- _ =>
      unfold call_afterApply in H; hook_run H
  | H : safeStringify ?P ?v ?w = (Ok _, _, _) |- _ =>
      apply (quiet_run _ _ _ _ _ (safeStringify_quiet P v w)) in H;
      destruct H
  | H : ToString ?P ?v ?w = (Ok _, _, _) |- _ =>
      apply (quiet_run _ _ _ _ _ (ToString_quiet P v w)) in H; destruct H
  | H : member ?P ?o ?k ?w = (Ok _, _, _) |- _ =>
      apply (quiet_run _ _ _ _ _ (member_quiet P o k w)) in H; destruct H
  | H : first_of ?P ?a ?w = (Ok _, _, _) |- _ =>
      apply (quiet_run _ _ _ _ _ (first_of_quiet P a w)) in H; destruct H
  end.

Ltac tally :=
  rewrite ?steps_app, ?log_lines_app;
  repeat match goal with
  | H : steps _ = _ |- _ => rewrite H; clear H
  | H : log_lines _ = _ |- _ => rewrite H; clear H
  end;
  cbn [steps step_of log_lines app];
  rewrite ?app_nil_r.

Section Shapes.
Context {W : Type}.
Variable P : Platform W.
Variable self : options W.
Variable path : string.

Lemma set_trap_shape t prop value receiver (w : W) v w' tr :
  set_trap P self path t prop value receiver w = (Ok v, w', tr) ->
  steps tr = (when_set (beforeSet self) SPre ++ [SReal]
              ++ when_set (afterSet self) SPost ++ [SLog])%list /\
  one_line_at path tr.
Proof.
  unfold set_trap. intros H. crunch. split.
  - tally. reflexivity.
  - eexists. split; [tally; reflexivity | apply line_prefixes].
Qed.

Lemma get_trap_shape t prop receiver (w : W) v w' tr :
  not_watched self prop = false ->
  includes "console" path = false ->
  get_trap P self path t prop receiver w = (Ok v, w', tr) ->
  steps tr = (when_set (beforeGet self) SPre ++ [SReal]
              ++ when_set (afterGet self) SPost ++ [SLog])%list /\
  exists s, log_lines tr = [get_line path prop s].
Proof.
  intros Hw Hc H.
  destruct (get_trap_run P self path t prop receiver w v w' tr Hw Hc H)
    as (u & w0 & t0 & x & w1 & hooked & w2 & t2 & s & w3 & t3
        & Hb & Hg & Ha & Hv & Hs & ->).
  clear H. crunch. split; [tally; reflexivity|].
  exists s. tally. reflexivity.
Qed.

Lemma get_trap_bypass t prop receiver (w : W) :
  not_watched self prop || includes "console" path = true ->
  get_trap P self path t prop receiver w =
    perform (ARealGet t prop receiver) (Reflect_get P t prop receiver) w.
Proof.
  intros H. unfold get_trap.
  destruct (not_watched self prop); [reflexivity|].
  simpl in H. now rewrite H.
Qed.

Lemma has_trap_shape t prop (w : W) v w' tr :
  has_trap P self path t prop w = (Ok v, w', tr) ->
  steps tr = [SReal; SLog] /\ one_line_at path tr.
Proof.
  unfold has_trap. intros H. crunch. split; [reflexivity|].
  eexists. split; [reflexivity | apply line_prefixes].
Qed.

Lemma deleteProperty_trap_shape t prop (w : W) v w' tr :
  deleteProperty_trap P self path t prop w = (Ok v, w', tr) ->
  steps tr = [SReal; SLog] /\ one_line_at path tr.
Proof.
  unfold deleteProperty_trap. intros H. crunch. split; [reflexivity|].
  eexists. split; [reflexivity | apply line_prefixes].
Qed.

Lemma defineProperty_trap_shape t prop attributes (w : W) v w' tr :
  defineProperty_trap P self path t prop attributes w = (Ok v, w', tr) ->
  steps tr = [SReal; SLog] /\ one_line_at path tr.
Proof.
  unfold defineProperty_trap. intros H. crunch. split.
  - tally. reflexivity.
  - eexists. split; [tally; reflexivity | apply line_prefixes].
Qed.

Lemma getPrototypeOf_trap_shape t (w : W) v w' tr :
  getPrototypeOf_trap P self path t w = (Ok v, w', tr) ->
  steps tr = [SReal; SLog] /\ one_line_at path tr.
Proof.
  unfold getPrototypeOf_trap. intros H. crunch. split.
  - tally. reflexivity.
  - eexists. split; [tally; reflexivity | apply line_prefixes].
Qed.

Lemma setPrototypeOf_trap_shape t proto (w : W) v w' tr :
  setPrototypeOf_trap P self path t proto w = (Ok v, w', tr) ->
  steps tr = [SLog; SReal] /\ one_line_at path tr.
Proof.
  unfold setPrototypeOf_trap. intros H. crunch. split.
  - tally. reflexivity.
  - eexists. split; [tally; reflexivity | apply line_prefixes].
Qed.

Lemma preventExtensions_trap_shape t (w : W) v w' tr :
  preventExtensions_trap P self path t w = (Ok v, w', tr) ->
  steps tr = [SLog; SReal] /\ one_line_at path tr.
Proof.
  unfold preventExtensions_trap. intros H. crunch. split; [reflexivity|].
  eexists. split; [reflexivity | apply line_prefixes].
Qed.

Lemma isExtensible_trap_shape t (w : W) v w' tr :
  isExtensible_trap P self path t w = (Ok v, w', tr) ->
  steps tr = [SReal; SLog] /\ one_line_at path tr.
Proof.
  unfold isExtensible_trap. intros H. crunch. split; [reflexivity|].
  eexists. split; [reflexivity | apply line_prefixes].
Qed.

Lemma apply_trap_steps fn thisArg args (w : W) v w' tr :
  apply_trap P self path fn thisArg args w = (Ok v, w', tr) ->
  steps tr = (when_set (beforeApply self) SPre ++ [SReal]
              ++ when_set (afterApply self) SPost ++ [SLog])%list /\
  one_line_at path tr.
Proof.
  unfold apply_trap. intros H.
  split_run H as Before H. split_run H as Real H. split_run H as After H.
  split_run H as Name H.
  destruct (is_addEventListener x2); crunch; (split;
    [tally; reflexivity
    |eexists; split; [tally; reflexivity | apply line_prefixes]]).
Qed.

Lemma construct_trap_shape target args newTarget (w : W) v w' tr :
  construct_trap P self path target args newTarget w = (Ok v, w', tr) ->
  steps tr = [SReal; SLog] /\ one_line_at path tr.
Proof.
  unfold construct_trap. intros H. crunch. split.
  - tally. reflexivity.
  - eexists. split; [tally; reflexivity | apply line_prefixes].
Qed.
End Shapes.

(** ** The runs of every trap

    A trap returns exactly when each call it makes, one after the other,
    returns; the equations list these calls with the arguments each one
    receives and the world it starts in. *)

Section Trap_runs.
Context {W : Type}.
Variable P : Platform W.
Variable self : options W.
Variable path : string.

Lemma log_line_run line (w : W) u w' tl :
  log P self [line] w = (Ok u, w', tl) ->
  log P self [line] w = (Ok tt, w', [ALog line]).
Proof.
  intros H. pose proof (log_ok P self _ _ _ _ _ H) as ->.
  now destruct u.
Qed.

Lemma member_run o prop (w : W) v w' tr :
  member P o prop w = (Ok v, w', tr) ->
  Reflect_get P o prop o w = (Ok v, w') /\ tr = [AMember o prop].
Proof. unfold member. apply perform_ok. Qed.

Lemma get_trap_runs t prop receiver (w : W) v w' tr :
  not_watched self prop = false ->
  includes "console" path = false ->
  get_trap P self path t prop receiver w = (Ok v, w', tr) <->
  exists u w0 t0 x w1 hooked w2 t2 s w3 t3,
    call_beforeGet self path prop w = (Ok u, w0, t0) /\
    Reflect_get P t prop receiver w0 = (Ok x, w1) /\
    call_afterGet self path prop (wrapped_read path prop x) w1
      = (Ok hooked, w2, t2) /\
    v = coalesce hooked (wrapped_read path prop x) /\
    safeStringify P v w2 = (Ok s, w3, t3) /\
    log P self [get_line path prop s] w3
      = (Ok tt, w', [ALog (get_line path prop s)]) /\
    tr = (t0 ++ [ARealGet t prop receiver] ++ t2 ++ t3
          ++ [ALog (get_line path prop s)])%list.
Proof.
  intros Hw Hc. unfold get_trap. rewrite Hw, Hc. cbv zeta. split.
  - intros H. split_run H as Before H. split_run H as Real H.
    apply perform_ok in Real. destruct Real as [Real ->].
    split_run H as Wrap H. rewrite wrapping_step in Wrap.
    inversion Wrap; subst.
    split_run H as After H. split_run H as Ser H. split_run H as Log H.
    end_run H.
    pose proof (log_ok P self _ _ _ _ _ Log) as E. simpl in E. subst.
    apply log_line_run in Log.
    do 11 eexists.
    split; [exact Before|]. split; [exact Real|]. split; [exact After|].
    split; [reflexivity|]. split; [exact Ser|]. split; [exact Log|].
    simpl. now rewrite ?app_nil_r.
  - intros (u & w0 & t0 & x & w1 & hooked & w2 & t2 & s & w3 & t3
            & Hb & Hg & Ha & -> & Hs & Hl & ->).
    run Hb. run (perform_run (ARealGet t prop receiver) _ _ _ _ Hg).
    run (wrapping_step path prop x w1). run Ha. run Hs. run Hl.
    simpl. now rewrite ?app_nil_r.
Qed.

Lemma set_trap_runs t prop value receiver (w : W) b w' tr :
  set_trap P self path t prop value receiver w = (Ok b, w', tr) <->
  exists hooked w0 t0 w1 u w2 t2 s w3 t3,
    call_beforeSet self path prop value w = (Ok hooked, w0, t0) /\
    Reflect_set P t prop (coalesce hooked value) receiver w0 = (Ok b, w1) /\
    call_afterSet self path prop (coalesce hooked value) w1
      = (Ok u, w2, t2) /\
    safeStringify P (coalesce hooked value) w2 = (Ok s, w3, t3) /\
    log P self [set_line path prop s] w3
      = (Ok tt, w', [ALog (set_line path prop s)]) /\
    tr = (t0 ++ [ARealSet t prop (coalesce hooked value) receiver] ++ t2
          ++ t3 ++ [ALog (set_line path prop s)])%list.
Proof.
  unfold set_trap. split.
  - intros H. split_run H as Before H. split_run H as Real H.
    apply perform_ok in Real. destruct Real as [Real ->].
    split_run H as After H. split_run H as Ser H. split_run H as Log H.
    end_run H.
    pose proof (log_ok P self _ _ _ _ _ Log) as E. simpl in E. subst.
    apply log_line_run in Log.
    do 10 eexists.
    split; [exact Before|]. split; [exact Real|]. split; [exact After|].
    split; [exact Ser|]. split; [exact Log|].
    simpl. now rewrite ?app_nil_r.
  - intros (hooked & w0 & t0 & w1 & u & w2 & t2 & s & w3 & t3
            & Hb & Hr & Ha & Hs & Hl & ->).
    run Hb. run (perform_run (ARealSet t prop (coalesce hooked value)
                                receiver) _ _ _ _ Hr).
    run Ha. run Hs. run Hl. simpl. now rewrite ?app_nil_r.
Qed.

Lemma has_trap_runs t prop (w : W) b w' tr :
  has_trap P self path t prop w = (Ok b, w', tr) <->
  exists w1,
    Reflect_has P t prop w = (Ok b, w1) /\
    log P self [has_line path prop b] w1
      = (Ok tt, w', [ALog (has_line path prop b)]) /\
    tr = [ARealHas t prop; ALog (has_line path prop b)].
Proof.
  unfold has_trap. split.
  - intros H. split_run H as Real H. split_run H as Log H. end_run H.
    apply perform_ok in Real. destruct Real as [Real ->].
    pose proof (log_ok P self _ _ _ _ _ Log) as E. simpl in E. subst.
    apply log_line_run in Log.
    eexists. split; [exact Real|]. split; [exact Log|]. reflexivity.
  - intros (w1 & Hr & Hl & ->).
    run (perform_run (ARealHas t prop) _ _ _ _ Hr). run Hl. reflexivity.
Qed.

Lemma deleteProperty_trap_runs t prop (w : W) b w' tr :
  deleteProperty_trap P self path t prop w = (Ok b, w', tr) <->
  exists w1,
    Reflect_deleteProperty P t prop w = (Ok b, w1) /\
    log P self [delete_line path prop b] w1
      = (Ok tt, w', [ALog (delete_line path prop b)]) /\
    tr = [ARealDelete t prop; ALog (delete_line path prop b)].
Proof.
  unfold deleteProperty_trap. split.
  - intros H. split_run H as Real H. split_run H as Log H. end_run H.
    apply perform_ok in Real. destruct Real as [Real ->].
    pose proof (log_ok P self _ _ _ _ _ Log) as E. simpl in E. subst.
    apply log_line_run in Log.
    eexists. split; [exact Real|]. split; [exact Log|]. reflexivity.
  - intros (w1 & Hr & Hl & ->).
    run (perform_run (ARealDelete t prop) _ _ _ _ Hr). run Hl. reflexivity.
Qed.

Lemma defineProperty_trap_runs t prop attributes (w : W) b w' tr :
  defineProperty_trap P self path t prop attributes w = (Ok b, w', tr) <->
  exists w1 s w2 t2,
    Reflect_defineProperty P t prop attributes w = (Ok b, w1) /\
    safeStringify P attributes w1 = (Ok s, w2, t2) /\
    log P self [define_line path prop s b] w2
      = (Ok tt, w', [ALog (define_line path prop s b)]) /\
    tr = ([ARealDefine t prop attributes] ++ t2
          ++ [ALog (define_line path prop s b)])%list.
Proof.
  unfold defineProperty_trap. split.
  - intros H. split_run H as Real H. split_run H as Ser H.
    split_run H as Log H. end_run H.
    apply perform_ok in Real. destruct Real as [Real ->].
    pose proof (log_ok P self _ _ _ _ _ Log) as E. simpl in E. subst.
    apply log_line_run in Log.
    do 4 eexists. split; [exact Real|]. split; [exact Ser|].
    split; [exact Log|]. simpl. now rewrite ?app_nil_r.
  - intros (w1 & s & w2 & t2 & Hr & Hs & Hl & ->).
    run (perform_run (ARealDefine t prop attributes) _ _ _ _ Hr).
    run Hs. run Hl. simpl. now rewrite ?app_nil_r.
Qed.

Lemma getPrototypeOf_trap_runs t (w : W) v w' tr :
  getPrototypeOf_trap P self path t w = (Ok v, w', tr) <->
  exists w1 s w2 t2,
    Reflect_getPrototypeOf P t w = (Ok v, w1) /\
    safeStringify P v w1 = (Ok s, w2, t2) /\
    log P self [getPrototypeOf_line path s] w2
      = (Ok tt, w', [ALog (getPrototypeOf_line path s)]) /\
    tr = ([ARealGetPrototypeOf t] ++ t2
          ++ [ALog (getPrototypeOf_line path s)])%list.
Proof.
  unfold getPrototypeOf_trap. split.
  - intros H. split_run H as Real H. split_run H as Ser H.
    split_run H as Log H. end_run H.
    apply perform_ok in Real. destruct Real as [Real ->].
    pose proof (log_ok P self _ _ _ _ _ Log) as E. simpl in E. subst.
    apply log_line_run in Log.
    do 4 eexists. split; [exact Real|]. split; [exact Ser|].
    split; [exact Log|]. simpl. now rewrite ?app_nil_r.
  - intros (w1 & s & w2 & t2 & Hr & Hs & Hl & ->).
    run (perform_run (ARealGetPrototypeOf t) _ _ _ _ Hr).
    run Hs. run Hl. simpl. now rewrite ?app_nil_r.
Qed.

Lemma setPrototypeOf_trap_runs t proto (w : W) b w' tr :
  setPrototypeOf_trap P self path t proto w = (Ok b, w', tr) <->
  exists s w1 t1 w2,
    safeStringify P proto w = (Ok s, w1, t1) /\
    log P self [setPrototypeOf_line path s] w1
      = (Ok tt, w2, [ALog (setPrototypeOf_line path s)]) /\
    Reflect_setPrototypeOf P t proto w2 = (Ok b, w') /\
    tr = (t1 ++ [ALog (setPrototypeOf_line path s);
                 ARealSetPrototypeOf t proto])%list.
Proof.
  unfold setPrototypeOf_trap. split.
  - intros H. split_run H as Ser H. split_run H as Log H.
    apply perform_ok in H. destruct H as [Real ->].
    pose proof (log_ok P self _ _ _ _ _ Log) as E. simpl in E. subst.
    apply log_line_run in Log.
    do 4 eexists. split; [exact Ser|]. split; [exact Log|].
    split; [exact Real|]. reflexivity.
  - intros (s & w1 & t1 & w2 & Hs & Hl & Hr & ->).
    run Hs. run Hl.
    now rewrite (perform_run (ARealSetPrototypeOf t proto) _ _ _ _ Hr).
Qed.

Lemma preventExtensions_trap_runs t (w : W) b w' tr :
  preventExtensions_trap P self path t w = (Ok b, w', tr) <->
  exists w1,
    log P self [preventExtensions_line path] w
      = (Ok tt, w1, [ALog (preventExtensions_line path)]) /\
    Reflect_preventExtensions P t w1 = (Ok b, w') /\
    tr = [ALog (preventExtensions_line path); ARealPreventExtensions t].
Proof.
  unfold preventExtensions_trap. split.
  - intros H. split_run H as Log H.
    apply perform_ok in H. destruct H as [Real ->].
    pose proof (log_ok P self _ _ _ _ _ Log) as E. simpl in E. subst.
    apply log_line_run in Log.
    eexists. split; [exact Log|]. split; [exact Real|]. reflexivity.
  - intros (w1 & Hl & Hr & ->).
    run Hl. now rewrite (perform_run (ARealPreventExtensions t) _ _ _ _ Hr).
Qed.

Lemma isExtensible_trap_runs t (w : W) b w' tr :
  isExtensible_trap P self path t w = (Ok b, w', tr) <->
  exists w1,
    Reflect_isExtensible P t w = (Ok b, w1) /\
    log P self [isExtensible_line path b] w1
      = (Ok tt, w', [ALog (isExtensible_line path b)]) /\
    tr = [ARealIsExtensible t; ALog (isExtensible_line path b)].
Proof.
  unfold isExtensible_trap. split.
  - intros H. split_run H as Real H. split_run H as Log H. end_run H.
    apply perform_ok in Real. destruct Real as [Real ->].
    pose proof (log_ok P self _ _ _ _ _ Log) as E. simpl in E. subst.
    apply log_line_run in Log.
    eexists. split; [exact Real|]. split; [exact Log|]. reflexivity.
  - intros (w1 & Hr & Hl & ->).
    run (perform_run (ARealIsExtensible t) _ _ _ _ Hr). run Hl. reflexivity.
Qed.

Lemma construct_trap_runs t args newTarget (w : W) v w' tr :
  construct_trap P self path t args newTarget w = (Ok v, w', tr) <->
  exists w1 name w2 n w3 t3 a w4 t4 s w5 t5,
    Reflect_construct P t args newTarget w = (Ok v, w1) /\
    Reflect_get P t (KStr "name") t w1 = (Ok name, w2) /\
    ToString P name w2 = (Ok n, w3, t3) /\
    safeStringify P args w3 = (Ok a, w4, t4) /\
    safeStringify P v w4 = (Ok s, w5, t5) /\
    log P self [construct_line path n a s] w5
      = (Ok tt, w', [ALog (construct_line path n a s)]) /\
    tr = ([ARealConstruct t args newTarget; AMember t (KStr "name")]
          ++ t3 ++ t4 ++ t5 ++ [ALog (construct_line path n a s)])%list.
Proof.
  unfold construct_trap. cbv zeta. split.
  - intros H. split_run H as Real H. split_run H as Name H.
    split_run H as Text H. split_run H as Args H. split_run H as Ser H.
    split_run H as Log H. end_run H.
    apply perform_ok in Real. destruct Real as [Real ->].
    apply member_run in Name. destruct Name as [Name ->].
    pose proof (log_ok P self _ _ _ _ _ Log) as E. simpl in E. subst.
    apply log_line_run in Log.
    do 12 eexists. split; [exact Real|]. split; [exact Name|].
    split; [exact Text|]. split; [exact Args|]. split; [exact Ser|].
    split; [exact Log|]. simpl. now rewrite ?app_nil_r.
  - intros (w1 & name & w2 & n & w3 & t3 & a & w4 & t4 & s & w5 & t5
            & Hr & Hn & Ht & Ha & Hs & Hl & ->).
    run (perform_run (ARealConstruct t args newTarget) _ _ _ _ Hr).
    run (perform_run (AMember t (KStr "name")) _ _ _ _ Hn
         : member P t (KStr "name") w1 = _).
    run Ht. run Ha. run Hs. run Hl. simpl. now rewrite ?app_nil_r.
Qed.

(** The invoke trap that returns: the before-call hook, the real call with
    the receiver that [bindThis] selects and the arguments the hook left,
    the after-call hook, the read of the function's name that chooses the
    line, and the parts of the line. *)
Lemma apply_trap_run fn thisArg args (w : W) v w' tr :
  apply_trap P self path fn thisArg args w = (Ok v, w', tr) ->
  exists hooked w0 t0 x w1 hooked' w2 t2 name w3 name' w4 n w5 t5,
    call_beforeApply self path args w = (Ok hooked, w0, t0) /\
    Reflect_apply P fn (if bindThis self then fn else thisArg)
      (coalesce hooked args) w0 = (Ok x, w1) /\
    call_afterApply self path x w1 = (Ok hooked', w2, t2) /\
    v = coalesce hooked' x /\
    Reflect_get P fn (KStr "name") fn w2 = (Ok name, w3) /\
    Reflect_get P fn (KStr "name") fn w3 = (Ok name', w4) /\
    ToString P name' w4 = (Ok n, w5, t5) /\
    ((is_addEventListener name = true /\
      exists first w6 t6 detail w7 t7 s w8 t8,
        first_of P (coalesce hooked args) w5 = (Ok first, w6, t6) /\
        ToString P first w6 = (Ok detail, w7, t7) /\
        safeStringify P v w7 = (Ok s, w8, t8) /\
        log P self [apply_line path n detail s] w8
          = (Ok tt, w', [ALog (apply_line path n detail s)]) /\
        tr = (t0 ++ [ARealApply fn (if bindThis self then fn else thisArg)
                       (coalesce hooked args)]
              ++ t2 ++ [AMember fn (KStr "name"); AMember fn (KStr "name")]
              ++ t5 ++ t6 ++ t7 ++ t8
              ++ [ALog (apply_line path n detail s)])%list)
     \/
     (is_addEventListener name = false /\
      exists a w6 t6 s w7 t7,
        safeStringify P (coalesce hooked args) w5 = (Ok a, w6, t6) /\
        safeStringify P v w6 = (Ok s, w7, t7) /\
        log P self [apply_line path n (text_of a) s] w7
          = (Ok tt, w', [ALog (apply_line path n (text_of a) s)]) /\
        tr = (t0 ++ [ARealApply fn (if bindThis self then fn else thisArg)
                       (coalesce hooked args)]
              ++ t2 ++ [AMember fn (KStr "name"); AMember fn (KStr "name")]
              ++ t5 ++ t6 ++ t7
              ++ [ALog (apply_line path n (text_of a) s)])%list)).
Proof.
  unfold apply_trap. cbv zeta. intros H.
  split_run H as Before H. split_run H as Real H. split_run H as After H.
  split_run H as Name H.
  apply perform_ok in Real. destruct Real as [Real ->].
  apply member_run in Name. destruct Name as [Name ->].
  match type of H with
  | (if is_addEventListener ?name then _ else _) _ = _ =>
      destruct (is_addEventListener name) eqn:Hadd
  end.
  - split_run H as Name2 H. split_run H as Text H. split_run H as First H.
    split_run H as Detail H. split_run H as Ser H. split_run H as Log H.
    end_run H.
    apply member_run in Name2. destruct Name2 as [Name2 ->].
    pose proof (log_ok P self _ _ _ _ _ Log) as E. simpl in E. subst.
    apply log_line_run in Log.
    do 15 eexists.
    split; [exact Before|]. split; [exact Real|]. split; [exact After|].
    split; [reflexivity|]. split; [exact Name|]. split; [exact Name2|].
    split; [exact Text|]. left. split; [exact Hadd|].
    do 9 eexists. split; [exact First|]. split; [exact Detail|].
    split; [exact Ser|]. split; [exact Log|].
    simpl. rewrite <- ?app_assoc. simpl. now rewrite ?app_nil_r.
  - split_run H as Name2 H. split_run H as Text H. split_run H as Args H.
    split_run H as Ser H. split_run H as Log H. end_run H.
    apply member_run in Name2. destruct Name2 as [Name2 ->].
    pose proof (log_ok P self _ _ _ _ _ Log) as E. simpl in E. subst.
    apply log_line_run in Log.
    do 15 eexists.
    split; [exact Before|]. split; [exact Real|]. split; [exact After|].
    split; [reflexivity|]. split; [exact Name|]. split; [exact Name2|].
    split; [exact Text|]. right. split; [exact Hadd|].
    do 6 eexists. split; [exact Args|].
    split; [exact Ser|]. split; [exact Log|].
    simpl. rewrite <- ?app_assoc. simpl. now rewrite ?app_nil_r.
Qed.

(** The other way round: the invoke trap returns when its calls return,
    for a function whose name chooses the short line *)
Lemma apply_trap_listener fn thisArg args (w : W)
    hooked w0 t0 x w1 hooked' w2 t2 name w3 name' w4 n w5 t5
    first w6 t6 detail w7 t7 s w8 t8 u w9 tl :
  call_beforeApply self path args w = (Ok hooked, w0, t0) ->
  Reflect_apply P fn (if bindThis self then fn else thisArg)
    (coalesce hooked args) w0 = (Ok x, w1) ->
  call_afterApply self path x w1 = (Ok hooked', w2, t2) ->
  Reflect_get P fn (KStr "name") fn w2 = (Ok name, w3) ->
  is_addEventListener name = true ->
  Reflect_get P fn (KStr "name") fn w3 = (Ok name', w4) ->
  ToString P name' w4 = (Ok n, w5, t5) ->
  first_of P (coalesce hooked args) w5 = (Ok first, w6, t6) ->
  ToString P first w6 = (Ok detail, w7, t7) ->
  safeStringify P (coalesce hooked' x) w7 = (Ok s, w8, t8) ->
  log P self [apply_line path n detail s] w8 = (Ok u, w9, tl) ->
  apply_trap P self path fn thisArg args w
  = (Ok (coalesce hooked' x), w9,
     (t0 ++ [ARealApply fn (if bindThis self then fn else thisArg)
               (coalesce hooked args)]
      ++ t2 ++ [AMember fn (KStr "name"); AMember fn (KStr "name")]
      ++ t5 ++ t6 ++ t7 ++ t8 ++ tl)%list).
Proof.
  intros Hb Hr Ha Hn Hadd Hn' Ht Hf Hd Hs Hl.
  unfold apply_trap. cbv zeta. run Hb.
  run (perform_run (ARealApply fn (if bindThis self then fn else thisArg)
                      (coalesce hooked args)) _ _ _ _ Hr).
  run Ha.
  run (perform_run (AMember fn (KStr "name")) _ _ _ _ Hn
       : member P fn (KStr "name") w2 = _).
  rewrite Hadd.
  run (perform_run (AMember fn (KStr "name")) _ _ _ _ Hn'
       : member P fn (KStr "name") w3 = _).
  run Ht. run Hf. run Hd. run Hs. run Hl.
  simpl. rewrite <- ?app_assoc. simpl. now rewrite ?app_nil_r.
Qed.

(** and for any other function. *)
Lemma apply_trap_other fn thisArg args (w : W)
    hooked w0 t0 x w1 hooked' w2 t2 name w3 name' w4 n w5 t5
    a w6 t6 s w7 t7 u w8 tl :
  call_beforeApply self path args w = (Ok hooked, w0, t0) ->
  Reflect_apply P fn (if bindThis self then fn else thisArg)
    (coalesce hooked args) w0 = (Ok x, w1) ->
  call_afterApply self path x w1 = (Ok hooked', w2, t2) ->
  Reflect_get P fn (KStr "name") fn w2 = (Ok name, w3) ->
  is_addEventListener name = false ->
  Reflect_get P fn (KStr "name") fn w3 = (Ok name', w4) ->
  ToString P name' w4 = (Ok n, w5, t5) ->
  safeStringify P (coalesce hooked args) w5 = (Ok a, w6, t6) ->
  safeStringify P (coalesce hooked' x) w6 = (Ok s, w7, t7) ->
  log P self [apply_line path n (text_of a) s] w7 = (Ok u, w8, tl) ->
  apply_trap P self path fn thisArg args w
  = (Ok (coalesce hooked' x), w8,
     (t0 ++ [ARealApply fn (if bindThis self then fn else thisArg)
               (coalesce hooked args)]
      ++ t2 ++ [AMember fn (KStr "name"); AMember fn (KStr "name")]
      ++ t5 ++ t6 ++ t7 ++ tl)%list).
Proof.
  intros Hb Hr Ha Hn Hadd Hn' Ht Hargs Hs Hl.
  unfold apply_trap. cbv zeta. run Hb.
  run (perform_run (ARealApply fn (if bindThis self then fn else thisArg)
                      (coalesce hooked args)) _ _ _ _ Hr).
  run Ha.
  run (perform_run (AMember fn (KStr "name")) _ _ _ _ Hn
       : member P fn (KStr "name") w2 = _).
  rewrite Hadd.
  run (perform_run (AMember fn (KStr "name")) _ _ _ _ Hn'
       : member P fn (KStr "name") w3 = _).
  run Ht. run Hargs. run Hs. run Hl.
  simpl. rewrite <- ?app_assoc. simpl. now rewrite ?app_nil_r.
Qed.
(** Both ways at once. *)
Lemma apply_trap_runs fn thisArg args (w : W) v w' tr :
  apply_trap P self path fn thisArg args w = (Ok v, w', tr) <->
  exists hooked w0 t0 x w1 hooked' w2 t2 name w3 name' w4 n w5 t5,
    call_beforeApply self path args w = (Ok hooked, w0, t0) /\
    Reflect_apply P fn (if bindThis self then fn else thisArg)
      (coalesce hooked args) w0 = (Ok x, w1) /\
    call_afterApply self path x w1 = (Ok hooked', w2, t2) /\
    v = coalesce hooked' x /\
    Reflect_get P fn (KStr "name") fn w2 = (Ok name, w3) /\
    Reflect_get P fn (KStr "name") fn w3 = (Ok name', w4) /\
    ToString P name' w4 = (Ok n, w5, t5) /\
    ((is_addEventListener name = true /\
      exists first w6 t6 detail w7 t7 s w8 t8,
        first_of P (coalesce hooked args) w5 = (Ok first, w6, t6) /\
        ToString P first w6 = (Ok detail, w7, t7) /\
        safeStringify P v w7 = (Ok s, w8, t8) /\
        log P self [apply_line path n detail s] w8
          = (Ok tt, w', [ALog (apply_line path n detail s)]) /\
        tr = (t0 ++ [ARealApply fn (if bindThis self then fn else thisArg)
                       (coalesce hooked args)]
              ++ t2 ++ [AMember fn (KStr "name"); AMember fn (KStr "name")]
              ++ t5 ++ t6 ++ t7 ++ t8
              ++ [ALog (apply_line path n detail s)])%list)
     \/
     (is_addEventListener name = false /\
      exists a w6 t6 s w7 t7,
        safeStringify P (coalesce hooked args) w5 = (Ok a, w6, t6) /\
        safeStringify P v w6 = (Ok s, w7, t7) /\
        log P self [apply_line path n (text_of a) s] w7
          = (Ok tt, w', [ALog (apply_line path n (text_of a) s)]) /\
        tr = (t0 ++ [ARealApply fn (if bindThis self then fn else thisArg)
                       (coalesce hooked args)]
              ++ t2 ++ [AMember fn (KStr "name"); AMember fn (KStr "name")]
              ++ t5 ++ t6 ++ t7
              ++ [ALog (apply_line path n (text_of a) s)])%list)).
Proof.
  split; [apply apply_trap_run|].
  intros (hooked & w0 & t0 & x & w1 & hooked' & w2 & t2 & name & w3 & name'
          & w4 & n & w5 & t5 & Hb & Hr & Ha & -> & Hn & Hn' & Ht
          & [(Hadd & first & w6 & t6 & detail & w7 & t7 & s & w8 & t8
              & Hf & Hd & Hs & Hl & ->)
            |(Hadd & a & w6 & t6 & s & w7 & t7 & Hargs & Hs & Hl & ->)]).
  - exact (apply_trap_listener fn thisArg args w _ _ _ _ _ _ _ _ _ _ _ _ _ _
             _ _ _ _ _ _ _ _ _ _ _ _ _
             Hb Hr Ha Hn Hadd Hn' Ht Hf Hd Hs Hl).
  - exact (apply_trap_other fn thisArg args w _ _ _ _ _ _ _ _ _ _ _ _ _ _ _
             _ _ _ _ _ _ _ _ _
             Hb Hr Ha Hn Hadd Hn' Ht Hargs Hs Hl).
Qed.

(** A real read that throws, and a serializer that throws, end the read
    trap. *)
Lemma get_trap_real_failure t prop receiver (w : W) u w0 t0 e w1 :
  not_watched self prop = false ->
  includes "console" path = false ->
  call_beforeGet self path prop w = (Ok u, w0, t0) ->
  Reflect_get P t prop receiver w0 = (Throw e, w1) ->
  get_trap P self path t prop receiver w
  = (Throw e, w1, (t0 ++ [ARealGet t prop receiver])%list).
Proof.
  intros Hw Hc Hb Hg. unfold get_trap. rewrite Hw, Hc. cbv zeta. run Hb.
  now rewrite (bind_throw _ _ _ _ _ _
                 (perform_run (ARealGet t prop receiver) _ _ _ _ Hg)).
Qed.

Lemma get_trap_serializer_failure t prop receiver (w : W)
    u w0 t0 x w1 hooked w2 t2 e w3 t3 :
  not_watched self prop = false ->
  includes "console" path = false ->
  call_beforeGet self path prop w = (Ok u, w0, t0) ->
  Reflect_get P t prop receiver w0 = (Ok x, w1) ->
  call_afterGet self path prop (wrapped_read path prop x) w1
    = (Ok hooked, w2, t2) ->
  safeStringify P (coalesce hooked (wrapped_read path prop x)) w2
    = (Throw e, w3, t3) ->
  get_trap P self path t prop receiver w
  = (Throw e, w3, (t0 ++ [ARealGet t prop receiver] ++ t2 ++ t3)%list).
Proof.
  intros Hw Hc Hb Hg Ha Hs. unfold get_trap. rewrite Hw, Hc. cbv zeta.
  run Hb. run (perform_run (ARealGet t prop receiver) _ _ _ _ Hg).
  run (wrapping_step path prop x w1). run Ha.
  now rewrite (bind_throw _ _ _ _ _ _ Hs).
Qed.

(** The read trap returns when its calls return. *)
Lemma get_trap_forward t prop receiver (w : W)
    u w0 t0 x w1 hooked w2 t2 s w3 t3 u' w4 tl :
  not_watched self prop = false ->
  includes "console" path = false ->
  call_beforeGet self path prop w = (Ok u, w0, t0) ->
  Reflect_get P t prop receiver w0 = (Ok x, w1) ->
  call_afterGet self path prop (wrapped_read path prop x) w1
    = (Ok hooked, w2, t2) ->
  safeStringify P (coalesce hooked (wrapped_read path prop x)) w2
    = (Ok s, w3, t3) ->
  log P self [get_line path prop s] w3 = (Ok u', w4, tl) ->
  get_trap P self path t prop receiver w
  = (Ok (coalesce hooked (wrapped_read path prop x)), w4,
     (t0 ++ [ARealGet t prop receiver] ++ t2 ++ t3
      ++ [ALog (get_line path prop s)])%list).
Proof.
  intros Hw Hc Hb Hg Ha Hs Hl.
  apply (get_trap_runs t prop receiver w _ _ _ Hw Hc).
  apply log_line_run in Hl.
  do 11 eexists.
  split; [exact Hb|]. split; [exact Hg|]. split; [exact Ha|].
  split; [reflexivity|]. split; [exact Hs|]. split; [exact Hl|].
  reflexivity.
Qed.
(** The one operation in the trace of an invoke trap that returns. *)
Lemma apply_trap_real_operation fn thisArg args (w : W) v w' tr :
  apply_trap P self path fn thisArg args w = (Ok v, w', tr) ->
  exists hooked w0 t0 x w1 hooked' w2 t2,
    call_beforeApply self path args w = (Ok hooked, w0, t0) /\
    Reflect_apply P fn (if bindThis self then fn else thisArg)
      (coalesce hooked args) w0 = (Ok x, w1) /\
    call_afterApply self path x w1 = (Ok hooked', w2, t2) /\
    v = coalesce hooked' x /\
    real_operations tr
    = [ARealApply fn (if bindThis self then fn else thisArg)
         (coalesce hooked args)].
Proof.
  intros H. apply apply_trap_run in H.
  destruct H as (hooked & w0 & t0 & x & w1 & hooked' & w2 & t2 & name & w3
                 & name' & w4 & n & w5 & t5 & Hb & Hr & Ha & Hv & Hn & Hn'
                 & Ht & Hline).
  exists hooked, w0, t0, x, w1, hooked', w2, t2.
  split; [exact Hb|]. split; [exact Hr|]. split; [exact Ha|].
  split; [exact Hv|].
  pose proof (aux_of_run _ _ _ _ _ (optional_call_aux _ _ _ _ _ _) Hb) as A0.
  pose proof (aux_of_run _ _ _ _ _ (optional_call_aux _ _ _ _ _ _) Ha) as A2.
  pose proof (aux_of_run _ _ _ _ _ (ToString_aux P _ _) Ht) as A5.
  destruct Hline
    as [(_ & first & w6 & t6 & detail & w7 & t7 & s & w8 & t8
         & Hf & Hd & Hs & _ & ->)
       |(_ & a & w6 & t6 & s & w7 & t7 & Hargs & Hs & _ & ->)].
  - pose proof (aux_of_run _ _ _ _ _ (first_of_aux P _ _) Hf) as A6.
    pose proof (aux_of_run _ _ _ _ _ (ToString_aux P _ _) Hd) as A7.
    pose proof (aux_of_run _ _ _ _ _ (safeStringify_aux P _ _) Hs) as A8.
    rewrite !real_operations_app, (real_operations_aux _ A0),
      (real_operations_aux _ A2), (real_operations_aux _ A5),
      (real_operations_aux _ A6), (real_operations_aux _ A7),
      (real_operations_aux _ A8).
    reflexivity.
  - pose proof (aux_of_run _ _ _ _ _ (safeStringify_aux P _ _) Hargs) as A6.
    pose proof (aux_of_run _ _ _ _ _ (safeStringify_aux P _ _) Hs) as A7.
    rewrite !real_operations_app, (real_operations_aux _ A0),
      (real_operations_aux _ A2), (real_operations_aux _ A5),
      (real_operations_aux _ A6), (real_operations_aux _ A7).
    reflexivity.
Qed.
End Trap_runs.

(** ** The read through a wrapper *)

(** A value the engine finds pinned by the target, and different from what
    the trap returned, makes the read throw after the trap has returned. *)
Lemma pinned_property_read_throws :
  forall (W : Type) (P : Platform W) (E : Engine W) (self : options W)
         (path : string) (t : value) (prop : key) (w : W) (v : value)
         (w1 : W) (tr : list action) (x : value) (w2 : W),
    get_trap P self path t prop (VProxy t path) w = (Ok v, w1, tr) ->
    GetOwnProperty E t prop w1 = (Ok (Some (DataProperty x false false)), w2) ->
    SameValue v x = false ->
    exists msg,
      read P E self (VProxy t path) prop w = (Throw (TypeError msg), w2, tr).
Proof.
  intros W P E self path t prop w v w1 tr x w2 Ht Hd Hv.
  eexists. apply (proj2 (read_throws P E self t path prop w) _ _ _ _ _ Ht).
  unfold Get_invariants. rewrite Hd, Hv. reflexivity.
Qed.

(** C5, amended: for a key that [watchedProps] does not exclude, at a path
    in which [console] does not occur, a read on the wrapper of [t] runs the
    read trap, which performs the real read once, with the wrapper as
    receiver, after the before-read hook if there is one.  A real read that
    throws makes the read throw the same error.  A read that returns has seen
    the real read succeed with some [x] and returns the after-read hook's
    value when that is not nullish; otherwise it returns a wrapper around
    [x] at the extended path when [x] is an object or a function, and [x]
    itself when [x] is a primitive.  A real read that succeeds does not make
    the read succeed: when the value cannot be serialized for the log line,
    the read throws what the serializer threw.  In a run in which the
    before-read hook, the real read, the after-read hook, the serializer and
    the sink return, the trap returns that value, and the read returns it
    when the engine's check of the invariants of [[Get]] accepts it. *)
Theorem read_contract :
  forall (W : Type) (P : Platform W) (E : Engine W) (self : options W)
         (path : string) (t : value) (prop : key) (w : W),
    not_watched self prop = false ->
    includes "console" path = false ->
    (forall u w0 t0 e w1,
       call_beforeGet self path prop w = (Ok u, w0, t0) ->
       Reflect_get P t prop (VProxy t path) w0 = (Throw e, w1) ->
       read P E self (VProxy t path) prop w
         = (Throw e, w1, (t0 ++ [ARealGet t prop (VProxy t path)])%list)) /\
    (forall v w' tr,
       read P E self (VProxy t path) prop w = (Ok v, w', tr) ->
       real_operations tr = [ARealGet t prop (VProxy t path)] /\
       exists u w0 t0 x w1 hooked w2 t2,
         call_beforeGet self path prop w = (Ok u, w0, t0) /\
         Reflect_get P t prop (VProxy t path) w0 = (Ok x, w1) /\
         call_afterGet self path prop (wrapped_read path prop x) w1
           = (Ok hooked, w2, t2) /\
         (afterGet self = None -> hooked = VUndefined) /\
         (nullish hooked = false -> v = hooked) /\
         (nullish hooked = true -> is_object x = true ->
            v = VProxy x (path ++ "." ++ String_key prop) \/
            v = VFunProxy x (path ++ "." ++ String_key prop)) /\
         (nullish hooked = true -> is_primitive x = true -> v = x)) /\
    (forall u w0 t0 x w1 hooked w2 t2 e w3 t3,
       call_beforeGet self path prop w = (Ok u, w0, t0) ->
       Reflect_get P t prop (VProxy t path) w0 = (Ok x, w1) ->
       call_afterGet self path prop (wrapped_read path prop x) w1
         = (Ok hooked, w2, t2) ->
       safeStringify P (coalesce hooked (wrapped_read path prop x)) w2
         = (Throw e, w3, t3) ->
       read P E self (VProxy t path) prop w
         = (Throw e, w3,
            (t0 ++ [ARealGet t prop (VProxy t path)] ++ t2 ++ t3)%list)) /\
    (forall u w0 t0 x w1 hooked w2 t2 s w3 t3 u' w4 tl,
       call_beforeGet self path prop w = (Ok u, w0, t0) ->
       Reflect_get P t prop (VProxy t path) w0 = (Ok x, w1) ->
       call_afterGet self path prop (wrapped_read path prop x) w1
         = (Ok hooked, w2, t2) ->
       safeStringify P (coalesce hooked (wrapped_read path prop x)) w2
         = (Ok s, w3, t3) ->
       log P self [get_line path prop s] w3 = (Ok u', w4, tl) ->
       get_trap P self path t prop (VProxy t path) w
         = (Ok (coalesce hooked (wrapped_read path prop x)), w4,
            (t0 ++ [ARealGet t prop (VProxy t path)] ++ t2 ++ t3
             ++ [ALog (get_line path prop s)])%list) /\
       forall w5,
         Get_invariants E t prop (coalesce hooked (wrapped_read path prop x))
           w4 = (Ok tt, w5) ->
         read P E self (VProxy t path) prop w
           = (Ok (coalesce hooked (wrapped_read path prop x)), w5,
              (t0 ++ [ARealGet t prop (VProxy t path)] ++ t2 ++ t3
               ++ [ALog (get_line path prop s)])%list)).
Proof.
  intros W P E self path t prop w Hw Hc.
  split; [|split; [|split]].
  - intros u w0 t0 e w1 Hb Hg.
    apply (proj1 (read_throws P E self t path prop w)).
    exact (get_trap_real_failure P self path t prop _ w _ _ _ _ _
             Hw Hc Hb Hg).
  - intros v w' tr H. apply read_runs in H. destruct H as (w1' & H & _).
    destruct (get_trap_run P self path t prop _ w v w1' tr Hw Hc H)
      as (u & w0 & t0 & x & w1 & hooked & w2 & t2 & s & w3 & t3
          & Hb & Hg & Ha & Hv & Hs & Htr).
    split.
    + subst tr. rewrite !real_operations_app.
      rewrite (real_operations_aux t0), (real_operations_aux t2),
        (real_operations_aux t3); [reflexivity| | |].
      * exact (aux_of_run _ _ _ _ _ (safeStringify_aux P v w2) Hs).
      * exact (aux_of_run _ _ _ _ _ (optional_call_aux _ _ _ _ _ w1) Ha).
      * exact (aux_of_run _ _ _ _ _ (optional_call_aux _ _ _ _ _ w) Hb).
    + exists u, w0, t0, x, w1, hooked, w2, t2.
      split; [exact Hb|]. split; [exact Hg|]. split; [exact Ha|].
      split; [|split; [|split]].
      * intros Hnone. unfold call_afterGet in Ha. rewrite Hnone in Ha.
        now inversion Ha.
      * intros Hn. subst v. unfold coalesce. now rewrite Hn.
      * intros Hn Ho. subst v. unfold coalesce. rewrite Hn.
        destruct (wrapped_read_cases path prop x) as [[_ Hc']|[Hp _]];
          [exact Hc'|].
        unfold is_primitive in Hp. rewrite Ho in Hp. discriminate.
      * intros Hn Hp. subst v. unfold coalesce. rewrite Hn.
        destruct (wrapped_read_cases path prop x) as [[Ho _]|[_ Hx]];
          [|exact Hx].
        unfold is_primitive in Hp. rewrite Ho in Hp. discriminate.
  - intros u w0 t0 x w1 hooked w2 t2 e w3 t3 Hb Hg Ha Hs.
    apply (proj1 (read_throws P E self t path prop w)).
    exact (get_trap_serializer_failure P self path t prop _ w _ _ _ _ _ _ _
             _ _ _ _ Hw Hc Hb Hg Ha Hs).
  - intros u w0 t0 x w1 hooked w2 t2 s w3 t3 u' w4 tl Hb Hg Ha Hs Hl.
    pose proof (get_trap_forward P self path t prop _ w _ _ _ _ _ _ _ _ _ _
                  _ _ _ _ Hw Hc Hb Hg Ha Hs Hl) as Ht.
    split; [exact Ht|].
    intros w5 Hi. apply read_runs. exists w4. now split.
Qed.

(** The order of the steps in every trap that returns. *)
Lemma trap_steps :
  forall (W : Type) (P : Platform W) (self : options W) (path : string),
    (forall t prop receiver w v w' tr,
       get_trap P self path t prop receiver w = (Ok v, w', tr) ->
       steps tr =
         if not_watched self prop || includes "console" path then [SReal]
         else (when_set (beforeGet self) SPre ++ [SReal]
               ++ when_set (afterGet self) SPost ++ [SLog])%list) /\
    (forall t prop receiver w v w' tr,
       not_watched self prop || includes "console" path = false ->
       get_trap P self path t prop receiver w = (Ok v, w', tr) ->
       forall h, afterGet self = Some h ->
       exists x, In (AHook AfterGet path (Some prop)
                       (Some (wrapped_read path prop x))) tr) /\
    (forall t prop value receiver w v w' tr,
       set_trap P self path t prop value receiver w = (Ok v, w', tr) ->
       steps tr = (when_set (beforeSet self) SPre ++ [SReal]
                   ++ when_set (afterSet self) SPost ++ [SLog])%list) /\
    (forall t prop w v w' tr,
       has_trap P self path t prop w = (Ok v, w', tr) ->
       steps tr = [SReal; SLog]) /\
    (forall t prop w v w' tr,
       deleteProperty_trap P self path t prop w = (Ok v, w', tr) ->
       steps tr = [SReal; SLog]) /\
    (forall t prop attributes w v w' tr,
       defineProperty_trap P self path t prop attributes w = (Ok v, w', tr) ->
       steps tr = [SReal; SLog]) /\
    (forall t w v w' tr,
       getPrototypeOf_trap P self path t w = (Ok v, w', tr) ->
       steps tr = [SReal; SLog]) /\
    (forall t proto w v w' tr,
       setPrototypeOf_trap P self path t proto w = (Ok v, w', tr) ->
       Permutation (steps tr) [SReal; SLog]) /\
    (forall t w v w' tr,
       preventExtensions_trap P self path t w = (Ok v, w', tr) ->
       Permutation (steps tr) [SReal; SLog]) /\
    (forall t w v w' tr,
       isExtensible_trap P self path t w = (Ok v, w', tr) ->
       steps tr = [SReal; SLog]) /\
    (forall fn thisArg args w v w' tr,
       apply_trap P self path fn thisArg args w = (Ok v, w', tr) ->
       steps tr = (when_set (beforeApply self) SPre ++ [SReal]
                   ++ when_set (afterApply self) SPost ++ [SLog])%list) /\
    (forall target args newTarget w v w' tr,
       construct_trap P self path target args newTarget w = (Ok v, w', tr) ->
       steps tr = [SReal; SLog]).
Proof.
  intros W P self path. repeat split.
  - intros t prop receiver w v w' tr H.
    destruct (not_watched self prop || includes "console" path) eqn:E.
    + rewrite (get_trap_bypass P self path t prop receiver w E) in H.
      apply perform_ok in H. now destruct H as [_ ->].
    + apply orb_false_iff in E. destruct E as [Hw Hc].
      now destruct (get_trap_shape P self path t prop receiver w v w' tr Hw Hc H).
  - intros t prop receiver w v w' tr E H h Hh.
    apply orb_false_iff in E. destruct E as [Hw Hc].
    destruct (get_trap_run P self path t prop receiver w v w' tr Hw Hc H)
      as (u & w0 & t0 & x & w1 & hooked & w2 & t2 & s & w3 & t3
          & Hb & Hg & Ha & Hv & Hs & ->).
    exists x. unfold call_afterGet in Ha. rewrite Hh in Ha.
    apply optional_call_ok in Ha. simpl in Ha. destruct Ha as [_ ->].
    apply in_or_app. right. right. now left.
  - intros. now destruct (set_trap_shape P self path _ _ _ _ _ _ _ _ H).
  - intros. now destruct (has_trap_shape P self path _ _ _ _ _ _ H).
  - intros. now destruct (deleteProperty_trap_shape P self path _ _ _ _ _ _ H).
  - intros. now destruct (defineProperty_trap_shape P self path _ _ _ _ _ _ _ H).
  - intros. now destruct (getPrototypeOf_trap_shape P self path _ _ _ _ _ H).
  - intros.
    destruct (setPrototypeOf_trap_shape P self path _ _ _ _ _ _ H) as [-> _].
    apply perm_swap.
  - intros.
    destruct (preventExtensions_trap_shape P self path _ _ _ _ _ H) as [-> _].
    apply perm_swap.
  - intros. now destruct (isExtensible_trap_shape P self path _ _ _ _ _ H).
  - intros. now destruct (apply_trap_steps P self path _ _ _ _ _ _ _ H).
  - intros. now destruct (construct_trap_shape P self path _ _ _ _ _ _ _ H).
Qed.

(** C6, amended: every activation of a trap that returns has made the real
    operation of that trap, through [Reflect], on the trap's own target and
    with the trap's own arguments, once, and has called the sink once.  The
    read, write and invoke traps go pre-hook (if configured), real
    operation, post-hook (if configured), log; the read trap wraps between
    the real read and the post-hook, which receives the wrapped value.
    [has], [deleteProperty], [defineProperty], [getPrototypeOf],
    [isExtensible] and [construct] have no hooks: real operation, then log.
    [setPrototypeOf] and [preventExtensions] have no hooks either: one real
    operation and one log, in an order this statement leaves open.  A read
    that [watchedProps] or a [console] path exempts is the real read alone.
    And a trap returns exactly when, in that run, each of these calls and
    each rendering for the line returns: the equations give every call with
    its arguments and the world it starts in.  For [setPrototypeOf] and
    [preventExtensions] a return means that the two calls returned in one
    of the two orders, and the trap returns when they return in either. *)
Theorem trap_step_order :
  forall (W : Type) (P : Platform W) (self : options W) (path : string),
   ((forall t prop receiver w v w' tr,
       get_trap P self path t prop receiver w = (Ok v, w', tr) ->
       steps tr =
         if not_watched self prop || includes "console" path then [SReal]
         else (when_set (beforeGet self) SPre ++ [SReal]
               ++ when_set (afterGet self) SPost ++ [SLog])%list) /\
    (forall t prop receiver w v w' tr,
       not_watched self prop || includes "console" path = false ->
       get_trap P self path t prop receiver w = (Ok v, w', tr) ->
       forall h, afterGet self = Some h ->
       exists x, In (AHook AfterGet path (Some prop)
                       (Some (wrapped_read path prop x))) tr) /\
    (forall t prop value receiver w v w' tr,
       set_trap P self path t prop value receiver w = (Ok v, w', tr) ->
       steps tr = (when_set (beforeSet self) SPre ++ [SReal]
                   ++ when_set (afterSet self) SPost ++ [SLog])%list) /\
    (forall t prop w v w' tr,
       has_trap P self path t prop w = (Ok v, w', tr) ->
       steps tr = [SReal; SLog]) /\
    (forall t prop w v w' tr,
       deleteProperty_trap P self path t prop w = (Ok v, w', tr) ->
       steps tr = [SReal; SLog]) /\
    (forall t prop attributes w v w' tr,
       defineProperty_trap P self path t prop attributes w = (Ok v, w', tr) ->
       steps tr = [SReal; SLog]) /\
    (forall t w v w' tr,
       getPrototypeOf_trap P self path t w = (Ok v, w', tr) ->
       steps tr = [SReal; SLog]) /\
    (forall t proto w v w' tr,
       setPrototypeOf_trap P self path t proto w = (Ok v, w', tr) ->
       Permutation (steps tr) [SReal; SLog]) /\
    (forall t w v w' tr,
       preventExtensions_trap P self path t w = (Ok v, w', tr) ->
       Permutation (steps tr) [SReal; SLog]) /\
    (forall t w v w' tr,
       isExtensible_trap P self path t w = (Ok v, w', tr) ->
       steps tr = [SReal; SLog]) /\
    (forall fn thisArg args w v w' tr,
       apply_trap P self path fn thisArg args w = (Ok v, w', tr) ->
       steps tr = (when_set (beforeApply self) SPre ++ [SReal]
                   ++ when_set (afterApply self) SPost ++ [SLog])%list) /\
    (forall target args newTarget w v w' tr,
       construct_trap P self path target args newTarget w = (Ok v, w', tr) ->
       steps tr = [SReal; SLog])) /\
    (forall t prop receiver w,
       not_watched self prop || includes "console" path = true ->
       get_trap P self path t prop receiver w
       = (fst (Reflect_get P t prop receiver w),
          snd (Reflect_get P t prop receiver w),
          [ARealGet t prop receiver])) /\
    (forall t prop receiver w v w' tr,
       not_watched self prop || includes "console" path = false ->
       (get_trap P self path t prop receiver w = (Ok v, w', tr) <->
        exists u w0 t0 x w1 hooked w2 t2 s w3 t3,
          call_beforeGet self path prop w = (Ok u, w0, t0) /\
          Reflect_get P t prop receiver w0 = (Ok x, w1) /\
          call_afterGet self path prop (wrapped_read path prop x) w1
            = (Ok hooked, w2, t2) /\
          v = coalesce hooked (wrapped_read path prop x) /\
          safeStringify P v w2 = (Ok s, w3, t3) /\
          log P self [get_line path prop s] w3
            = (Ok tt, w', [ALog (get_line path prop s)]) /\
          tr = (t0 ++ [ARealGet t prop receiver] ++ t2 ++ t3
                ++ [ALog (get_line path prop s)])%list)) /\
    (forall t prop value receiver w b w' tr,
       set_trap P self path t prop value receiver w = (Ok b, w', tr) <->
       exists hooked w0 t0 w1 u w2 t2 s w3 t3,
         call_beforeSet self path prop value w = (Ok hooked, w0, t0) /\
         Reflect_set P t prop (coalesce hooked value) receiver w0
           = (Ok b, w1) /\
         call_afterSet self path prop (coalesce hooked value) w1
           = (Ok u, w2, t2) /\
         safeStringify P (coalesce hooked value) w2 = (Ok s, w3, t3) /\
         log P self [set_line path prop s] w3
           = (Ok tt, w', [ALog (set_line path prop s)]) /\
         tr = (t0 ++ [ARealSet t prop (coalesce hooked value) receiver] ++ t2
               ++ t3 ++ [ALog (set_line path prop s)])%list) /\
    (forall t prop w b w' tr,
       has_trap P self path t prop w = (Ok b, w', tr) <->
       exists w1,
         Reflect_has P t prop w = (Ok b, w1) /\
         log P self [has_line path prop b] w1
           = (Ok tt, w', [ALog (has_line path prop b)]) /\
         tr = [ARealHas t prop; ALog (has_line path prop b)]) /\
    (forall t prop w b w' tr,
       deleteProperty_trap P self path t prop w = (Ok b, w', tr) <->
       exists w1,
         Reflect_deleteProperty P t prop w = (Ok b, w1) /\
         log P self [delete_line path prop b] w1
           = (Ok tt, w', [ALog (delete_line path prop b)]) /\
         tr = [ARealDelete t prop; ALog (delete_line path prop b)]) /\
    (forall t prop attributes w b w' tr,
       defineProperty_trap P self path t prop attributes w = (Ok b, w', tr)
       <->
       exists w1 s w2 t2,
         Reflect_defineProperty P t prop attributes w = (Ok b, w1) /\
         safeStringify P attributes w1 = (Ok s, w2, t2) /\
         log P self [define_line path prop s b] w2
           = (Ok tt, w', [ALog (define_line path prop s b)]) /\
         tr = ([ARealDefine t prop attributes] ++ t2
               ++ [ALog (define_line path prop s b)])%list) /\
    (forall t w v w' tr,
       getPrototypeOf_trap P self path t w = (Ok v, w', tr) <->
       exists w1 s w2 t2,
         Reflect_getPrototypeOf P t w = (Ok v, w1) /\
         safeStringify P v w1 = (Ok s, w2, t2) /\
         log P self [getPrototypeOf_line path s] w2
           = (Ok tt, w', [ALog (getPrototypeOf_line path s)]) /\
         tr = ([ARealGetPrototypeOf t] ++ t2
               ++ [ALog (getPrototypeOf_line path s)])%list) /\
    (forall t proto w b w' tr,
       setPrototypeOf_trap P self path t proto w = (Ok b, w', tr) ->
       exists s w1 t1 w2,
         (safeStringify P proto w = (Ok s, w1, t1) /\
          log P self [setPrototypeOf_line path s] w1
            = (Ok tt, w2, [ALog (setPrototypeOf_line path s)]) /\
          Reflect_setPrototypeOf P t proto w2 = (Ok b, w') /\
          tr = (t1 ++ [ALog (setPrototypeOf_line path s);
                       ARealSetPrototypeOf t proto])%list)
         \/
         (Reflect_setPrototypeOf P t proto w = (Ok b, w1) /\
          safeStringify P proto w1 = (Ok s, w2, t1) /\
          log P self [setPrototypeOf_line path s] w2
            = (Ok tt, w', [ALog (setPrototypeOf_line path s)]) /\
          tr = ([ARealSetPrototypeOf t proto] ++ t1
                ++ [ALog (setPrototypeOf_line path s)])%list)) /\
    (forall t proto w s w1 t1 u w2 tl b w3 b' w1' s' w2' t1' u' w3' tl',
       safeStringify P proto w = (Ok s, w1, t1) ->
       log P self [setPrototypeOf_line path s] w1 = (Ok u, w2, tl) ->
       Reflect_setPrototypeOf P t proto w2 = (Ok b, w3) ->
       Reflect_setPrototypeOf P t proto w = (Ok b', w1') ->
       safeStringify P proto w1' = (Ok s', w2', t1') ->
       log P self [setPrototypeOf_line path s'] w2' = (Ok u', w3', tl') ->
       exists r wr tr,
         setPrototypeOf_trap P self path t proto w = (Ok r, wr, tr)) /\
    (forall t w b w' tr,
       preventExtensions_trap P self path t w = (Ok b, w', tr) ->
       exists w1,
         (log P self [preventExtensions_line path] w
            = (Ok tt, w1, [ALog (preventExtensions_line path)]) /\
          Reflect_preventExtensions P t w1 = (Ok b, w') /\
          tr = [ALog (preventExtensions_line path);
                ARealPreventExtensions t])
         \/
         (Reflect_preventExtensions P t w = (Ok b, w1) /\
          log P self [preventExtensions_line path] w1
            = (Ok tt, w', [ALog (preventExtensions_line path)]) /\
          tr = [ARealPreventExtensions t;
                ALog (preventExtensions_line path)])) /\
    (forall t w u w1 tl b w2 b' w1' u' w2' tl',
       log P self [preventExtensions_line path] w = (Ok u, w1, tl) ->
       Reflect_preventExtensions P t w1 = (Ok b, w2) ->
       Reflect_preventExtensions P t w = (Ok b', w1') ->
       log P self [preventExtensions_line path] w1' = (Ok u', w2', tl') ->
       exists r wr tr,
         preventExtensions_trap P self path t w = (Ok r, wr, tr)) /\
    (forall t w b w' tr,
       isExtensible_trap P self path t w = (Ok b, w', tr) <->
       exists w1,
         Reflect_isExtensible P t w = (Ok b, w1) /\
         log P self [isExtensible_line path b] w1
           = (Ok tt, w', [ALog (isExtensible_line path b)]) /\
         tr = [ARealIsExtensible t; ALog (isExtensible_line path b)]) /\
    (forall fn thisArg args w v w' tr,
       apply_trap P self path fn thisArg args w = (Ok v, w', tr) <->
       exists hooked w0 t0 x w1 hooked' w2 t2 name w3 name' w4 n w5 t5,
         call_beforeApply self path args w = (Ok hooked, w0, t0) /\
         Reflect_apply P fn (if bindThis self then fn else thisArg)
           (coalesce hooked args) w0 = (Ok x, w1) /\
         call_afterApply self path x w1 = (Ok hooked', w2, t2) /\
         v = coalesce hooked' x /\
         Reflect_get P fn (KStr "name") fn w2 = (Ok name, w3) /\
         Reflect_get P fn (KStr "name") fn w3 = (Ok name', w4) /\
         ToString P name' w4 = (Ok n, w5, t5) /\
         ((is_addEventListener name = true /\
           exists first w6 t6 detail w7 t7 s w8 t8,
             first_of P (coalesce hooked args) w5 = (Ok first, w6, t6) /\
             ToString P first w6 = (Ok detail, w7, t7) /\
             safeStringify P v w7 = (Ok s, w8, t8) /\
             log P self [apply_line path n detail s] w8
               = (Ok tt, w', [ALog (apply_line path n detail s)]) /\
             tr = (t0 ++ [ARealApply fn
                            (if bindThis self then fn else thisArg)
                            (coalesce hooked args)]
                   ++ t2
                   ++ [AMember fn (KStr "name"); AMember fn (KStr "name")]
                   ++ t5 ++ t6 ++ t7 ++ t8
                   ++ [ALog (apply_line path n detail s)])%list)
          \/
          (is_addEventListener name = false /\
           exists a w6 t6 s w7 t7,
             safeStringify P (coalesce hooked args) w5 = (Ok a, w6, t6) /\
             safeStringify P v w6 = (Ok s, w7, t7) /\
             log P self [apply_line path n (text_of a) s] w7
               = (Ok tt, w', [ALog (apply_line path n (text_of a) s)]) /\
             tr = (t0 ++ [ARealApply fn
                            (if bindThis self then fn else thisArg)
                            (coalesce hooked args)]
                   ++ t2
                   ++ [AMember fn (KStr "name"); AMember fn (KStr "name")]
                   ++ t5 ++ t6 ++ t7
                   ++ [ALog (apply_line path n (text_of a) s)])%list))) /\
    (forall t args newTarget w v w' tr,
       construct_trap P self path t args newTarget w = (Ok v, w', tr) <->
       exists w1 name w2 n w3 t3 a w4 t4 s w5 t5,
         Reflect_construct P t args newTarget w = (Ok v, w1) /\
         Reflect_get P t (KStr "name") t w1 = (Ok name, w2) /\
         ToString P name w2 = (Ok n, w3, t3) /\
         safeStringify P args w3 = (Ok a, w4, t4) /\
         safeStringify P v w4 = (Ok s, w5, t5) /\
         log P self [construct_line path n a s] w5
           = (Ok tt, w', [ALog (construct_line path n a s)]) /\
         tr = ([ARealConstruct t args newTarget; AMember t (KStr "name")]
               ++ t3 ++ t4 ++ t5
               ++ [ALog (construct_line path n a s)])%list).
Proof.
  intros W P self path.
  split; [exact (trap_steps W P self path)|].
  split.
  { intros t prop receiver w H. rewrite (get_trap_bypass P self path _ _ _ _ H).
    unfold perform. now destruct (Reflect_get P t prop receiver w). }
  split.
  { intros t prop receiver w v w' tr H. apply orb_false_iff in H.
    destruct H as [Hw Hc]. now apply get_trap_runs. }
  split; [intros; apply set_trap_runs|].
  split; [intros; apply has_trap_runs|].
  split; [intros; apply deleteProperty_trap_runs|].
  split; [intros; apply defineProperty_trap_runs|].
  split; [intros; apply getPrototypeOf_trap_runs|].
  split.
  { intros t proto w b w' tr H. apply setPrototypeOf_trap_runs in H.
    destruct H as (s & w1 & t1 & w2 & Hs & Hl & Hr & ->).
    exists s, w1, t1, w2. left. now repeat split. }
  split.
  { intros t proto w s w1 t1 u w2 tl b w3 b' w1' s' w2' t1' u' w3' tl'
      Hs Hl Hr _ _ _.
    do 3 eexists. apply setPrototypeOf_trap_runs.
    apply log_line_run in Hl. do 4 eexists.
    split; [exact Hs|]. split; [exact Hl|]. split; [exact Hr|]. reflexivity. }
  split.
  { intros t w b w' tr H. apply preventExtensions_trap_runs in H.
    destruct H as (w1 & Hl & Hr & ->). exists w1. left. now repeat split. }
  split.
  { intros t w u w1 tl b w2 b' w1' u' w2' tl' Hl Hr _ _.
    do 3 eexists. apply preventExtensions_trap_runs.
    apply log_line_run in Hl. eexists.
    split; [exact Hl|]. split; [exact Hr|]. reflexivity. }
  split; [intros; apply isExtensible_trap_runs|].
  split; [intros; apply apply_trap_runs|].
  intros; apply construct_trap_runs.
Qed.

(** C7, amended: the path logged for a read is the path of the object the
    read is made on, the chain from [contextName] down to the parent of the
    member; the member's key is a separate field of the line.  The line of a
    read of [prop] at [path] is
    [調用者 => [path] 獲取屬性 => [prop], 結果 => [...]].  The dot-joined
    string [path.prop] is computed and becomes the path of the wrapper made
    for the value read.  The line of every other trap starts with the same
    actor field, holding the path of the wrapper the operation is made
    on.  In a run in which the before-read hook, the real read, the
    after-read hook, the serializer and the sink return, the read trap
    sends that line and returns. *)
Theorem logged_path_is_the_parent_path :
  forall (W : Type) (P : Platform W) (self : options W) (path : string)
         (t : value) (prop : key) (receiver : value),
    not_watched self prop = false ->
    includes "console" path = false ->
    (forall w u w0 t0 x w1 hooked w2 t2 s w3 t3 u' w4 tl,
       call_beforeGet self path prop w = (Ok u, w0, t0) ->
       Reflect_get P t prop receiver w0 = (Ok x, w1) ->
       call_afterGet self path prop (wrapped_read path prop x) w1
         = (Ok hooked, w2, t2) ->
       safeStringify P (coalesce hooked (wrapped_read path prop x)) w2
         = (Ok s, w3, t3) ->
       log P self [get_line path prop s] w3 = (Ok u', w4, tl) ->
       get_trap P self path t prop receiver w
         = (Ok (coalesce hooked (wrapped_read path prop x)), w4,
            (t0 ++ [ARealGet t prop receiver] ++ t2 ++ t3
             ++ [ALog (get_line path prop s)])%list) /\
       log_lines (t0 ++ [ARealGet t prop receiver] ++ t2 ++ t3
                  ++ [ALog (get_line path prop s)])
         = [get_line path prop s]) /\
    (forall w v w' tr,
       get_trap P self path t prop receiver w = (Ok v, w', tr) ->
       (exists s,
          log_lines tr =
            ["調用者 => [" ++ path ++ "] 獲取屬性 => [" ++ propStr prop
             ++ "], 結果 => [" ++ text_of s ++ "]"]) /\
       (afterGet self = None -> is_object v = true ->
        exists x, v = VProxy x (path ++ "." ++ String_key prop) \/
                  v = VFunProxy x (path ++ "." ++ String_key prop))) /\
    ((forall value w v w' tr,
        set_trap P self path t prop value receiver w = (Ok v, w', tr) ->
        one_line_at path tr) /\
     (forall w v w' tr,
        has_trap P self path t prop w = (Ok v, w', tr) ->
        one_line_at path tr) /\
     (forall w v w' tr,
        deleteProperty_trap P self path t prop w = (Ok v, w', tr) ->
        one_line_at path tr) /\
     (forall attributes w v w' tr,
        defineProperty_trap P self path t prop attributes w = (Ok v, w', tr) ->
        one_line_at path tr) /\
     (forall w v w' tr,
        getPrototypeOf_trap P self path t w = (Ok v, w', tr) ->
        one_line_at path tr) /\
     (forall proto w v w' tr,
        setPrototypeOf_trap P self path t proto w = (Ok v, w', tr) ->
        one_line_at path tr) /\
     (forall w v w' tr,
        preventExtensions_trap P self path t w = (Ok v, w', tr) ->
        one_line_at path tr) /\
     (forall w v w' tr,
        isExtensible_trap P self path t w = (Ok v, w', tr) ->
        one_line_at path tr) /\
     (forall thisArg args w v w' tr,
        apply_trap P self path t thisArg args w = (Ok v, w', tr) ->
        one_line_at path tr) /\
     (forall args newTarget w v w' tr,
        construct_trap P self path t args newTarget w = (Ok v, w', tr) ->
        one_line_at path tr)).
Proof.
  intros W P self path t prop receiver Hw Hc.
  split.
  { intros w u w0 t0 x w1 hooked w2 t2 s w3 t3 u' w4 tl Hb Hg Ha Hs Hl.
    split.
    - exact (get_trap_forward P self path t prop receiver w _ _ _ _ _ _ _ _
               _ _ _ _ _ _ Hw Hc Hb Hg Ha Hs Hl).
    - pose proof (lines_of_run _ _ _ _ _ (optional_call_lines _ _ _ _ _ _) Hb)
        as L0.
      pose proof (lines_of_run _ _ _ _ _ (optional_call_lines _ _ _ _ _ _) Ha)
        as L2.
      pose proof (lines_of_run _ _ _ _ _
                    (proj1 (proj2 (safeStringify_quiet P _ _))) Hs) as L3.
      rewrite !log_lines_app, L0, L2, L3. reflexivity. }
  split.
  2: {
    split; [intros; now destruct (set_trap_shape P self path _ _ _ _ _ _ _ _ H)|].
    split; [intros; now destruct (has_trap_shape P self path _ _ _ _ _ _ H)|].
    split; [intros;
            now destruct (deleteProperty_trap_shape P self path _ _ _ _ _ _ H)|].
    split; [intros;
            now destruct (defineProperty_trap_shape P self path _ _ _ _ _ _ _ H)|].
    split; [intros;
            now destruct (getPrototypeOf_trap_shape P self path _ _ _ _ _ H)|].
    split; [intros;
            now destruct (setPrototypeOf_trap_shape P self path _ _ _ _ _ _ H)|].
    split; [intros;
            now destruct (preventExtensions_trap_shape P self path _ _ _ _ _ H)|].
    split; [intros;
            now destruct (isExtensible_trap_shape P self path _ _ _ _ _ H)|].
    split; [intros;
            now destruct (apply_trap_steps P self path _ _ _ _ _ _ _ H)|].
    intros. now destruct (construct_trap_shape P self path _ _ _ _ _ _ _ H). }
  intros w v w' tr H. split.
  - destruct (get_trap_shape P self path t prop receiver w v w' tr Hw Hc H)
      as [_ [s Hs]]. now exists s.
  - intros Hn Ho.
    destruct (get_trap_plain P self path t prop receiver w v w' tr Hn Hw Hc H)
      as [x ->].
    exists x.
    destruct (wrapped_read_cases path prop x) as [[_ Hx]|[Hp Hx]];
      [exact Hx|].
    rewrite Hx in Ho. unfold is_primitive in Hp. rewrite Ho in Hp.
    discriminate.
Qed.

(** C3, amended: the exemption is applied by the read trap.  A read at a
    path in which [console] occurs sends nothing to the sink, calls no hook
    and returns what the real read returned; so a member read below the
    exempt path is not a wrapper made by that read, and calling a value that
    is not a wrapper sends nothing to the sink and calls no hook either. *)
Theorem exempt_read_is_silent :
  forall (W : Type) (P : Platform W) (self : options W) (path : string)
         (t : value) (prop : key) (receiver : value) (w : W),
    includes "console" path = true ->
    let r := get_trap P self path t prop receiver w in
    log_lines (trace_of r) = [] /\
    existsb is_hook (trace_of r) = false /\
    result_of r = fst (Reflect_get P t prop receiver w) /\
    (forall x thisArg args w1,
       result_of r = Ok x -> is_wrapped x = false ->
       log_lines (trace_of (invoke P self x thisArg args w1)) = [] /\
       existsb is_hook (trace_of (invoke P self x thisArg args w1)) = false).
Proof.
  intros W P self path t prop receiver w H r.
  assert (E : r = perform (ARealGet t prop receiver)
                    (Reflect_get P t prop receiver) w).
  { apply get_trap_bypass. rewrite H. apply orb_true_r. }
  rewrite E. unfold perform at 1 2 3.
  destruct (Reflect_get P t prop receiver w) as [o w1] eqn:R.
  split; [reflexivity|]. split; [reflexivity|]. split; [reflexivity|].
  intros x thisArg args w0 _ Hx.
  destruct x; try discriminate; simpl; unfold perform;
    destruct (Reflect_apply P _ thisArg args w0); split; reflexivity.
Qed.

(** ** What an invocation calls and logs *)


(** C9: with [bindThis] set, the receiver of the real call is the wrapped
    function itself; without it, the receiver is the one the caller gave.
    Once the before-call hook has returned, the trap makes the real call
    with that receiver: what the call throws the trap throws, and a trap
    that returns has had its result from that call.  The trap returns
    exactly when, in that run, the hooks, that call and the parts of the
    line return. *)
Theorem apply_receiver :
  forall (W : Type) (P : Platform W) (self : options W) (path : string)
         (fn thisArg args : value) (w : W),
    (bindThis self = true ->
     (if bindThis self then fn else thisArg) = fn) /\
    (bindThis self = false ->
     (if bindThis self then fn else thisArg) = thisArg) /\
    (forall hooked w0 t0 e w1,
       call_beforeApply self path args w = (Ok hooked, w0, t0) ->
       Reflect_apply P fn (if bindThis self then fn else thisArg)
         (coalesce hooked args) w0 = (Throw e, w1) ->
       apply_trap P self path fn thisArg args w
       = (Throw e, w1,
          (t0 ++ [ARealApply fn (if bindThis self then fn else thisArg)
                    (coalesce hooked args)])%list)) /\
    (forall v w' tr,
       apply_trap P self path fn thisArg args w = (Ok v, w', tr) ->
       exists hooked w0 t0 x w1 hooked' w2 t2,
         call_beforeApply self path args w = (Ok hooked, w0, t0) /\
         Reflect_apply P fn (if bindThis self then fn else thisArg)
           (coalesce hooked args) w0 = (Ok x, w1) /\
         call_afterApply self path x w1 = (Ok hooked', w2, t2) /\
         v = coalesce hooked' x /\
         real_operations tr
         = [ARealApply fn (if bindThis self then fn else thisArg)
              (coalesce hooked args)]) /\
    (forall hooked w0 t0 x w1 hooked' w2 t2 name w3 name' w4 n w5 t5
            first w6 t6 detail w7 t7 s w8 t8 u w9 tl,
       call_beforeApply self path args w = (Ok hooked, w0, t0) ->
       Reflect_apply P fn (if bindThis self then fn else thisArg)
         (coalesce hooked args) w0 = (Ok x, w1) ->
       call_afterApply self path x w1 = (Ok hooked', w2, t2) ->
       Reflect_get P fn (KStr "name") fn w2 = (Ok name, w3) ->
       is_addEventListener name = true ->
       Reflect_get P fn (KStr "name") fn w3 = (Ok name', w4) ->
       ToString P name' w4 = (Ok n, w5, t5) ->
       first_of P (coalesce hooked args) w5 = (Ok first, w6, t6) ->
       ToString P first w6 = (Ok detail, w7, t7) ->
       safeStringify P (coalesce hooked' x) w7 = (Ok s, w8, t8) ->
       log P self [apply_line path n detail s] w8 = (Ok u, w9, tl) ->
       apply_trap P self path fn thisArg args w
       = (Ok (coalesce hooked' x), w9,
          (t0 ++ [ARealApply fn (if bindThis self then fn else thisArg)
                    (coalesce hooked args)]
           ++ t2 ++ [AMember fn (KStr "name"); AMember fn (KStr "name")]
           ++ t5 ++ t6 ++ t7 ++ t8 ++ tl)%list)) /\
    (forall hooked w0 t0 x w1 hooked' w2 t2 name w3 name' w4 n w5 t5
            a w6 t6 s w7 t7 u w8 tl,
       call_beforeApply self path args w = (Ok hooked, w0, t0) ->
       Reflect_apply P fn (if bindThis self then fn else thisArg)
         (coalesce hooked args) w0 = (Ok x, w1) ->
       call_afterApply self path x w1 = (Ok hooked', w2, t2) ->
       Reflect_get P fn (KStr "name") fn w2 = (Ok name, w3) ->
       is_addEventListener name = false ->
       Reflect_get P fn (KStr "name") fn w3 = (Ok name', w4) ->
       ToString P name' w4 = (Ok n, w5, t5) ->
       safeStringify P (coalesce hooked args) w5 = (Ok a, w6, t6) ->
       safeStringify P (coalesce hooked' x) w6 = (Ok s, w7, t7) ->
       log P self [apply_line path n (text_of a) s] w7 = (Ok u, w8, tl) ->
       apply_trap P self path fn thisArg args w
       = (Ok (coalesce hooked' x), w8,
          (t0 ++ [ARealApply fn (if bindThis self then fn else thisArg)
                    (coalesce hooked args)]
           ++ t2 ++ [AMember fn (KStr "name"); AMember fn (KStr "name")]
           ++ t5 ++ t6 ++ t7 ++ tl)%list)).
Proof.
  intros W P self path fn thisArg args w.
  split; [now intros ->|]. split; [now intros ->|].
  split; [|split; [|split]].
  - intros hooked w0 t0 e w1 Hb Hr. unfold apply_trap. cbv zeta. run Hb.
    now rewrite (bind_throw _ _ _ _ _ _ (perform_run _ _ _ _ _ Hr)).
  - intros v w' tr H.
    exact (apply_trap_real_operation P self path fn thisArg args w v w' tr H).
  - intros. eapply apply_trap_listener; eassumption.
  - intros. eapply apply_trap_other; eassumption.
Qed.

(** ** What escapes through a wrapper *)

Section Results.
Context {W : Type}.
Variable P : Platform W.
Variable self : options W.

(** The construct trap returns what the real construction returned. *)
Lemma construct_trap_result path target args newTarget (w : W) v w' tr :
  construct_trap P self path target args newTarget w = (Ok v, w', tr) ->
  exists w1, Reflect_construct P target args newTarget w = (Ok v, w1).
Proof.
  unfold construct_trap. intros H. split_run H as Real H.
  apply perform_ok in Real. destruct Real as [Real _].
  crunch. eexists. exact Real.
Qed.
End Results.

(** C1, amended: wrapping is a step of the read trap only.  Along a chain of
    reads [wrap(v).a.b.c] that returns, in which every read is made on a
    wrapper built by [createProxy], every key is watched, no after-read hook
    is configured and [console] does not occur in the path, the value handed
    back is a primitive or a wrapper whose path is the dot-joined chain.  A
    call through a wrapped function hands back exactly the value the real
    call returned (or the after-call hook's value), a construction exactly
    the value the real construction returned, and a read on a wrapped
    function is the real read alone: none of them wraps. *)
Theorem only_instrumented_reads_wrap :
  forall (W : Type) (P : Platform W) (E : Engine W) (self : options W),
    (forall props path t w v w' tr,
       afterGet self = None ->
       (forall k, In k props -> not_watched self k = false) ->
       includes "console" (extend_path path props) = false ->
       read_chain P E self (VProxy t path) props w = (Ok v, w', tr) ->
       forallb through_object_wrapper tr = true ->
       is_primitive v = true \/
       (exists x, v = VProxy x (extend_path path props)) \/
       (exists x, v = VFunProxy x (extend_path path props))) /\
    (forall path fn thisArg args w v w' tr,
       invoke P self (VFunProxy fn path) thisArg args w = (Ok v, w', tr) ->
       exists hooked w0 t0 x w1 hooked' w2 t2,
         call_beforeApply self path args w = (Ok hooked, w0, t0) /\
         Reflect_apply P fn (if bindThis self then fn else thisArg)
           (coalesce hooked args) w0 = (Ok x, w1) /\
         call_afterApply self path x w1 = (Ok hooked', w2, t2) /\
         v = coalesce hooked' x) /\
    (forall path fn args w v w' tr,
       instantiate P self (VFunProxy fn path) args w = (Ok v, w', tr) ->
       exists w1,
         Reflect_construct P fn args (VFunProxy fn path) w = (Ok v, w1)) /\
    (forall path fn prop w,
       read P E self (VFunProxy fn path) prop w
       = (fst (Reflect_get P fn prop (VFunProxy fn path) w),
          snd (Reflect_get P fn prop (VFunProxy fn path) w),
          [ARealGet fn prop (VFunProxy fn path)])).
Proof.
  intros W P E self. split; [|split; [|split]].
  - intros. eapply read_chain_wrapped; eassumption.
  - intros path fn thisArg args w v w' tr H. cbn [invoke] in H.
    destruct (apply_trap_real_operation P self path fn thisArg args w v w' tr
                H)
      as (hooked & w0 & t0 & x & w1 & hooked' & w2 & t2
          & Hb & Hr & Ha & Hv & _).
    now exists hooked, w0, t0, x, w1, hooked', w2, t2.
  - intros path fn args w v w' tr H.
    exact (construct_trap_result P self path fn args _ w v w' tr H).
  - intros. cbn [read]. unfold perform.
    now destruct (Reflect_get P fn prop _ w).
Qed.

(** * The traps at work in a browser-like environment *)

(** In the runtime in which nothing throws, a read through the wrapper of an
    object returns, with the single line of that read. *)
Lemma still_read :
  get_trap Still.runtime (default_options unit) "obj" (VObj 0) (KStr "a")
    (VProxy (VObj 0) "obj") tt
  = (Ok VUndefined, tt,
     [ARealGet (VObj 0) (KStr "a") (VProxy (VObj 0) "obj");
      ALog "調用者 => [obj] 獲取屬性 => [a], 結果 => [undefined]"]).
Proof. reflexivity. Qed.

(** C1, as stated, fails: the result of a call or of a construction through
    a wrapped function is handed back as the real function returned it.
    [env.createElement('img')] and [new env.Image()] both give the raw
    element object 8. *)
Lemma call_and_construct_results_are_raw :
  result_of (read Env.runtime Env.engine (Env.options_for "env")
               (VProxy Env.env "env") (KStr "createElement") Env.browser)
    = Ok (VFunProxy (VFun 5) "env.createElement") /\
  result_of (invoke Env.runtime (Env.options_for "env")
               (VFunProxy (VFun 5) "env.createElement")
               (VProxy Env.env "env") (VArr [VStr "img"]) Env.browser)
    = Ok (VObj 8) /\
  result_of (instantiate Env.runtime (Env.options_for "env")
               (VFunProxy (VFun 7) "env.Image") (VArr []) Env.browser)
    = Ok (VObj 8) /\
  is_object (VObj 8) = true /\
  is_wrapped (VObj 8) = false.
Proof. vm_compute. repeat split; reflexivity. Qed.

(** [env.screen.orientation]: two reads, each on a wrapper, and the wrapper
    at the dot-joined path comes back. *)
Lemma only_instrumented_reads_wrap_witness :
  result_of Cases.read_screen_orientation
    = Ok (VProxy (VObj 3) "env.screen.orientation") /\
  (is_primitive (VProxy (VObj 3) "env.screen.orientation") = true \/
   (exists x, VProxy (VObj 3) "env.screen.orientation"
              = VProxy x (extend_path "env" [KStr "screen"; KStr "orientation"])) \/
   (exists x, VProxy (VObj 3) "env.screen.orientation"
              = VFunProxy x
                  (extend_path "env" [KStr "screen"; KStr "orientation"]))).
Proof.
  assert (R : Cases.read_screen_orientation
              = (Ok (VProxy (VObj 3) "env.screen.orientation"),
                 world_of Cases.read_screen_orientation,
                 trace_of Cases.read_screen_orientation))
    by (vm_compute; reflexivity).
  assert (T : forallb through_object_wrapper
                (trace_of Cases.read_screen_orientation) = true)
    by (vm_compute; reflexivity).
  split; [now rewrite R|].
  exact (proj1 (only_instrumented_reads_wrap _ Env.runtime Env.engine
                  (Env.options_for "env"))
           [KStr "screen"; KStr "orientation"] "env" Env.env Cases.nested
           _ _ _ eq_refl (fun k _ => eq_refl) eq_refl R T).
Defined.

(** C2: with [watchedProps = {'userAgent'}], a write, an existence check, a
    deletion and a definition on the unwatched key [platform] each send a
    line to the sink; only the read passes through unlogged. *)
Lemma unwatched_key_operations_are_logged :
  not_watched Env.watching_userAgent (KStr "platform") = true /\
  log_lines (trace_of (get_trap Env.runtime Env.watching_userAgent
                         "env.navigator" Env.navigator (KStr "platform")
                         Env.navigator Env.browser)) = [] /\
  log_lines (trace_of (set_trap Env.runtime Env.watching_userAgent
                         "env.navigator" Env.navigator (KStr "platform")
                         (VStr "x") Env.navigator Env.browser))
    = ["調用者 => [env.navigator] 設置屬性 => [platform], 值為 => [x]"] /\
  log_lines (trace_of (has_trap Env.runtime Env.watching_userAgent
                         "env.navigator" Env.navigator (KStr "platform")
                         Env.browser))
    = ["調用者 => [env.navigator] in 操作符檢查屬性 => [platform], 結果 => [true]"] /\
  log_lines (trace_of (deleteProperty_trap Env.runtime Env.watching_userAgent
                         "env.navigator" Env.navigator (KStr "platform")
                         Env.browser))
    = ["調用者 => [env.navigator] 刪除屬性 => [platform], 結果 => [true]"] /\
  length (log_lines (trace_of (defineProperty_trap Env.runtime
                                 Env.watching_userAgent "env.navigator"
                                 Env.navigator (KStr "platform") (VObj 8)
                                 Env.browser))) = 1.
Proof. vm_compute. repeat split; reflexivity. Qed.

(** C3, as stated, fails: an existence check at the exempt path
    [env.console] sends a line to the sink, and so does a call through a
    function wrapper whose path is [console.log]. *)
Lemma operations_below_console_are_logged :
  includes "console" "env.console" = true /\
  log_lines (trace_of (has_trap Env.runtime (Env.options_for "env")
                         "env.console" (VObj 3) (KStr "log") Env.browser))
    = ["調用者 => [env.console] in 操作符檢查屬性 => [log], 結果 => [true]"] /\
  includes "console" "console.log" = true /\
  length (log_lines (trace_of (apply_trap Env.runtime
                                 (Env.options_for "console.log")
                                 "console.log" (VFun 6) VUndefined
                                 (VArr [VStr "hi"]) Env.browser))) = 1.
Proof. vm_compute. repeat split; reflexivity. Qed.

Lemma exempt_read_is_silent_witness :
  log_lines (trace_of Env.read_console_log) = [] /\
  existsb is_hook (trace_of Env.read_console_log) = false /\
  result_of Env.read_console_log
    = fst (Env.get (VObj 3) (KStr "log") (VProxy (VObj 3) "env.console")
             Env.browser) /\
  (forall x thisArg args w1,
     result_of Env.read_console_log = Ok x -> is_wrapped x = false ->
     log_lines (trace_of (invoke Env.runtime (Env.options_for "env") x
                            thisArg args w1)) = [] /\
     existsb is_hook (trace_of (invoke Env.runtime (Env.options_for "env") x
                                  thisArg args w1)) = false).
Proof.
  exact (exempt_read_is_silent _ Env.runtime (Env.options_for "env")
           "env.console" (VObj 3) (KStr "log")
           (VProxy (VObj 3) "env.console") Env.browser eq_refl).
Defined.

(** The serializer on the environment object, which refers to itself, on a
    big integer and on a symbol. *)
Lemma safeStringify_by_kind_witness :
  result_of (safeStringify Env.runtime Env.env Env.browser)
    = Throw (TypeError "Converting circular structure to JSON") /\
  safeStringify Env.runtime (VBigInt 12345678901234567890) Env.browser
    = (Ok (Some "12345678901234567890"), Env.browser, []) /\
  safeStringify Env.runtime (VSym 0 (Some "id")) Env.browser
    = (Ok (Some "Symbol(id)"), Env.browser, []).
Proof.
  pose proof (safeStringify_by_kind _ Env.runtime Env.env Env.browser)
    as (_ & _ & Hobj & _).
  pose proof (safeStringify_by_kind _ Env.runtime
                (VBigInt 12345678901234567890) Env.browser)
    as (_ & _ & _ & _ & Hbig & _).
  pose proof (safeStringify_by_kind _ Env.runtime (VSym 0 (Some "id"))
                Env.browser)
    as (_ & _ & _ & _ & _ & Hsym).
  split; [|split].
  - apply (proj2 (Hobj eq_refl eq_refl) _ Env.browser). reflexivity.
  - exact (Hbig _ eq_refl).
  - exact (Hsym _ _ eq_refl).
Defined.

(** C5, as stated, fails twice.  With [contextName = 'console'] no key is
    excluded and no hook is configured, yet reading the function [log]
    returns the raw function.  And reading [env.performance], whose real
    read succeeds, throws: the object holds a big integer and cannot be
    serialized for the log line. *)
Lemma read_contract_breaks_at_console_and_on_big_integers :
  not_watched (Env.options_for "console") (KStr "log") = false /\
  Env.get (VObj 3) (KStr "log") (VProxy (VObj 3) "console") Env.browser
    = (Ok (VFun 6), Env.browser) /\
  typeof (VFun 6) = TFunction /\
  result_of (read Env.runtime Env.engine (Env.options_for "console")
               (VProxy (VObj 3) "console") (KStr "log") Env.browser)
    = Ok (VFun 6) /\
  is_wrapped (VFun 6) = false /\
  not_watched (Env.options_for "env") (KStr "performance") = false /\
  Env.get Env.env (KStr "performance") (VProxy Env.env "env") Env.browser
    = (Ok (VObj 10), Env.browser) /\
  result_of (read Env.runtime Env.engine (Env.options_for "env")
               (VProxy Env.env "env") (KStr "performance") Env.browser)
    = Throw (TypeError "Do not know how to serialize a BigInt").
Proof. vm_compute. repeat split; reflexivity. Qed.

(** [env.navigator], read on the wrapper of [env]: one real read, and the
    read returns what the trap returned once the engine has accepted it. *)
Lemma read_contract_witness :
  real_operations (trace_of Cases.read_navigator_through)
    = [ARealGet Env.env (KStr "navigator") (VProxy Env.env "env")] /\
  Cases.read_navigator_through
    = (Ok Cases.spy, world_of Cases.read_navigator,
       trace_of Cases.read_navigator).
Proof.
  pose proof (read_contract _ Env.runtime Env.engine (Env.options_for "env")
                "env" Env.env (KStr "navigator") Env.browser eq_refl eq_refl)
    as (_ & Back & _ & Forth).
  assert (R : Cases.read_navigator_through
              = (Ok Cases.spy, world_of Cases.read_navigator_through,
                 trace_of Cases.read_navigator_through))
    by (vm_compute; reflexivity).
  split; [exact (proj1 (Back _ _ _ R))|].
  exact (proj2 (Forth _ _ _ _ _ _ _ _ _ _ _ _ _ _
                  eq_refl eq_refl eq_refl eq_refl eq_refl)
           _ eq_refl).
Defined.

(** C5, beside the two failures by design: with every object frozen, the
    trap of [env.navigator] returns the wrapper and has logged the read,
    and the engine throws; the read of the string [language] is
    accepted. *)
Lemma frozen_target_reads :
  result_of Cases.read_navigator = Ok Cases.spy /\
  length (log_lines (trace_of Cases.read_navigator)) = 1 /\
  (exists msg, result_of Cases.read_frozen_navigator = Throw (TypeError msg)) /\
  trace_of Cases.read_frozen_navigator = trace_of Cases.read_navigator /\
  result_of Cases.read_frozen_language = Ok (VStr "en-US").
Proof.
  split; [vm_compute; reflexivity|]. split; [vm_compute; reflexivity|].
  split; [|split; vm_compute; reflexivity].
  assert (R : Cases.read_navigator
              = (Ok Cases.spy, world_of Cases.read_navigator,
                 trace_of Cases.read_navigator))
    by (vm_compute; reflexivity).
  destruct (pinned_property_read_throws _ Env.runtime Cases.frozen
              (Env.options_for "env") "env" Env.env (KStr "navigator")
              Env.browser _ _ _ Env.navigator _ R eq_refl eq_refl)
    as [msg Q].
  exists msg. unfold Cases.read_frozen_navigator. now rewrite Q.
Qed.

(** C6, as stated, fails: only the read trap has a wrapping step.  The
    construct trap and the invoke trap go real operation, log, return, and
    the element object their real operation yields is returned without a
    wrapper. *)
Lemma construct_and_invoke_have_no_wrapping_step :
  result_of Env.new_image = Ok (VObj 8) /\
  steps (trace_of Env.new_image) = [SReal; SLog] /\
  result_of Env.create_element = Ok (VObj 8) /\
  steps (trace_of Env.create_element) = [SReal; SLog] /\
  is_object (VObj 8) = true /\
  is_wrapped (VObj 8) = false.
Proof. vm_compute. repeat split; reflexivity. Qed.

Lemma trap_step_order_witness :
  steps (trace_of Env.new_image) = [SReal; SLog] /\
  Cases.has_userAgent
    = (Ok true,
       Cases.printed_line (has_line "env.navigator" (KStr "userAgent") true),
       [ARealHas Env.navigator (KStr "userAgent");
        ALog (has_line "env.navigator" (KStr "userAgent") true)]).
Proof.
  assert (R : Env.new_image
              = (Ok (VObj 8), world_of Env.new_image, trace_of Env.new_image))
    by (vm_compute; reflexivity).
  split.
  - pose proof (proj1 (trap_step_order _ Env.runtime (Env.options_for "env")
                         "env.Image"))
      as (_ & _ & _ & _ & _ & _ & _ & _ & _ & _ & _ & Hnew).
    exact (Hnew (VFun 7) (VArr []) (VFunProxy (VFun 7) "env.Image")
             Env.browser _ _ _ R).
  - pose proof (proj2 (trap_step_order _ Env.runtime (Env.options_for "env")
                         "env.navigator"))
      as (_ & _ & _ & Hhas & _).
    apply (proj2 (Hhas _ _ _ _ _ _)). exists Env.browser.
    split; [reflexivity|]. split; reflexivity.
Defined.

(** [Object.setPrototypeOf(wrapper, null)] and
    [Object.preventExtensions(wrapper)] on the wrapper of [navigator]: what
    the two traps do, in order. *)
Lemma prototype_traps_trace :
  trace_of Env.clear_prototype
    = [ALog "調用者 => [env.navigator] 設置原型 => [null]";
       ARealSetPrototypeOf Env.navigator VNull] /\
  trace_of (preventExtensions_trap Env.runtime (Env.options_for "env")
              "env.navigator" Env.navigator Env.browser)
    = [ALog "調用者 => [env.navigator] 防止物件擴展 => []";
       ARealPreventExtensions Env.navigator].
Proof. vm_compute. split; reflexivity. Qed.

(** C7, as stated, fails: reading [.navigator.language] from the wrapper of
    [env] ends with the line of the second read, whose path is
    [env.navigator] and whose key is [language]; the string
    [env.navigator.language] is in no line the two reads send to the
    sink. *)
Lemma no_line_carries_the_member_path :
  result_of Env.read_navigator_language = Ok (VStr "en-US") /\
  last (log_lines (trace_of Env.read_navigator_language)) ""
    = "調用者 => [env.navigator] 獲取屬性 => [language], 結果 => [en-US]" /\
  existsb (includes "env.navigator.language")
    (log_lines (trace_of Env.read_navigator_language)) = false.
Proof. vm_compute. repeat split; reflexivity. Qed.

Lemma logged_path_is_the_parent_path_witness :
  (exists s,
     log_lines
       (trace_of (get_trap Env.runtime (Env.options_for "env") "env" Env.env
                    (KStr "navigator") (VProxy Env.env "env") Env.browser))
     = ["調用者 => [" ++ "env" ++ "] 獲取屬性 => ["
        ++ propStr (KStr "navigator") ++ "], 結果 => [" ++ text_of s ++ "]"]) /\
  (afterGet (Env.options_for "env") = None ->
   is_object (VProxy Env.navigator "env.navigator") = true ->
   exists x,
     VProxy Env.navigator "env.navigator"
     = VProxy x ("env" ++ "." ++ String_key (KStr "navigator")) \/
     VProxy Env.navigator "env.navigator"
     = VFunProxy x ("env" ++ "." ++ String_key (KStr "navigator"))).
Proof.
  pose (r := get_trap Env.runtime (Env.options_for "env") "env" Env.env
               (KStr "navigator") (VProxy Env.env "env") Env.browser).
  assert (E : r = (Ok (VProxy Env.navigator "env.navigator"),
                   world_of r, trace_of r))
    by (vm_compute; reflexivity).
  exact (proj1 (proj2 (logged_path_is_the_parent_path _ Env.runtime
                         (Env.options_for "env") "env" Env.env
                         (KStr "navigator") (VProxy Env.env "env")
                         eq_refl eq_refl))
           Env.browser _ _ _ E).
Defined.

(** [env.addEventListener('click', listener)]: the detail is [click]. *)
Lemma listen_click_line :
  log_lines (trace_of Env.listen_click)
    = ["調用者 => [env.addEventListener] 調用函數 => [addEventListener], 傳參 => [click], 結果 => [undefined]"] /\
  existsb (fun a => match a with AStringify _ => true | _ => false end)
    (trace_of Env.listen_click) = false.
Proof. vm_compute. split; reflexivity. Qed.


(** [createElement.call(navigator, 'img')] with [bindThis] set: the real
    call has the function itself as receiver. *)
Lemma apply_receiver_witness :
  exists hooked w0 t0 x w1 hooked' w2 t2,
    call_beforeApply (Env.binding "createElement") "createElement"
      (VArr [VStr "img"]) Env.browser = (Ok hooked, w0, t0) /\
    Env.call (VFun 5) (VFun 5) (coalesce hooked (VArr [VStr "img"])) w0
      = (Ok x, w1) /\
    call_afterApply (Env.binding "createElement") "createElement" x w1
      = (Ok hooked', w2, t2) /\
    VObj 8 = coalesce hooked' x /\
    real_operations (trace_of Env.bound_call)
      = [ARealApply (VFun 5) (VFun 5) (coalesce hooked (VArr [VStr "img"]))].
Proof.
  assert (R : Env.bound_call
              = (Ok (VObj 8), world_of Env.bound_call,
                 trace_of Env.bound_call))
    by (vm_compute; reflexivity).
  exact (proj1 (proj2 (proj2 (proj2
                  (apply_receiver _ Env.runtime (Env.binding "createElement")
                     "createElement" (VFun 5) Env.navigator
                     (VArr [VStr "img"]) Env.browser))))
           _ _ _ R).
Defined.

(** With [bindThis] set the real call of [createElement] has the function
    itself as receiver, not the [navigator] the caller passed. *)
Lemma bound_call_trace :
  real_operations (trace_of Env.bound_call)
    = [ARealApply (VFun 5) (VFun 5) (VArr [VStr "img"])].
Proof. vm_compute. reflexivity. Qed.

(** [consoleData] is not the console, and a context named [myconsole] is
    not below one; reads at both paths are raw all the same. *)
Lemma console_substring_read_is_raw_witness :
  includes "console" "env.consoleData" = true /\
  includes "console" "myconsole" = true /\
  get_trap Env.runtime (Env.options_for "env") "env.consoleData" (VObj 9)
    (KStr "entries") (VProxy (VObj 9) "env.consoleData") Env.browser
  = (Ok (VObj 8), Env.browser,
     [ARealGet (VObj 9) (KStr "entries") (VProxy (VObj 9) "env.consoleData")]).
Proof.
  split; [reflexivity|]. split; [reflexivity|].
  exact (console_substring_read_is_raw _ Env.runtime (Env.options_for "env")
           "env.consoleData" (VObj 9) (KStr "entries")
           (VProxy (VObj 9) "env.consoleData") Env.browser eq_refl).
Defined.

(** * Further properties of the handlers *)

(** ** Walking a trap's trace, whatever its outcome *)

Lemma rendering_is_auxiliary (a : action) :
  is_rendering a = true -> auxiliary a = true.
Proof. now destruct a. Qed.

Lemma rendering_is_no_hook (allowed : list hook_id) (a : action) :
  is_rendering a = true -> only_hooks allowed a = true.
Proof. now destruct a. Qed.

Lemma rendering_is_no_member (a : action) :
  is_rendering a = true -> negb (is_member a) = true.
Proof. now destruct a. Qed.

Lemma typeof_function_callable (v : value) :
  type_tag_eqb (typeof v) TFunction = callable v.
Proof.
  destruct v; try reflexivity; cbn [typeof];
    destruct (callable _); reflexivity.
Qed.

Section Walk.
Context {W : Type}.
Variable P : Platform W.
Variable self : options W.
Variable Q : action -> bool.
Hypothesis rendering : forall a, is_rendering a = true -> Q a = true.
Hypothesis members : forall o prop, Q (AMember o prop) = true.

Lemma member_all o prop (w : W) :
  forallb Q (trace_of (member P o prop w)) = true.
Proof. apply perform_all. apply members. Qed.

Lemma first_of_all args (w : W) :
  forallb Q (trace_of (first_of P args w)) = true.
Proof.
  destruct args; try apply member_all. destruct elems; reflexivity.
Qed.

Lemma ToString_all v (w : W) :
  forallb Q (trace_of (ToString P v w)) = true.
Proof.
  destruct v; simpl; try reflexivity; apply perform_all; now apply rendering.
Qed.

Lemma String_all v (w : W) :
  forallb Q (trace_of (String_ P v w)) = true.
Proof. destruct v; try apply ToString_all. reflexivity. Qed.

Lemma safeStringify_all v (w : W) :
  forallb Q (trace_of (safeStringify P v w)) = true.
Proof.
  unfold safeStringify.
  destruct (nullish v);
    [|destruct (type_tag_eqb (typeof v) TObject);
       [apply perform_all; now apply rendering|]];
    (apply bind_all; [apply String_all | reflexivity]).
Qed.

Lemma log_all messages (w : W) :
  forallb Q (trace_of (log P self messages w)) = true.
Proof.
  unfold log.
  destruct (logLevel self) as [name|f];
    [destruct (console P name);
      [|destruct (console P "log"); [|reflexivity]]|];
    (apply bind_all; [apply perform_all; now apply rendering | reflexivity]).
Qed.

Lemma optional_call_all h path prop arg (f : option (op W value)) (w : W) :
  Q (AHook h path prop arg) = true ->
  forallb Q (trace_of (optional_call h path prop arg f w)) = true.
Proof. intros H. destruct f; simpl; [now apply perform_all | reflexivity]. Qed.

Lemma wrapping_all path prop x (w : W) :
  forallb Q
    (trace_of
       ((if truthy x && type_tag_eqb (typeof x) TObject then
           createProxy x (path ++ "." ++ String_key prop)
         else if type_tag_eqb (typeof x) TFunction then
           createFunctionProxy x (path ++ "." ++ String_key prop)
         else ret x) w)) = true.
Proof. now rewrite wrapping_step. Qed.
End Walk.

(** Check a property of every call in a trap's trace, part by part. *)
Ltac walk rendering :=
  repeat first
    [ reflexivity
    | apply (member_all _ _ (fun _ _ => eq_refl))
    | apply (first_of_all _ _ (fun _ _ => eq_refl))
    | apply (ToString_all _ _ rendering)
    | apply (safeStringify_all _ _ rendering)
    | apply (log_all _ _ _ rendering)
    | apply wrapping_all
    | apply optional_call_all; reflexivity
    | apply perform_all; reflexivity
    | apply bind_all; [|intros]
    | progress cbv zeta
    | match goal with
      | |- context [if ?c then _ else _] => destruct c
      end ].

Section Operations.
Context {W : Type}.

Lemma real_operations_bind {A B} (m : M W A) (f : A -> M W B) (w : W) :
  forallb auxiliary (trace_of (m w)) = true ->
  real_operations (trace_of (bind m f w)) =
    match m w with
    | (Ok a, w1, _) => real_operations (trace_of (f a w1))
    | (Throw _, _, _) => []
    end.
Proof.
  intros H. rewrite bind_trace, real_operations_app.
  rewrite (real_operations_aux _ H). simpl.
  now destruct (m w) as [[[a|e] w1] t1].
Qed.

Lemma real_operations_perform {A B} (x : action) (g : op W A)
    (f : A -> M W B) (w : W) :
  auxiliary x = false ->
  (forall a w1, forallb auxiliary (trace_of (f a w1)) = true) ->
  real_operations (trace_of (bind (perform x g) f w)) = [x].
Proof.
  intros Hx Hf. rewrite bind_trace, perform_trace, real_operations_app.
  unfold real_operations at 1. simpl. rewrite Hx. simpl. f_equal.
  apply real_operations_aux. unfold perform.
  destruct (g w) as [[a|e] w1]; [apply Hf | reflexivity].
Qed.

Lemma real_operations_last {A} (x : action) (g : op W A) (w : W) :
  auxiliary x = false ->
  real_operations (trace_of (perform x g w)) = [x].
Proof.
  intros Hx. rewrite perform_trace. unfold real_operations. simpl.
  now rewrite Hx.
Qed.
End Operations.

Section Member_reads.
Context {W : Type}.

Lemma member_reads_quiet (tr : list action) :
  forallb (fun a => negb (is_member a)) tr = true -> member_reads tr = [].
Proof.
  induction tr as [|a tr IH]; simpl; [reflexivity|].
  intros H. apply andb_true_iff in H. destruct H as [Ha Hl].
  unfold member_reads in *. simpl.
  destruct (is_member a); [discriminate | now apply IH].
Qed.

Lemma member_reads_bind {A B} (m : M W A) (f : A -> M W B) (w : W) :
  forallb (fun a => negb (is_member a)) (trace_of (m w)) = true ->
  member_reads (trace_of (bind m f w)) =
    match m w with
    | (Ok a, w1, _) => member_reads (trace_of (f a w1))
    | (Throw _, _, _) => []
    end.
Proof.
  intros H. rewrite bind_trace. unfold member_reads at 1.
  rewrite filter_app. fold (member_reads (trace_of (m w))).
  rewrite (member_reads_quiet _ H). simpl.
  now destruct (m w) as [[[a|e] w1] t1].
Qed.

Lemma member_reads_member {B} (P : Platform W) (o : value) (prop : key)
    (f : value -> M W B) (w : W) :
  member_reads (trace_of (bind (member P o prop) f w)) =
    AMember o prop ::
    match Reflect_get P o prop o w with
    | (Ok a, w1) => member_reads (trace_of (f a w1))
    | (Throw _, _) => []
    end.
Proof.
  rewrite bind_trace. unfold member at 1. rewrite perform_trace.
  unfold member, perform.
  now destruct (Reflect_get P o prop o w) as [[a|e] w1].
Qed.
End Member_reads.

(** X8: whatever its outcome, a trap activation performs on its target the
    one operation it stands for, and besides that operation, the hooks, the
    renderings and the sink it calls nothing but reads of the function's
    name.  The handlers for [has], [deleteProperty], [defineProperty],
    [getPrototypeOf], [isExtensible] and [construct] perform their operation
    exactly once, with the trap's own arguments.  The handlers for [get],
    [set], [apply], [setPrototypeOf] and [preventExtensions] perform it at
    most once: something they call first may throw.  The write uses the
    trap's target, key and receiver, the call the trap's function and the
    receiver [bindThis] selects.  The nine traps of an object wrapper read no
    member.  The invoke trap reads [fn.name] at most twice and then, at
    most once, element [0] of the arguments the before-call hook left; the
    construct trap reads [target.name] once when the construction has
    returned, and reads nothing when it has thrown. *)
Theorem operations_and_member_reads_of_each_trap :
  forall (W : Type) (P : Platform W) (self : options W) (path : string)
         (t : value) (w : W),
    ((forall prop receiver,
        real_operations (trace_of (get_trap P self path t prop receiver w))
        = []
        \/ real_operations (trace_of (get_trap P self path t prop receiver w))
           = [ARealGet t prop receiver]) /\
     (forall prop value receiver,
        real_operations
          (trace_of (set_trap P self path t prop value receiver w)) = []
        \/ exists v,
             real_operations
               (trace_of (set_trap P self path t prop value receiver w))
             = [ARealSet t prop v receiver]) /\
     (forall prop,
        real_operations (trace_of (has_trap P self path t prop w))
        = [ARealHas t prop]) /\
     (forall prop,
        real_operations (trace_of (deleteProperty_trap P self path t prop w))
        = [ARealDelete t prop]) /\
     (forall prop attributes,
        real_operations
          (trace_of (defineProperty_trap P self path t prop attributes w))
        = [ARealDefine t prop attributes]) /\
     real_operations (trace_of (getPrototypeOf_trap P self path t w))
       = [ARealGetPrototypeOf t] /\
     (forall proto,
        real_operations (trace_of (setPrototypeOf_trap P self path t proto w))
        = []
        \/ real_operations
             (trace_of (setPrototypeOf_trap P self path t proto w))
           = [ARealSetPrototypeOf t proto]) /\
     (real_operations (trace_of (preventExtensions_trap P self path t w)) = []
      \/ real_operations (trace_of (preventExtensions_trap P self path t w))
         = [ARealPreventExtensions t]) /\
     real_operations (trace_of (isExtensible_trap P self path t w))
       = [ARealIsExtensible t] /\
     (forall thisArg args,
        match call_beforeApply self path args w with
        | (Ok hooked, _, _) =>
            real_operations
              (trace_of (apply_trap P self path t thisArg args w))
            = [ARealApply t (if bindThis self then t else thisArg)
                 (coalesce hooked args)]
        | (Throw _, _, _) =>
            real_operations
              (trace_of (apply_trap P self path t thisArg args w)) = []
        end) /\
     (forall args newTarget,
        real_operations
          (trace_of (construct_trap P self path t args newTarget w))
        = [ARealConstruct t args newTarget])) /\
    ((forall prop receiver,
        member_reads (trace_of (get_trap P self path t prop receiver w)) = [])
     /\
     (forall prop value receiver,
        member_reads
          (trace_of (set_trap P self path t prop value receiver w)) = []) /\
     (forall prop,
        member_reads (trace_of (has_trap P self path t prop w)) = []) /\
     (forall prop,
        member_reads (trace_of (deleteProperty_trap P self path t prop w))
        = []) /\
     (forall prop attributes,
        member_reads
          (trace_of (defineProperty_trap P self path t prop attributes w))
        = []) /\
     member_reads (trace_of (getPrototypeOf_trap P self path t w)) = [] /\
     (forall proto,
        member_reads (trace_of (setPrototypeOf_trap P self path t proto w))
        = []) /\
     member_reads (trace_of (preventExtensions_trap P self path t w)) = [] /\
     member_reads (trace_of (isExtensible_trap P self path t w)) = [] /\
     (forall thisArg args,
        member_reads (trace_of (apply_trap P self path t thisArg args w)) = []
        \/ member_reads (trace_of (apply_trap P self path t thisArg args w))
           = [AMember t (KStr "name")]
        \/ member_reads (trace_of (apply_trap P self path t thisArg args w))
           = [AMember t (KStr "name"); AMember t (KStr "name")]
        \/ exists hooked w0 t0,
             call_beforeApply self path args w = (Ok hooked, w0, t0) /\
             member_reads (trace_of (apply_trap P self path t thisArg args w))
             = [AMember t (KStr "name"); AMember t (KStr "name");
                AMember (coalesce hooked args) (KStr "0")]) /\
     (forall args newTarget,
        match Reflect_construct P t args newTarget w with
        | (Ok _, _) =>
            member_reads
              (trace_of (construct_trap P self path t args newTarget w))
            = [AMember t (KStr "name")]
        | (Throw _, _) =>
            member_reads
              (trace_of (construct_trap P self path t args newTarget w)) = []
        end)).
Proof.
  intros W P self path t w. split.
  { split; [|split; [|split; [|split; [|split; [|split; [|split; [|split;
      [|split; [|split]]]]]]]]].
    - intros prop receiver. unfold get_trap.
      destruct (not_watched self prop);
        [right; now apply real_operations_last|].
      destruct (includes "console" path);
        [right; now apply real_operations_last|].
      cbv zeta. unfold call_beforeGet, call_afterGet.
      rewrite real_operations_bind by apply optional_call_aux.
      destruct (optional_call _ _ _ _ _ w) as [[[u|e] w0] t0];
        [right | now left].
      apply real_operations_perform; [reflexivity|].
      intros. walk rendering_is_auxiliary.
    - intros prop value receiver.
      unfold set_trap, call_beforeSet, call_afterSet.
      rewrite real_operations_bind by apply optional_call_aux.
      destruct (optional_call _ _ _ _ _ w) as [[[u|e] w0] t0];
        [right | now left].
      exists (coalesce u value).
      apply real_operations_perform; [reflexivity|].
      intros. walk rendering_is_auxiliary.
    - intros prop. unfold has_trap.
      apply real_operations_perform; [reflexivity|].
      intros. walk rendering_is_auxiliary.
    - intros prop. unfold deleteProperty_trap.
      apply real_operations_perform; [reflexivity|].
      intros. walk rendering_is_auxiliary.
    - intros prop attributes. unfold defineProperty_trap.
      apply real_operations_perform; [reflexivity|].
      intros. walk rendering_is_auxiliary.
    - unfold getPrototypeOf_trap.
      apply real_operations_perform; [reflexivity|].
      intros. walk rendering_is_auxiliary.
    - intros proto. unfold setPrototypeOf_trap.
      rewrite real_operations_bind by apply safeStringify_aux.
      destruct (safeStringify P proto w) as [[[s|e] w0] t0]; [|now left].
      rewrite real_operations_bind by apply log_aux.
      destruct (log P self _ w0) as [[[u|e] w1] t1]; [right | now left].
      now apply real_operations_last.
    - unfold preventExtensions_trap.
      rewrite real_operations_bind by apply log_aux.
      destruct (log P self _ w) as [[[u|e] w1] t1]; [right | now left].
      now apply real_operations_last.
    - unfold isExtensible_trap.
      apply real_operations_perform; [reflexivity|].
      intros. walk rendering_is_auxiliary.
    - intros thisArg args. unfold apply_trap. cbv zeta.
      rewrite real_operations_bind
        by (unfold call_beforeApply; apply optional_call_aux).
      destruct (call_beforeApply self path args w) as [[[u|e] w0] t0];
        [|reflexivity].
      apply real_operations_perform; [reflexivity|].
      intros. unfold call_afterApply. walk rendering_is_auxiliary.
    - intros args newTarget. unfold construct_trap. cbv zeta.
      apply real_operations_perform; [reflexivity|].
      intros. walk rendering_is_auxiliary. }
  split; [|split; [|split; [|split; [|split; [|split; [|split; [|split;
    [|split; [|split]]]]]]]]].
  - intros prop receiver. apply member_reads_quiet.
    unfold get_trap, call_beforeGet, call_afterGet.
    walk rendering_is_no_member.
  - intros prop value receiver. apply member_reads_quiet.
    unfold set_trap, call_beforeSet, call_afterSet.
    walk rendering_is_no_member.
  - intros prop. apply member_reads_quiet. unfold has_trap.
    walk rendering_is_no_member.
  - intros prop. apply member_reads_quiet. unfold deleteProperty_trap.
    walk rendering_is_no_member.
  - intros prop attributes. apply member_reads_quiet.
    unfold defineProperty_trap. walk rendering_is_no_member.
  - apply member_reads_quiet. unfold getPrototypeOf_trap.
    walk rendering_is_no_member.
  - intros proto. apply member_reads_quiet. unfold setPrototypeOf_trap.
    walk rendering_is_no_member.
  - apply member_reads_quiet. unfold preventExtensions_trap.
    walk rendering_is_no_member.
  - apply member_reads_quiet. unfold isExtensible_trap.
    walk rendering_is_no_member.
  - intros thisArg args. unfold apply_trap. cbv zeta.
    rewrite member_reads_bind
      by (unfold call_beforeApply; apply optional_call_all; reflexivity).
    destruct (call_beforeApply self path args w) as [[[hooked|e] w0] t0];
      [|now left].
    rewrite member_reads_bind by (apply perform_all; reflexivity).
    destruct (perform _ _ w0) as [[[x|e] w1] t1]; [|now left].
    rewrite member_reads_bind
      by (unfold call_afterApply; apply optional_call_all; reflexivity).
    destruct (call_afterApply self path x w1) as [[[hooked'|e] w2] t2];
      [|now left].
    rewrite member_reads_member.
    destruct (Reflect_get P t (KStr "name") t w2) as [[name|e] w3];
      [|right; now left].
    destruct (is_addEventListener name).
    + rewrite member_reads_member.
      destruct (Reflect_get P t (KStr "name") t w3) as [[name'|e] w4];
        [|right; right; now left].
      rewrite member_reads_bind by walk rendering_is_no_member.
      destruct (ToString P name' w4) as [[[n|e] w5] t5];
        [|right; right; now left].
      assert (Rest : forall first w6,
                member_reads
                  (trace_of
                     ((a <- ToString P first ;;
                       s <- safeStringify P (coalesce hooked' x) ;;
                       log P self [apply_line path n a s] ;;;
                       ret (coalesce hooked' x)) w6)) = []).
      { intros. apply member_reads_quiet. walk rendering_is_no_member. }
      destruct (coalesce hooked args) as [| | | | | | | | |elems| |] eqn:Fa;
        cbn [first_of];
        try (rewrite member_reads_member;
             destruct (Reflect_get P _ (KStr "0") _ w5) as [[first|e] w6];
             [rewrite Rest|];
             right; right; right; exists hooked, w0, t0;
             rewrite Fa; now split).
      right; right; left.
      destruct elems; rewrite bind_ret; now rewrite Rest.
    + rewrite member_reads_member.
      destruct (Reflect_get P t (KStr "name") t w3) as [[name'|e] w4];
        [|right; right; now left].
      right; right; left. f_equal. f_equal.
      apply member_reads_quiet. walk rendering_is_no_member.
  - intros args newTarget.
    assert (Q : member_reads
                  (trace_of (construct_trap P self path t args newTarget w))
                = match Reflect_construct P t args newTarget w with
                  | (Ok _, _) => [AMember t (KStr "name")]
                  | (Throw _, _) => []
                  end).
    { unfold construct_trap. cbv zeta.
      rewrite member_reads_bind by (apply perform_all; reflexivity).
      unfold perform at 1.
      destruct (Reflect_construct P t args newTarget w) as [[x|e] w1];
        cbv beta iota; [|reflexivity].
      rewrite member_reads_member. f_equal.
      destruct (Reflect_get P t (KStr "name") t w1) as [[name|e] w2];
        [|reflexivity].
      apply member_reads_quiet. walk rendering_is_no_member. }
    rewrite Q.
    now destruct (Reflect_construct P t args newTarget w) as [[x|e] w1].
Qed.

(** X9: whatever its outcome, a trap activation calls no hook but its own
    pair: the read trap only [beforeGet] and [afterGet], the write trap only
    [beforeSet] and [afterSet], the invoke trap only [beforeApply] and
    [afterApply].  The eight other traps call no hook at all, whatever
    hooks the options hold. *)
Theorem hooks_are_called_only_by_their_own_trap :
  forall (W : Type) (P : Platform W) (self : options W) (path : string)
         (t : value) (w : W),
    (forall prop receiver,
       forallb (only_hooks [BeforeGet; AfterGet])
         (trace_of (get_trap P self path t prop receiver w)) = true) /\
    (forall prop value receiver,
       forallb (only_hooks [BeforeSet; AfterSet])
         (trace_of (set_trap P self path t prop value receiver w)) = true) /\
    (forall thisArg args,
       forallb (only_hooks [BeforeApply; AfterApply])
         (trace_of (apply_trap P self path t thisArg args w)) = true) /\
    (forall prop,
       existsb is_hook (trace_of (has_trap P self path t prop w)) = false) /\
    (forall prop,
       existsb is_hook (trace_of (deleteProperty_trap P self path t prop w))
       = false) /\
    (forall prop attributes,
       existsb is_hook
         (trace_of (defineProperty_trap P self path t prop attributes w))
       = false) /\
    existsb is_hook (trace_of (getPrototypeOf_trap P self path t w)) = false /\
    (forall proto,
       existsb is_hook (trace_of (setPrototypeOf_trap P self path t proto w))
       = false) /\
    existsb is_hook (trace_of (preventExtensions_trap P self path t w))
      = false /\
    existsb is_hook (trace_of (isExtensible_trap P self path t w)) = false /\
    (forall args newTarget,
       existsb is_hook
         (trace_of (construct_trap P self path t args newTarget w)) = false).
Proof.
  intros W P self path t w.
  assert (No : forall l, forallb (only_hooks []) l = true ->
                         existsb is_hook l = false).
  { induction l as [|a l IH]; simpl; [reflexivity|]. intros H.
    apply andb_true_iff in H. destruct H as [Ha Hl].
    rewrite (IH Hl). now destruct a. }
  split; [|split; [|split; [|split; [|split; [|split; [|split; [|split;
    [|split; [|split]]]]]]]]].
  - intros prop receiver. unfold get_trap, call_beforeGet, call_afterGet.
    walk (rendering_is_no_hook [BeforeGet; AfterGet]).
  - intros prop value receiver. unfold set_trap, call_beforeSet, call_afterSet.
    walk (rendering_is_no_hook [BeforeSet; AfterSet]).
  - intros thisArg args. unfold apply_trap, call_beforeApply, call_afterApply.
    walk (rendering_is_no_hook [BeforeApply; AfterApply]).
  - intros prop. apply No. unfold has_trap. walk (rendering_is_no_hook []).
  - intros prop. apply No. unfold deleteProperty_trap.
    walk (rendering_is_no_hook []).
  - intros prop attributes. apply No. unfold defineProperty_trap.
    walk (rendering_is_no_hook []).
  - apply No. unfold getPrototypeOf_trap. walk (rendering_is_no_hook []).
  - intros proto. apply No. unfold setPrototypeOf_trap.
    walk (rendering_is_no_hook []).
  - apply No. unfold preventExtensions_trap. walk (rendering_is_no_hook []).
  - apply No. unfold isExtensible_trap. walk (rendering_is_no_hook []).
  - intros args newTarget. apply No. unfold construct_trap.
    walk (rendering_is_no_hook []).
Qed.

(** ** The constructor *)

Lemma callable_is_object (v : value) : callable v = true -> is_object v = true.
Proof.
  intros H. apply function_is_object. now rewrite typeof_function_callable.
Qed.

(** X1: the constructor rejects a target that is not an object with a
    [TypeError], whatever the options.  For an object it returns a wrapper at
    the path [contextName] without touching the target.  The wrapper is a
    function wrapper exactly when [type] is [method] and the target is
    callable: then every call through it that returns has sent one line with
    the path [contextName].  In every other case, a function in the default
    [object] mode included, the wrapper is an object wrapper, and a call
    through it is the real call alone: no hook and no line. *)
Theorem constructor_mode_decides_call_logging :
  forall (W : Type) (P : Platform W) (self : options W) (target : value)
         (w : W),
    (is_object target = false ->
       exists msg,
         Universal_proxy self target w = (Throw (TypeError msg), w, [])) /\
    (String.eqb (type self) "method" && callable target = true ->
       Universal_proxy self target w
         = (Ok (VFunProxy target (contextName self)), w, []) /\
       forall thisArg args w1 v w' tr,
         invoke P self (VFunProxy target (contextName self)) thisArg args w1
           = (Ok v, w', tr) ->
         one_line_at (contextName self) tr) /\
    (is_object target = true ->
     String.eqb (type self) "method" && callable target = false ->
       Universal_proxy self target w
         = (Ok (VProxy target (contextName self)), w, []) /\
       forall thisArg args w1,
         invoke P self (VProxy target (contextName self)) thisArg args w1
         = (fst (Reflect_apply P target thisArg args w1),
            snd (Reflect_apply P target thisArg args w1),
            [ARealApply target thisArg args])).
Proof.
  intros W P self target w. split; [|split].
  - intros H.
    unfold Universal_proxy, createFunctionProxy, createProxy, new_Proxy.
    rewrite H. destruct (_ && _); eexists; reflexivity.
  - intros H.
    assert (Ho : is_object target = true).
    { apply callable_is_object. now apply andb_true_iff in H. }
    split.
    + rewrite (Universal_proxy_start self target w Ho).
      now rewrite typeof_function_callable, H.
    + intros thisArg args w1 v w' tr R. cbn [invoke] in R.
      now destruct (apply_trap_steps P self _ _ _ _ _ _ _ _ R).
  - intros Ho H. split.
    + rewrite (Universal_proxy_start self target w Ho).
      now rewrite typeof_function_callable, H.
    + intros thisArg args w1. cbn [invoke]. unfold perform.
      now destruct (Reflect_apply P target thisArg args w1).
Qed.

(** ** The watched keys *)

(** X2: when [watchedProps] holds a set and the key read is not in it, the
    read trap is the real read and nothing else: no hook, no wrapper, no
    line, the result and the error of [Reflect.get] as they are.  With the
    empty set this holds for every key.  A key that is in the set is still
    logged. *)
Theorem unwatched_read_is_the_real_read :
  forall (W : Type) (P : Platform W) (self : options W) (path : string)
         (t receiver : value) (w : W) (watched : list key),
    watchedProps self = Some watched ->
    (forall prop,
       Set_has watched prop = false ->
       get_trap P self path t prop receiver w
       = (fst (Reflect_get P t prop receiver w),
          snd (Reflect_get P t prop receiver w),
          [ARealGet t prop receiver])) /\
    (watched = [] ->
     forall prop,
       get_trap P self path t prop receiver w
       = (fst (Reflect_get P t prop receiver w),
          snd (Reflect_get P t prop receiver w),
          [ARealGet t prop receiver])) /\
    (forall prop v w' tr,
       Set_has watched prop = true ->
       includes "console" path = false ->
       get_trap P self path t prop receiver w = (Ok v, w', tr) ->
       exists s, log_lines tr = [get_line path prop s]).
Proof.
  intros W P self path t receiver w watched Hset.
  assert (Raw : forall prop,
            Set_has watched prop = false ->
            get_trap P self path t prop receiver w
            = (fst (Reflect_get P t prop receiver w),
               snd (Reflect_get P t prop receiver w),
               [ARealGet t prop receiver])).
  { intros prop H. rewrite get_trap_bypass.
    - unfold perform. now destruct (Reflect_get P t prop receiver w).
    - unfold not_watched. now rewrite Hset, H. }
  split; [exact Raw|]. split.
  - intros -> prop. now apply Raw.
  - intros prop v w' tr H Hc R.
    assert (Hw : not_watched self prop = false).
    { unfold not_watched. now rewrite Hset, H. }
    now destruct (get_trap_shape P self path t prop receiver w v w' tr Hw Hc R).
Qed.

(** ** The write trap *)

(** X3: a write that returns has written, once, the value the before-write
    hook returned when that is not nullish and the caller's value otherwise;
    the same value went to the after-write hook and into the logged line.
    What the trap returns is the flag [Reflect.set] returned, [false]
    included; what the after-write hook returns is dropped. *)
Theorem write_contract :
  forall (W : Type) (P : Platform W) (self : options W) (path : string)
         (t : value) (prop : key) (value receiver : value) (w : W)
         (b : bool) (w' : W) (tr : list action),
    set_trap P self path t prop value receiver w = (Ok b, w', tr) ->
    exists hooked w0 t0 w1 u w2 t2 s w3 t3,
      call_beforeSet self path prop value w = (Ok hooked, w0, t0) /\
      Reflect_set P t prop (coalesce hooked value) receiver w0 = (Ok b, w1) /\
      call_afterSet self path prop (coalesce hooked value) w1
        = (Ok u, w2, t2) /\
      safeStringify P (coalesce hooked value) w2 = (Ok s, w3, t3) /\
      real_operations tr
        = [ARealSet t prop (coalesce hooked value) receiver] /\
      log_lines tr = [set_line path prop s] /\
      (beforeSet self = None -> coalesce hooked value = value) /\
      (nullish hooked = false -> coalesce hooked value = hooked).
Proof.
  intros W P self path t prop value receiver w b w' tr H.
  unfold set_trap in H.
  split_run H as Before H. split_run H as Real H. split_run H as After H.
  split_run H as Ser H. split_run H as Log H. end_run H.
  apply perform_ok in Real. destruct Real as [Real ->].
  apply log_ok in Log. subst.
  pose proof (aux_of_run _ _ _ _ _ (optional_call_aux _ _ _ _ _ _) Before)
    as A0.
  pose proof (aux_of_run _ _ _ _ _ (optional_call_aux _ _ _ _ _ _) After)
    as A2.
  pose proof (aux_of_run _ _ _ _ _ (safeStringify_aux P _ _) Ser) as A3.
  pose proof (lines_of_run _ _ _ _ _ (optional_call_lines _ _ _ _ _ _) Before)
    as L0.
  pose proof (lines_of_run _ _ _ _ _ (optional_call_lines _ _ _ _ _ _) After)
    as L2.
  pose proof (lines_of_run _ _ _ _ _
                (proj1 (proj2 (safeStringify_quiet P _ _))) Ser) as L3.
  do 10 eexists.
  split; [exact Before|]. split; [exact Real|]. split; [exact After|].
  split; [exact Ser|]. split; [|split; [|split]].
  - rewrite !real_operations_app, (real_operations_aux _ A0),
      (real_operations_aux _ A2), (real_operations_aux _ A3). reflexivity.
  - rewrite !log_lines_app, L0, L2, L3. reflexivity.
  - intros Hn. unfold call_beforeSet in Before. rewrite Hn in Before.
    apply ret_ok in Before. now destruct Before as (-> & _ & _).
  - intros Hn. unfold coalesce. now rewrite Hn.
Qed.

(** ** Failures before, in and after the real operation *)

(** X4: a before-hook that throws stops the trap before the target is
    touched.  The read, write and invoke traps throw what the hook threw,
    and their trace holds the hook call alone: no real operation, no
    after-hook, no line. *)
Theorem failing_before_hook_prevents_the_operation :
  forall (W : Type) (P : Platform W) (self : options W) (path : string)
         (w : W) (e : exn) (w1 : W),
    (forall t prop receiver h,
       not_watched self prop = false ->
       includes "console" path = false ->
       beforeGet self = Some h ->
       h path prop w = (Throw e, w1) ->
       get_trap P self path t prop receiver w
       = (Throw e, w1, [AHook BeforeGet path (Some prop) None])) /\
    (forall t prop value receiver h,
       beforeSet self = Some h ->
       h path prop value w = (Throw e, w1) ->
       set_trap P self path t prop value receiver w
       = (Throw e, w1, [AHook BeforeSet path (Some prop) (Some value)])) /\
    (forall fn thisArg args h,
       beforeApply self = Some h ->
       h path args w = (Throw e, w1) ->
       apply_trap P self path fn thisArg args w
       = (Throw e, w1, [AHook BeforeApply path None (Some args)])).
Proof.
  intros W P self path w e w1. split; [|split].
  - intros t prop receiver h Hw Hc Hh E. unfold get_trap.
    rewrite Hw, Hc. cbv zeta. apply bind_throw.
    unfold call_beforeGet. rewrite Hh. simpl. now apply perform_run.
  - intros t prop value receiver h Hh E. unfold set_trap.
    apply bind_throw.
    unfold call_beforeSet. rewrite Hh. simpl. now apply perform_run.
  - intros fn thisArg args h Hh E. unfold apply_trap. cbv zeta.
    apply bind_throw.
    unfold call_beforeApply. rewrite Hh. simpl. now apply perform_run.
Qed.

(** X6: when the real operation throws, the trap throws the same error in
    the world the operation left, and nothing follows the operation in the
    trace: no after-hook and no line.  This holds for the write and invoke
    traps once their before-hook has returned, and for [has],
    [deleteProperty], [defineProperty], [getPrototypeOf], [isExtensible] and
    [construct], which start with the operation. *)
Theorem failed_operation_is_not_logged :
  forall (W : Type) (P : Platform W) (self : options W) (path : string)
         (t : value) (e : exn) (w w1 : W),
    (forall prop value receiver hooked w0 t0,
       call_beforeSet self path prop value w = (Ok hooked, w0, t0) ->
       Reflect_set P t prop (coalesce hooked value) receiver w0
         = (Throw e, w1) ->
       set_trap P self path t prop value receiver w
       = (Throw e, w1,
          (t0 ++ [ARealSet t prop (coalesce hooked value) receiver])%list) /\
       log_lines t0 = []) /\
    (forall prop,
       Reflect_has P t prop w = (Throw e, w1) ->
       has_trap P self path t prop w = (Throw e, w1, [ARealHas t prop])) /\
    (forall prop,
       Reflect_deleteProperty P t prop w = (Throw e, w1) ->
       deleteProperty_trap P self path t prop w
       = (Throw e, w1, [ARealDelete t prop])) /\
    (forall prop attributes,
       Reflect_defineProperty P t prop attributes w = (Throw e, w1) ->
       defineProperty_trap P self path t prop attributes w
       = (Throw e, w1, [ARealDefine t prop attributes])) /\
    (Reflect_getPrototypeOf P t w = (Throw e, w1) ->
     getPrototypeOf_trap P self path t w
     = (Throw e, w1, [ARealGetPrototypeOf t])) /\
    (Reflect_isExtensible P t w = (Throw e, w1) ->
     isExtensible_trap P self path t w
     = (Throw e, w1, [ARealIsExtensible t])) /\
    (forall thisArg args hooked w0 t0,
       call_beforeApply self path args w = (Ok hooked, w0, t0) ->
       Reflect_apply P t (if bindThis self then t else thisArg)
         (coalesce hooked args) w0 = (Throw e, w1) ->
       apply_trap P self path t thisArg args w
       = (Throw e, w1,
          (t0 ++ [ARealApply t (if bindThis self then t else thisArg)
                    (coalesce hooked args)])%list) /\
       log_lines t0 = []) /\
    (forall args newTarget,
       Reflect_construct P t args newTarget w = (Throw e, w1) ->
       construct_trap P self path t args newTarget w
       = (Throw e, w1, [ARealConstruct t args newTarget])).
Proof.
  intros W P self path t e w w1.
  split; [|split; [|split; [|split; [|split; [|split; [|split]]]]]].
  - intros prop value receiver hooked w0 t0 Hb Hr. split.
    + unfold set_trap. run Hb.
      now rewrite (bind_throw _ _ _ _ _ _ (perform_run _ _ _ _ _ Hr)).
    + exact (lines_of_run _ _ _ _ _ (optional_call_lines _ _ _ _ _ _) Hb).
  - intros prop H. unfold has_trap.
    exact (bind_throw _ _ _ _ _ _ (perform_run _ _ _ _ _ H)).
  - intros prop H. unfold deleteProperty_trap.
    exact (bind_throw _ _ _ _ _ _ (perform_run _ _ _ _ _ H)).
  - intros prop attributes H. unfold defineProperty_trap.
    exact (bind_throw _ _ _ _ _ _ (perform_run _ _ _ _ _ H)).
  - intros H. unfold getPrototypeOf_trap.
    exact (bind_throw _ _ _ _ _ _ (perform_run _ _ _ _ _ H)).
  - intros H. unfold isExtensible_trap.
    exact (bind_throw _ _ _ _ _ _ (perform_run _ _ _ _ _ H)).
  - intros thisArg args hooked w0 t0 Hb Hr. split.
    + unfold apply_trap. cbv zeta. run Hb.
      now rewrite (bind_throw _ _ _ _ _ _ (perform_run _ _ _ _ _ Hr)).
    + exact (lines_of_run _ _ _ _ _ (optional_call_lines _ _ _ _ _ _) Hb).
  - intros args newTarget H. unfold construct_trap. cbv zeta.
    exact (bind_throw _ _ _ _ _ _ (perform_run _ _ _ _ _ H)).
Qed.

(** X5: the traps without hooks hand back what [Reflect] gave them.  A
    [has], [deleteProperty], [defineProperty] or [isExtensible] that returns
    has returned the flag of the real operation, and the logged line shows
    that same flag; [getPrototypeOf] returns the prototype itself, not a
    wrapper, and logs its serialization; [setPrototypeOf] and
    [preventExtensions] return the flag of the real operation, which is the
    last thing they do. *)
Theorem structural_traps_return_the_real_result :
  forall (W : Type) (P : Platform W) (self : options W) (path : string)
         (t : value) (w w' : W) (tr : list action),
    (forall prop b,
       has_trap P self path t prop w = (Ok b, w', tr) ->
       (exists w1, Reflect_has P t prop w = (Ok b, w1)) /\
       log_lines tr = [has_line path prop b]) /\
    (forall prop b,
       deleteProperty_trap P self path t prop w = (Ok b, w', tr) ->
       (exists w1, Reflect_deleteProperty P t prop w = (Ok b, w1)) /\
       log_lines tr = [delete_line path prop b]) /\
    (forall prop attributes b,
       defineProperty_trap P self path t prop attributes w = (Ok b, w', tr) ->
       exists w1 s w2 t2,
         Reflect_defineProperty P t prop attributes w = (Ok b, w1) /\
         safeStringify P attributes w1 = (Ok s, w2, t2) /\
         log_lines tr = [define_line path prop s b]) /\
    (forall v,
       getPrototypeOf_trap P self path t w = (Ok v, w', tr) ->
       exists w1 s w2 t2,
         Reflect_getPrototypeOf P t w = (Ok v, w1) /\
         safeStringify P v w1 = (Ok s, w2, t2) /\
         log_lines tr = [getPrototypeOf_line path s]) /\
    (forall b,
       isExtensible_trap P self path t w = (Ok b, w', tr) ->
       (exists w1, Reflect_isExtensible P t w = (Ok b, w1)) /\
       log_lines tr = [isExtensible_line path b]) /\
    (forall proto b,
       setPrototypeOf_trap P self path t proto w = (Ok b, w', tr) ->
       exists w2, Reflect_setPrototypeOf P t proto w2 = (Ok b, w')) /\
    (forall b,
       preventExtensions_trap P self path t w = (Ok b, w', tr) ->
       exists w2, Reflect_preventExtensions P t w2 = (Ok b, w')).
Proof.
  intros W P self path t w w' tr.
  split; [|split; [|split; [|split; [|split; [|split]]]]].
  - intros prop b H. unfold has_trap in H.
    split_run H as Real H. split_run H as Log H. end_run H.
    apply perform_ok in Real. destruct Real as [Real ->].
    apply log_ok in Log. subst. split; [eexists; exact Real | reflexivity].
  - intros prop b H. unfold deleteProperty_trap in H.
    split_run H as Real H. split_run H as Log H. end_run H.
    apply perform_ok in Real. destruct Real as [Real ->].
    apply log_ok in Log. subst. split; [eexists; exact Real | reflexivity].
  - intros prop attributes b H. unfold defineProperty_trap in H.
    split_run H as Real H. split_run H as Ser H. split_run H as Log H.
    end_run H.
    apply perform_ok in Real. destruct Real as [Real ->].
    apply log_ok in Log. subst.
    pose proof (lines_of_run _ _ _ _ _
                  (proj1 (proj2 (safeStringify_quiet P _ _))) Ser) as L.
    do 4 eexists. split; [exact Real|]. split; [exact Ser|].
    rewrite !log_lines_app, L. reflexivity.
  - intros v H. unfold getPrototypeOf_trap in H.
    split_run H as Real H. split_run H as Ser H. split_run H as Log H.
    end_run H.
    apply perform_ok in Real. destruct Real as [Real ->].
    apply log_ok in Log. subst.
    pose proof (lines_of_run _ _ _ _ _
                  (proj1 (proj2 (safeStringify_quiet P _ _))) Ser) as L.
    do 4 eexists. split; [exact Real|]. split; [exact Ser|].
    rewrite !log_lines_app, L. reflexivity.
  - intros b H. unfold isExtensible_trap in H.
    split_run H as Real H. split_run H as Log H. end_run H.
    apply perform_ok in Real. destruct Real as [Real ->].
    apply log_ok in Log. subst. split; [eexists; exact Real | reflexivity].
  - intros proto b H. unfold setPrototypeOf_trap in H.
    split_run H as Ser H. split_run H as Log H.
    apply perform_ok in H. destruct H as [Real _]. eexists; exact Real.
  - intros b H. unfold preventExtensions_trap in H.
    split_run H as Log H.
    apply perform_ok in H. destruct H as [Real _]. eexists; exact Real.
Qed.

(** X7: [setPrototypeOf] and [preventExtensions] send their line before they
    operate.  Once the line is out, the trap is the real operation: it
    returns or throws what [Reflect] returns or throws, so the line is there
    also for an operation that fails.  And when the line cannot be made or
    sent (the prototype cannot be serialized, the sink throws), the trap
    throws without having touched the target. *)
Theorem prototype_traps_log_before_they_operate :
  forall (W : Type) (P : Platform W) (self : options W) (path : string)
         (t : value) (w : W),
    (forall proto s w1 t1 u w2 t2,
       safeStringify P proto w = (Ok s, w1, t1) ->
       log P self [setPrototypeOf_line path s] w1 = (Ok u, w2, t2) ->
       setPrototypeOf_trap P self path t proto w
       = (fst (Reflect_setPrototypeOf P t proto w2),
          snd (Reflect_setPrototypeOf P t proto w2),
          (t1 ++ [ALog (setPrototypeOf_line path s);
                  ARealSetPrototypeOf t proto])%list)) /\
    (forall proto e w1 t1,
       safeStringify P proto w = (Throw e, w1, t1) ->
       setPrototypeOf_trap P self path t proto w = (Throw e, w1, t1) /\
       real_operations t1 = []) /\
    (forall proto s w1 t1 e w2 t2,
       safeStringify P proto w = (Ok s, w1, t1) ->
       log P self [setPrototypeOf_line path s] w1 = (Throw e, w2, t2) ->
       setPrototypeOf_trap P self path t proto w
       = (Throw e, w2, (t1 ++ t2)%list) /\
       real_operations (t1 ++ t2) = []) /\
    (forall u w2 t2,
       log P self [preventExtensions_line path] w = (Ok u, w2, t2) ->
       preventExtensions_trap P self path t w
       = (fst (Reflect_preventExtensions P t w2),
          snd (Reflect_preventExtensions P t w2),
          [ALog (preventExtensions_line path); ARealPreventExtensions t])) /\
    (forall e w2 t2,
       log P self [preventExtensions_line path] w = (Throw e, w2, t2) ->
       preventExtensions_trap P self path t w = (Throw e, w2, t2) /\
       real_operations t2 = []).
Proof.
  intros W P self path t w.
  split; [|split; [|split; [|split]]].
  - intros proto s w1 t1 u w2 t2 Hs Hl. unfold setPrototypeOf_trap.
    run Hs. run Hl. apply log_ok in Hl. subst t2. unfold perform.
    now destruct (Reflect_setPrototypeOf P t proto w2).
  - intros proto e w1 t1 Hs. split.
    + unfold setPrototypeOf_trap. exact (bind_throw _ _ _ _ _ _ Hs).
    + apply real_operations_aux.
      exact (aux_of_run _ _ _ _ _ (safeStringify_aux P _ _) Hs).
  - intros proto s w1 t1 e w2 t2 Hs Hl. split.
    + unfold setPrototypeOf_trap. run Hs.
      now rewrite (bind_throw _ _ _ _ _ _ Hl).
    + rewrite real_operations_app.
      rewrite (real_operations_aux t1), (real_operations_aux t2);
        [reflexivity| |].
      * exact (aux_of_run _ _ _ _ _ (log_aux P self _ _) Hl).
      * exact (aux_of_run _ _ _ _ _ (safeStringify_aux P _ _) Hs).
  - intros u w2 t2 Hl. unfold preventExtensions_trap.
    run Hl. apply log_ok in Hl. subst t2. unfold perform.
    now destruct (Reflect_preventExtensions P t w2).
  - intros e w2 t2 Hl. split.
    + unfold preventExtensions_trap. exact (bind_throw _ _ _ _ _ _ Hl).
    + apply real_operations_aux.
      exact (aux_of_run _ _ _ _ _ (log_aux P self _ _) Hl).
Qed.

(** X10: an operation that succeeded is not undone when the trap fails
    afterwards.  A write whose value cannot be serialized for the line has
    been written when the trap throws what the serializer threw; the
    caller never sees the flag.  A [has] whose sink throws has been answered
    by the target.  A construction whose result cannot be serialized has
    built the object, and the trap throws instead of returning it. *)
Theorem late_failure_does_not_undo_the_operation :
  forall (W : Type) (P : Platform W) (self : options W) (path : string)
         (t : value) (e : exn) (w : W),
    (forall prop value receiver hooked w0 t0 b w1 u w2 t2 w3 t3,
       call_beforeSet self path prop value w = (Ok hooked, w0, t0) ->
       Reflect_set P t prop (coalesce hooked value) receiver w0 = (Ok b, w1) ->
       call_afterSet self path prop (coalesce hooked value) w1
         = (Ok u, w2, t2) ->
       safeStringify P (coalesce hooked value) w2 = (Throw e, w3, t3) ->
       set_trap P self path t prop value receiver w
       = (Throw e, w3,
          (t0 ++ [ARealSet t prop (coalesce hooked value) receiver]
              ++ t2 ++ t3)%list)) /\
    (forall prop b w1 w2 t2,
       Reflect_has P t prop w = (Ok b, w1) ->
       log P self [has_line path prop b] w1 = (Throw e, w2, t2) ->
       has_trap P self path t prop w
       = (Throw e, w2, (ARealHas t prop :: t2)%list)) /\
    (forall args newTarget x w1 name w2 t2 n w3 t3 a w4 t4 w5 t5,
       Reflect_construct P t args newTarget w = (Ok x, w1) ->
       member P t (KStr "name") w1 = (Ok name, w2, t2) ->
       ToString P name w2 = (Ok n, w3, t3) ->
       safeStringify P args w3 = (Ok a, w4, t4) ->
       safeStringify P x w4 = (Throw e, w5, t5) ->
       construct_trap P self path t args newTarget w
       = (Throw e, w5,
          (ARealConstruct t args newTarget :: t2 ++ t3 ++ t4 ++ t5)%list)).
Proof.
  intros W P self path t e w. split; [|split].
  - intros prop value receiver hooked w0 t0 b w1 u w2 t2 w3 t3 Hb Hr Ha Hs.
    unfold set_trap. run Hb. run (perform_run (ARealSet t prop
      (coalesce hooked value) receiver) _ _ _ _ Hr). run Ha.
    now rewrite (bind_throw _ _ _ _ _ _ Hs).
  - intros prop b w1 w2 t2 Hr Hl. unfold has_trap.
    run (perform_run (ARealHas t prop) _ _ _ _ Hr).
    now rewrite (bind_throw _ _ _ _ _ _ Hl).
  - intros args newTarget x w1 name w2 t2 n w3 t3 a w4 t4 w5 t5
      Hr Hn Ht Ha Hs.
    unfold construct_trap. cbv zeta.
    run (perform_run (ARealConstruct t args newTarget) _ _ _ _ Hr).
    run Hn. run Ht. run Ha.
    now rewrite (bind_throw _ _ _ _ _ _ Hs).
Qed.

(** ** The exempt paths, as strings *)

Lemma prefix_split (n h : string) :
  String.prefix n h = true -> exists post, h = n ++ post.
Proof.
  revert h; induction n as [|c n IH]; intros h H.
  - now exists h.
  - destruct h as [|c' h]; simpl in H; [discriminate|].
    destruct (ascii_dec c c') as [->|]; [|discriminate].
    destruct (IH h H) as [post ->]. now exists post.
Qed.

Lemma includes_of_prefix (n h : string) :
  String.prefix n h = true -> includes n h = true.
Proof. intros H. destruct h; cbn [includes]; now rewrite H. Qed.

Lemma includes_split (n h : string) :
  includes n h = true <-> exists pre post, h = pre ++ n ++ post.
Proof.
  split.
  - induction h as [|c h IH]; cbn [includes]; intros H.
    + rewrite orb_false_r in H.
      destruct (prefix_split _ _ H) as [post E]. now exists "", post.
    + apply orb_true_iff in H. destruct H as [H|H].
      * destruct (prefix_split _ _ H) as [post E]. now exists "", post.
      * destruct (IH H) as (pre & post & ->). now exists (String c pre), post.
  - intros (pre & post & ->). induction pre as [|c pre IH].
    + change ("" ++ n ++ post) with (n ++ post).
      apply includes_of_prefix. apply prefix_append.
    + change (String c pre ++ n ++ post) with (String c (pre ++ n ++ post)).
      cbn [includes]. rewrite IH. apply orb_true_r.
Qed.

Lemma includes_after (n a b : string) :
  includes n b = true -> includes n (a ++ b) = true.
Proof.
  intros H. induction a as [|c a IH]; [exact H|].
  change (String c a ++ b) with (String c (a ++ b)).
  cbn [includes]. rewrite IH. apply orb_true_r.
Qed.

(** X11: the exemption test of the read trap holds exactly for the paths
    that can be cut into a text, the word [console] and a text.  It is
    inherited: every path extended from an exempt path is exempt, and a key
    in which the word occurs makes every path through that key exempt,
    wherever the chain started.  So an object read under such a key from a
    path that is not exempt is wrapped, and on that wrapper the read trap is
    the real read alone: a read makes that one call, throws what it throws,
    and returns what it returns once the engine's check has accepted the
    value. *)
Theorem exemption_is_inherited :
  forall (W : Type) (P : Platform W) (E : Engine W) (self : options W)
         (path : string),
    (forall h,
       includes "console" h = true <->
       exists pre post, h = pre ++ "console" ++ post) /\
    (forall props,
       includes "console" path = true ->
       includes "console" (extend_path path props) = true) /\
    (forall k props,
       includes "console" (String_key k) = true ->
       includes "console" (extend_path path (k :: props)) = true) /\
    (forall k x k2 w,
       includes "console" (String_key k) = true ->
       truthy x && type_tag_eqb (typeof x) TObject = true ->
       wrapped_read path k x = VProxy x (path ++ "." ++ String_key k) /\
       get_trap P self (path ++ "." ++ String_key k) x k2
         (wrapped_read path k x) w
       = (fst (Reflect_get P x k2 (wrapped_read path k x) w),
          snd (Reflect_get P x k2 (wrapped_read path k x) w),
          [ARealGet x k2 (wrapped_read path k x)]) /\
       trace_of (read P E self (wrapped_read path k x) k2 w)
       = [ARealGet x k2 (wrapped_read path k x)] /\
       (forall e w1,
          Reflect_get P x k2 (wrapped_read path k x) w = (Throw e, w1) ->
          read P E self (wrapped_read path k x) k2 w
          = (Throw e, w1, [ARealGet x k2 (wrapped_read path k x)])) /\
       (forall v w1 w2,
          Reflect_get P x k2 (wrapped_read path k x) w = (Ok v, w1) ->
          Get_invariants E x k2 v w1 = (Ok tt, w2) ->
          read P E self (wrapped_read path k x) k2 w
          = (Ok v, w2, [ARealGet x k2 (wrapped_read path k x)]))).
Proof.
  intros W P E self path.
  assert (Ext : forall p props,
            includes "console" p = true ->
            includes "console" (extend_path p props) = true).
  { intros p props H. destruct (extend_path_prefix p props) as [sfx ->].
    now apply includes_weaken. }
  assert (Key : forall k,
            includes "console" (String_key k) = true ->
            includes "console" (path ++ "." ++ String_key k) = true).
  { intros k H. apply includes_after. now apply (includes_after _ "."). }
  split; [intros h; apply includes_split|].
  split; [intros props; apply Ext|].
  split.
  - intros k props H. cbn [extend_path]. apply Ext. now apply Key.
  - intros k x k2 w H Hx.
    assert (Q : wrapped_read path k x
                = VProxy x (path ++ "." ++ String_key k)).
    { unfold wrapped_read. now rewrite Hx. }
    assert (T : get_trap P self (path ++ "." ++ String_key k) x k2
                  (wrapped_read path k x) w
                = (fst (Reflect_get P x k2 (wrapped_read path k x) w),
                   snd (Reflect_get P x k2 (wrapped_read path k x) w),
                   [ARealGet x k2 (wrapped_read path k x)])).
    { rewrite get_trap_bypass.
      - unfold perform. now destruct (Reflect_get P x k2 _ w).
      - rewrite (Key k H). apply orb_true_r. }
    split; [exact Q|]. split; [exact T|].
    rewrite Q in *. split; [|split].
    + destruct (Reflect_get P x k2 _ w) as [[v|e] w1]; cbn [fst snd] in T.
      * destruct (Get_invariants E x k2 v w1) as [[[]|e] w2] eqn:Hi.
        -- assert (R : read P E self
                         (VProxy x (path ++ "." ++ String_key k)) k2 w
                       = (Ok v, w2,
                          [ARealGet x k2
                             (VProxy x (path ++ "." ++ String_key k))]))
             by (apply read_runs; exists w1; now split).
           now rewrite R.
        -- now rewrite (proj2 (read_throws P E self x _ k2 w) _ _ _ _ _ T Hi).
      * now rewrite (proj1 (read_throws P E self x _ k2 w) _ _ _ T).
    + intros e w1 Hg. rewrite Hg in T.
      exact (proj1 (read_throws P E self x _ k2 w) _ _ _ T).
    + intros v w1 w2 Hg Hi. rewrite Hg in T.
      apply read_runs. exists w1. now split.
Qed.

(** ** The sink *)

(** X12: [log] sends the messages joined by single spaces, a single message
    as it is, to one sink: the function in [logLevel] when that is a
    function, otherwise the console method of that name, and [console.log]
    when the console has no such method.  What the sink returns is dropped,
    what it throws is thrown by [log].  When the console has neither the
    named method nor [log], [log] throws a [TypeError] and nothing is
    sent. *)
Theorem log_routing :
  forall (W : Type) (P : Platform W) (self : options W)
         (messages : list string) (w : W),
    (forall f,
       logLevel self = LevelFn f ->
       (forall x w1,
          f (join " " messages) w = (Ok x, w1) ->
          log P self messages w = (Ok tt, w1, [ALog (join " " messages)])) /\
       (forall e w1,
          f (join " " messages) w = (Throw e, w1) ->
          log P self messages w = (Throw e, w1, [ALog (join " " messages)]))) /\
    (forall name f,
       logLevel self = LevelName name ->
       console P name = Some f ->
       (forall x w1,
          f (join " " messages) w = (Ok x, w1) ->
          log P self messages w = (Ok tt, w1, [ALog (join " " messages)])) /\
       (forall e w1,
          f (join " " messages) w = (Throw e, w1) ->
          log P self messages w = (Throw e, w1, [ALog (join " " messages)]))) /\
    (forall name,
       logLevel self = LevelName name ->
       console P name = None ->
       log P self messages w
       = log P (at_level (LevelName "log") self) messages w) /\
    (forall name,
       logLevel self = LevelName name ->
       console P name = None ->
       console P "log" = None ->
       exists msg, log P self messages w = (Throw (TypeError msg), w, [])) /\
    (forall m, messages = [m] -> join " " messages = m).
Proof.
  intros W P self messages w.
  assert (Sent : forall f : string -> op W value,
            (forall x w1,
               f (join " " messages) w = (Ok x, w1) ->
               (perform (ALog (join " " messages)) (f (join " " messages))
                  ;;; ret tt) w
               = (Ok tt, w1, [ALog (join " " messages)])) /\
            (forall e w1,
               f (join " " messages) w = (Throw e, w1) ->
               (perform (ALog (join " " messages)) (f (join " " messages))
                  ;;; ret tt) w
               = (Throw e, w1, [ALog (join " " messages)]))).
  { intros f. split.
    - intros x w1 E. now rewrite (bind_run _ _ _ _ _ _ (perform_run _ _ _ _ _ E)).
    - intros e w1 E. exact (bind_throw _ _ _ _ _ _ (perform_run _ _ _ _ _ E)). }
  split; [|split; [|split; [|split]]].
  - intros f L. unfold log. rewrite L. apply Sent.
  - intros name f L C. unfold log. rewrite L, C. apply Sent.
  - intros name L C. unfold log. rewrite L, C. cbn [logLevel at_level].
    now destruct (console P "log").
  - intros name L C C'. unfold log. rewrite L, C, C'. eexists. reflexivity.
  - intros m ->. reflexivity.
Qed.

(** ** The line of a listener registration *)

(** X13: for a function whose name reads [addEventListener], with no hooks
    on the call, the detail of the line is the text of the first argument
    also at the edges.  Called with no argument at all, the trap returns
    what the function returned and the detail is [undefined].  Called with a
    symbol as first argument, the function is called, and then the trap
    throws a [TypeError] for the symbol it cannot put into the line: the
    caller loses the result and nothing is logged. *)
Theorem addEventListener_detail_at_the_edges :
  forall (W : Type) (P : Platform W) (self : options W) (path : string)
         (fn thisArg : value) (w : W),
    beforeApply self = None ->
    afterApply self = None ->
    (forall w0,
       Reflect_get P fn (KStr "name") fn w0
       = (Ok (VStr "addEventListener"), w0)) ->
    (forall x w1 s w2 t2 u w3 t3,
       Reflect_apply P fn (if bindThis self then fn else thisArg) (VArr []) w
         = (Ok x, w1) ->
       safeStringify P x w1 = (Ok s, w2, t2) ->
       log P self [apply_line path "addEventListener" "undefined" s] w2
         = (Ok u, w3, t3) ->
       result_of (apply_trap P self path fn thisArg (VArr []) w) = Ok x /\
       log_lines (trace_of (apply_trap P self path fn thisArg (VArr []) w))
       = [apply_line path "addEventListener" "undefined" s]) /\
    (forall id d rest x w1,
       Reflect_apply P fn (if bindThis self then fn else thisArg)
         (VArr (VSym id d :: rest)) w = (Ok x, w1) ->
       apply_trap P self path fn thisArg (VArr (VSym id d :: rest)) w
       = (Throw (TypeError "Cannot convert a Symbol value to a string"), w1,
          [ARealApply fn (if bindThis self then fn else thisArg)
             (VArr (VSym id d :: rest));
           AMember fn (KStr "name"); AMember fn (KStr "name")])).
Proof.
  intros W P self path fn thisArg w Hb Ha Hname.
  assert (Name : forall w0,
            member P fn (KStr "name") w0
            = (Ok (VStr "addEventListener"), w0, [AMember fn (KStr "name")])).
  { intros w0. unfold member. apply perform_run. apply Hname. }
  split.
  - intros x w1 s w2 t2 u w3 t3 Hr Hs Hl.
    pose proof (lines_of_run _ _ _ _ _
                  (proj1 (proj2 (safeStringify_quiet P _ _))) Hs) as L.
    unfold apply_trap, call_beforeApply, call_afterApply.
    rewrite Hb, Ha. cbn [option_map optional_call]. cbv zeta.
    rewrite bind_ret. change (coalesce VUndefined (VArr [])) with (VArr []).
    run (perform_run (ARealApply fn (if bindThis self then fn else thisArg)
                        (VArr [])) _ _ _ _ Hr).
    rewrite bind_ret. run (Name w1).
    change (is_addEventListener (VStr "addEventListener")) with true.
    cbv iota. run (Name w1). cbn [ToString first_of]. rewrite !bind_ret.
    cbn [ToString]. rewrite bind_ret.
    change (coalesce VUndefined x) with x.
    run Hs. run Hl. apply log_ok in Hl. subst t3.
    split; [reflexivity|].
    cbn [log_lines app]. rewrite !log_lines_app, L. reflexivity.
  - intros id d rest x w1 Hr.
    unfold apply_trap, call_beforeApply, call_afterApply.
    rewrite Hb, Ha. cbn [option_map optional_call]. cbv zeta.
    rewrite bind_ret.
    change (coalesce VUndefined (VArr (VSym id d :: rest)))
      with (VArr (VSym id d :: rest)).
    run (perform_run (ARealApply fn (if bindThis self then fn else thisArg)
                        (VArr (VSym id d :: rest))) _ _ _ _ Hr).
    rewrite bind_ret. run (Name w1).
    change (is_addEventListener (VStr "addEventListener")) with true.
    cbv iota. run (Name w1). cbn [ToString first_of]. rewrite !bind_ret.
    reflexivity.
Qed.

(** ** Functions in a line *)

(** X14: a function, wrapped or not, is put into a line by the string
    coercion of the runtime and never by [JSON.stringify]: the text is what
    [String(fn)] gives, and what that call throws [safeStringify] throws. *)
Theorem functions_are_rendered_by_String :
  forall (W : Type) (P : Platform W) (v : value) (w : W),
    callable v = true ->
    (forall s w1,
       ToString_object P v w = (Ok s, w1) ->
       safeStringify P v w = (Ok (Some s), w1, [AToString v])) /\
    (forall e w1,
       ToString_object P v w = (Throw e, w1) ->
       safeStringify P v w = (Throw e, w1, [AToString v])) /\
    existsb is_stringify (trace_of (safeStringify P v w)) = false.
Proof.
  intros W P v w H.
  assert (E : safeStringify P v w
              = (s <- perform (AToString v) (ToString_object P v) ;;
                 ret (Some s)) w).
  { unfold safeStringify.
    assert (Hn : nullish v = false) by (now destruct v).
    assert (Ht : type_tag_eqb (typeof v) TObject = false).
    { pose proof (typeof_function_callable v) as T. rewrite H in T.
      revert T. now destruct (typeof v). }
    rewrite Hn, Ht. now destruct v. }
  rewrite E. split; [|split].
  - intros s w1 R. now rewrite (bind_run _ _ _ _ _ _ (perform_run _ _ _ _ _ R)).
  - intros e w1 R. exact (bind_throw _ _ _ _ _ _ (perform_run _ _ _ _ _ R)).
  - rewrite bind_trace, perform_trace. unfold perform.
    now destruct (ToString_object P v w) as [[s|e] w1].
Qed.

(** ** What a line shows *)

(** X15: the result field of a line is the serialization of the value the
    trap hands back, whatever was done to it on the way.  For a read that is
    the wrapper the trap made, or the after-read hook's replacement: an
    object value goes to [JSON.stringify] as that wrapper, not as the target
    it was read from.  For a call it is the result after the after-call
    hook, for a construction the object the real construction returned. *)
Theorem the_line_shows_what_the_trap_returns :
  forall (W : Type) (P : Platform W) (self : options W) (path : string)
         (t : value) (w : W) (v : value) (w' : W) (tr : list action),
    (forall prop receiver,
       not_watched self prop = false ->
       includes "console" path = false ->
       get_trap P self path t prop receiver w = (Ok v, w', tr) ->
       exists s w2 w3 t3,
         safeStringify P v w2 = (Ok s, w3, t3) /\
         log_lines tr = [get_line path prop s] /\
         (nullish v = false -> typeof v = TObject -> In (AStringify v) tr)) /\
    (forall thisArg args,
       apply_trap P self path t thisArg args w = (Ok v, w', tr) ->
       exists n detail s w2 w3 t3,
         safeStringify P v w2 = (Ok s, w3, t3) /\
         log_lines tr = [apply_line path n detail s]) /\
    (forall args newTarget,
       construct_trap P self path t args newTarget w = (Ok v, w', tr) ->
       exists n a s w2 w3 t3,
         safeStringify P v w2 = (Ok s, w3, t3) /\
         log_lines tr = [construct_line path n a s]).
Proof.
  intros W P self path t w v w' tr. split; [|split].
  - intros prop receiver Hw Hc H.
    destruct (get_trap_run P self path t prop receiver w v w' tr Hw Hc H)
      as (u & w0 & t0 & x & w1 & hooked & w2 & t2 & s & w3 & t3
          & Hb & Hg & Ha & Hv & Hs & ->).
    destruct (get_trap_shape P self path t prop receiver w v w' _ Hw Hc H)
      as [_ [s' Hline]].
    exists s, w2, w3, t3. split; [exact Hs|]. split.
    + pose proof (lines_of_run _ _ _ _ _ (optional_call_lines _ _ _ _ _ _) Hb)
        as L0.
      pose proof (lines_of_run _ _ _ _ _ (optional_call_lines _ _ _ _ _ _) Ha)
        as L2.
      pose proof (lines_of_run _ _ _ _ _
                    (proj1 (proj2 (safeStringify_quiet P _ _))) Hs) as L3.
      rewrite !log_lines_app, L0, L2, L3. reflexivity.
    + intros Hn Ht. unfold safeStringify in Hs. rewrite Hn, Ht in Hs.
      cbn [type_tag_eqb] in Hs. apply perform_ok in Hs.
      destruct Hs as [_ ->]. rewrite !in_app_iff. cbn [In]. intuition.
  - intros thisArg args H. unfold apply_trap in H.
    split_run H as Before H. split_run H as Real H. split_run H as After H.
    split_run H as Name H.
    match type of H with
    | (if is_addEventListener ?name then _ else _) _ = _ =>
        destruct (is_addEventListener name)
    end.
    + split_run H as Name2 H. split_run H as Text H. split_run H as First H.
      split_run H as Detail H. split_run H as Ser H. split_run H as Log H.
      end_run H. do 6 eexists. split; [exact Ser|].
      pose proof (lines_of_run _ _ _ _ _
                    (proj1 (proj2 (safeStringify_quiet P _ _))) Ser) as L.
      clear Ser. crunch. tally. rewrite ?L. reflexivity.
    + split_run H as Name2 H. split_run H as Text H. split_run H as Args H.
      split_run H as Ser H. split_run H as Log H. end_run H.
      do 6 eexists. split; [exact Ser|].
      pose proof (lines_of_run _ _ _ _ _
                    (proj1 (proj2 (safeStringify_quiet P _ _))) Ser) as L.
      clear Ser. crunch. tally. rewrite ?L. reflexivity.
  - intros args newTarget H. unfold construct_trap in H.
    split_run H as Real H. split_run H as Name H. split_run H as Text H.
    split_run H as Args H. split_run H as Ser H. split_run H as Log H.
    end_run H. do 6 eexists. split; [exact Ser|].
    pose proof (lines_of_run _ _ _ _ _
                  (proj1 (proj2 (safeStringify_quiet P _ _))) Ser) as L.
    clear Ser. crunch. tally. rewrite ?L. reflexivity.
Qed.

(** * The further properties at work *)

Lemma constructor_mode_decides_call_logging_witness :
  (exists msg,
     Universal_proxy (Env.options_for "env") (VStr "text") Env.browser
     = (Throw (TypeError msg), Env.browser, [])) /\
  Universal_proxy (Env.binding "createElement") (VFun 5) Env.browser
    = (Ok (VFunProxy (VFun 5) "createElement"), Env.browser, []) /\
  Universal_proxy (Env.options_for "createElement") (VFun 5) Env.browser
    = (Ok (VProxy (VFun 5) "createElement"), Env.browser, []) /\
  (forall thisArg args,
     invoke Env.runtime (Env.options_for "createElement")
       (VProxy (VFun 5) "createElement") thisArg args Env.browser
     = (Ok (VObj 8), Env.browser, [ARealApply (VFun 5) thisArg args])).
Proof.
  split; [|split; [|split]].
  - exact (proj1 (constructor_mode_decides_call_logging _ Env.runtime
                    (Env.options_for "env") (VStr "text") Env.browser)
             eq_refl).
  - exact (proj1 (proj1 (proj2 (constructor_mode_decides_call_logging _
                                  Env.runtime (Env.binding "createElement")
                                  (VFun 5) Env.browser))
                    eq_refl)).
  - exact (proj1 (proj2 (proj2 (constructor_mode_decides_call_logging _
                                  Env.runtime
                                  (Env.options_for "createElement")
                                  (VFun 5) Env.browser))
                    eq_refl eq_refl)).
  - intros thisArg args.
    exact (proj2 (proj2 (proj2 (constructor_mode_decides_call_logging _
                                  Env.runtime
                                  (Env.options_for "createElement")
                                  (VFun 5) Env.browser))
                    eq_refl eq_refl)
             thisArg args Env.browser).
Defined.

Lemma unwatched_read_is_the_real_read_witness :
  get_trap Env.runtime Env.watching_userAgent "env.navigator" Env.navigator
    (KStr "platform") Cases.spy Env.browser
  = (Ok (VStr "Linux"), Env.browser,
     [ARealGet Env.navigator (KStr "platform") Cases.spy]).
Proof.
  exact (proj1 (unwatched_read_is_the_real_read _ Env.runtime
                  Env.watching_userAgent "env.navigator" Env.navigator
                  Cases.spy Env.browser [KStr "userAgent"] eq_refl)
           (KStr "platform") eq_refl).
Defined.

(** The masking hook decides what is written, passed on and logged. *)
Lemma write_contract_witness :
  exists hooked w0 t0 w1 u w2 t2 s w3 t3,
    call_beforeSet Cases.masking "env.navigator" (KStr "platform") (VStr "x")
      Env.browser = (Ok hooked, w0, t0) /\
    Env.set Env.navigator (KStr "platform") (coalesce hooked (VStr "x"))
      Cases.spy w0 = (Ok true, w1) /\
    call_afterSet Cases.masking "env.navigator" (KStr "platform")
      (coalesce hooked (VStr "x")) w1 = (Ok u, w2, t2) /\
    safeStringify Env.runtime (coalesce hooked (VStr "x")) w2
      = (Ok s, w3, t3) /\
    real_operations (trace_of Cases.masked_write)
      = [ARealSet Env.navigator (KStr "platform")
           (coalesce hooked (VStr "x")) Cases.spy] /\
    log_lines (trace_of Cases.masked_write)
      = [set_line "env.navigator" (KStr "platform") s] /\
    (beforeSet Cases.masking = None -> coalesce hooked (VStr "x") = VStr "x") /\
    (nullish hooked = false -> coalesce hooked (VStr "x") = hooked).
Proof.
  assert (E : Cases.masked_write
              = (Ok true, world_of Cases.masked_write,
                 trace_of Cases.masked_write))
    by (vm_compute; reflexivity).
  exact (write_contract _ Env.runtime Cases.masking "env.navigator"
           Env.navigator (KStr "platform") (VStr "x") Cases.spy Env.browser
           true _ _ E).
Defined.

Lemma masked_write_trace :
  real_operations (trace_of Cases.masked_write)
    = [ARealSet Env.navigator (KStr "platform") (VStr "masked") Cases.spy] /\
  result_of Cases.masked_write = Ok true.
Proof. vm_compute. split; reflexivity. Qed.

Lemma failing_before_hook_prevents_the_operation_witness :
  get_trap Env.runtime Cases.vetoing "env.navigator" Env.navigator
    (KStr "platform") Cases.spy Env.browser
  = (Throw Cases.refused, Env.browser,
     [AHook BeforeGet "env.navigator" (Some (KStr "platform")) None]) /\
  set_trap Env.runtime Cases.vetoing "env.navigator" Env.navigator
    (KStr "platform") (VStr "x") Cases.spy Env.browser
  = (Throw Cases.refused, Env.browser,
     [AHook BeforeSet "env.navigator" (Some (KStr "platform"))
        (Some (VStr "x"))]) /\
  apply_trap Env.runtime Cases.vetoing "env.createElement" (VFun 5)
    Cases.spy (VArr [VStr "img"]) Env.browser
  = (Throw Cases.refused, Env.browser,
     [AHook BeforeApply "env.createElement" None (Some (VArr [VStr "img"]))]).
Proof.
  split; [|split].
  - exact (proj1 (failing_before_hook_prevents_the_operation _ Env.runtime
                    Cases.vetoing "env.navigator" Env.browser Cases.refused
                    Env.browser)
             Env.navigator (KStr "platform") Cases.spy _
             eq_refl eq_refl eq_refl eq_refl).
  - exact (proj1 (proj2 (failing_before_hook_prevents_the_operation _
                           Env.runtime Cases.vetoing "env.navigator"
                           Env.browser Cases.refused Env.browser))
             Env.navigator (KStr "platform") (VStr "x") Cases.spy _
             eq_refl eq_refl).
  - exact (proj2 (proj2 (failing_before_hook_prevents_the_operation _
                           Env.runtime Cases.vetoing "env.createElement"
                           Env.browser Cases.refused Env.browser))
             (VFun 5) Cases.spy (VArr [VStr "img"]) _ eq_refl eq_refl).
Defined.

Lemma failed_operation_is_not_logged_witness :
  has_trap Env.runtime (Env.options_for "env") "env.gone" Cases.gone
    (KStr "a") Env.browser
  = (Throw (TypeError "target is not an object"), Env.browser,
     [ARealHas Cases.gone (KStr "a")]) /\
  set_trap Env.runtime (Env.options_for "env") "env.gone" Cases.gone
    (KStr "a") (VStr "x") Cases.gone Env.browser
  = (Throw (TypeError "target is not an object"), Env.browser,
     [ARealSet Cases.gone (KStr "a") (VStr "x") Cases.gone]).
Proof.
  split.
  - exact (proj1 (proj2 (failed_operation_is_not_logged _ Env.runtime
                           (Env.options_for "env") "env.gone" Cases.gone
                           (TypeError "target is not an object")
                           Env.browser Env.browser))
             (KStr "a") eq_refl).
  - exact (proj1 (proj1 (failed_operation_is_not_logged _ Env.runtime
                           (Env.options_for "env") "env.gone" Cases.gone
                           (TypeError "target is not an object")
                           Env.browser Env.browser)
                    (KStr "a") (VStr "x") Cases.gone VUndefined Env.browser []
                    eq_refl eq_refl)).
Defined.

Lemma structural_traps_return_the_real_result_witness :
  (exists w1,
     Env.has Env.navigator (KStr "userAgent") Env.browser = (Ok true, w1)) /\
  log_lines (trace_of Cases.has_userAgent)
    = [has_line "env.navigator" (KStr "userAgent") true].
Proof.
  assert (E : Cases.has_userAgent
              = (Ok true, world_of Cases.has_userAgent,
                 trace_of Cases.has_userAgent))
    by (vm_compute; reflexivity).
  exact (proj1 (structural_traps_return_the_real_result _ Env.runtime
                  (Env.options_for "env") "env.navigator" Env.navigator
                  Env.browser _ _)
           (KStr "userAgent") true E).
Defined.

(** [Object.setPrototypeOf(spy, null)]: the line is in the console when the
    prototype is changed. *)
Lemma prototype_traps_log_before_they_operate_witness :
  Env.clear_prototype
  = (Ok true,
     snd (Env.setPrototypeOf Env.navigator VNull
            (Cases.printed_line
               (setPrototypeOf_line "env.navigator" (Some "null")))),
     [ALog (setPrototypeOf_line "env.navigator" (Some "null"));
      ARealSetPrototypeOf Env.navigator VNull]).
Proof.
  exact (proj1 (prototype_traps_log_before_they_operate _ Env.runtime
                  (Env.options_for "env") "env.navigator" Env.navigator
                  Env.browser)
           VNull (Some "null") Env.browser [] tt
           (Cases.printed_line
              (setPrototypeOf_line "env.navigator" (Some "null")))
           [ALog (setPrototypeOf_line "env.navigator" (Some "null"))]
           eq_refl eq_refl).
Defined.

(** [spy.origin = performance]: the write throws, and the property is
    there. *)
Lemma late_failure_does_not_undo_the_operation_witness :
  Cases.write_big
  = (Throw (TypeError "Do not know how to serialize a BigInt"),
     Cases.written,
     [ARealSet Env.navigator (KStr "origin") (VObj 10) Cases.spy;
      AStringify (VObj 10)]) /\
  Env.get Env.navigator (KStr "origin") Env.navigator Cases.written
    = (Ok (VObj 10), Cases.written).
Proof.
  split; [|vm_compute; reflexivity].
  assert (S : safeStringify Env.runtime (VObj 10) Cases.written
              = (Throw (TypeError "Do not know how to serialize a BigInt"),
                 Cases.written, [AStringify (VObj 10)]))
    by (vm_compute; reflexivity).
  exact (proj1 (late_failure_does_not_undo_the_operation _ Env.runtime
                  (Env.options_for "env") "env.navigator" Env.navigator
                  (TypeError "Do not know how to serialize a BigInt")
                  Env.browser)
           (KStr "origin") (VObj 10) Cases.spy VUndefined Env.browser []
           true Cases.written VUndefined Cases.written [] Cases.written
           [AStringify (VObj 10)] eq_refl eq_refl eq_refl S).
Defined.

(** [env.consoleData] is read from a path that is not exempt and wrapped;
    every read on that wrapper is raw. *)
Lemma exemption_is_inherited_witness :
  wrapped_read "env" (KStr "consoleData") (VObj 9)
    = VProxy (VObj 9) "env.consoleData" /\
  read Env.runtime Env.engine (Env.options_for "env")
    (wrapped_read "env" (KStr "consoleData") (VObj 9)) (KStr "entries")
    Env.browser
  = (Ok (VObj 8), Env.browser,
     [ARealGet (VObj 9) (KStr "entries")
        (wrapped_read "env" (KStr "consoleData") (VObj 9))]).
Proof.
  destruct (proj2 (proj2 (proj2 (exemption_is_inherited _ Env.runtime
                                   Env.engine (Env.options_for "env")
                                   "env")))
              (KStr "consoleData") (VObj 9) (KStr "entries") Env.browser
              eq_refl eq_refl)
    as (Wrapped & _ & _ & _ & Returns).
  split; [exact Wrapped|].
  exact (Returns (VObj 8) Env.browser Env.browser eq_refl eq_refl).
Defined.

Lemma log_routing_witness :
  log Env.runtime Cases.collecting ["a"; "b"] Env.browser
    = (Ok tt, Cases.printed_line "a b", [ALog "a b"]) /\
  log Env.runtime Cases.sink_down ["a"; "b"] Env.browser
    = (Throw Cases.refused, Env.browser, [ALog "a b"]) /\
  log Env.runtime Cases.verbose ["a"; "b"] Env.browser
    = log Env.runtime (at_level (LevelName "log") Cases.verbose) ["a"; "b"]
        Env.browser /\
  (exists msg,
     log Cases.mute Cases.verbose ["a"; "b"] Env.browser
     = (Throw (TypeError msg), Env.browser, [])).
Proof.
  split; [|split; [|split]].
  - exact (proj1 (proj1 (log_routing _ Env.runtime Cases.collecting
                           ["a"; "b"] Env.browser) _ eq_refl)
             (VNum "1") _ eq_refl).
  - exact (proj2 (proj1 (log_routing _ Env.runtime Cases.sink_down
                           ["a"; "b"] Env.browser) _ eq_refl)
             Cases.refused _ eq_refl).
  - exact (proj1 (proj2 (proj2 (log_routing _ Env.runtime Cases.verbose
                                  ["a"; "b"] Env.browser)))
             "verbose" eq_refl eq_refl).
  - exact (proj1 (proj2 (proj2 (proj2 (log_routing _ Cases.mute Cases.verbose
                                         ["a"; "b"] Env.browser))))
             "verbose" eq_refl eq_refl eq_refl).
Defined.

(** [addEventListener(Symbol(), listener)] and [addEventListener()]. *)
Lemma addEventListener_detail_at_the_edges_witness :
  apply_trap Cases.listening (default_options unit) "obj.addEventListener"
    (VFun 0) VUndefined (VArr [VSym 1 None; VFun 2]) tt
  = (Throw (TypeError "Cannot convert a Symbol value to a string"), tt,
     [ARealApply (VFun 0) VUndefined (VArr [VSym 1 None; VFun 2]);
      AMember (VFun 0) (KStr "name"); AMember (VFun 0) (KStr "name")]) /\
  result_of (apply_trap Cases.listening (default_options unit)
               "obj.addEventListener" (VFun 0) VUndefined (VArr []) tt)
    = Ok VUndefined /\
  log_lines (trace_of (apply_trap Cases.listening (default_options unit)
                         "obj.addEventListener" (VFun 0) VUndefined
                         (VArr []) tt))
    = [apply_line "obj.addEventListener" "addEventListener" "undefined"
         (Some "undefined")].
Proof.
  split.
  - exact (proj2 (addEventListener_detail_at_the_edges _ Cases.listening
                    (default_options unit) "obj.addEventListener" (VFun 0)
                    VUndefined tt eq_refl eq_refl (fun _ => eq_refl))
             1 None [VFun 2] VUndefined tt eq_refl).
  - exact (proj1 (addEventListener_detail_at_the_edges _ Cases.listening
                    (default_options unit) "obj.addEventListener" (VFun 0)
                    VUndefined tt eq_refl eq_refl (fun _ => eq_refl))
             VUndefined tt (Some "undefined") tt [] tt tt
             [ALog (apply_line "obj.addEventListener" "addEventListener"
                      "undefined" (Some "undefined"))]
             eq_refl eq_refl eq_refl).
Defined.

Lemma functions_are_rendered_by_String_witness :
  safeStringify Env.runtime (VFunProxy (VFun 5) "env.createElement")
    Env.browser
  = (Ok (Some "function () { [native code] }"), Env.browser,
     [AToString (VFunProxy (VFun 5) "env.createElement")]).
Proof.
  exact (proj1 (functions_are_rendered_by_String _ Env.runtime
                  (VFunProxy (VFun 5) "env.createElement") Env.browser
                  eq_refl)
           _ _ eq_refl).
Defined.

(** Reading [env.navigator]: the serializer is handed the new wrapper. *)
Lemma the_line_shows_what_the_trap_returns_witness :
  exists s w2 w3 t3,
    safeStringify Env.runtime Cases.spy w2 = (Ok s, w3, t3) /\
    log_lines (trace_of Cases.read_navigator)
      = [get_line "env" (KStr "navigator") s] /\
    (nullish Cases.spy = false -> typeof Cases.spy = TObject ->
     In (AStringify Cases.spy) (trace_of Cases.read_navigator)).
Proof.
  assert (E : Cases.read_navigator
              = (Ok Cases.spy, world_of Cases.read_navigator,
                 trace_of Cases.read_navigator))
    by (vm_compute; reflexivity).
  exact (proj1 (the_line_shows_what_the_trap_returns _ Env.runtime
                  (Env.options_for "env") "env" Env.env Env.browser _ _ _)
           (KStr "navigator") (VProxy Env.env "env") eq_refl eq_refl E).
Defined.
